(** * EMV contactless reader: command executor, discovery, selection,
      record extraction, processing options, pay log and track 2.

    A shallow embedding of [applicationhelper.cc] and [ccinfo.cc].

    Conventions of the embedding.
    - A [byte_t] is a [Z] between 0 and 255; where the C++ narrows an [int]
      to a [byte_t] the reduction modulo 256 is written out ([wrap8]).
    - A C array is the list of its cells that hold a value, from cell 0 on;
      an array that was initialised lists all its cells.  A read outside the
      list, or a write outside the array, is undefined behaviour (or yields
      an indeterminate value) in the C++ and is the error
      [UndefinedBehaviour] here.
    - Loop counters are [size_t]; every counter below stays between 0 and
      the loop bound plus a few hundred, so [Z] arithmetic is exact for them.
    - The reader and the card sit behind [pn53x_transceive], which is not
      part of the sources.  They are modelled as an arbitrary function
      [card] of the history of commands sent so far. *)

From Stdlib Require Import ZArith List String Ascii Bool Lia.
Import ListNotations.
Local Open Scope Z_scope.

(** ** Results of fallible code *)

Inductive error : Type :=
| UndefinedBehaviour   (* access outside an array, use of an indeterminate value *)
| OutOfRange           (* std::out_of_range thrown by std::map::at *)
| OutOfFuel.           (* the loop model ran out of iterations *)

Inductive res (A : Type) : Type :=
| Ok (a : A)
| Err (e : error).
Arguments Ok {A} a.
Arguments Err {A} e.

Definition bind {A B : Type} (c : res A) (k : A -> res B) : res B :=
  match c with
  | Ok a => k a
  | Err e => Err e
  end.

Notation "x <- c ;; k" := (bind c (fun x => k))
  (at level 61, c at next level, right associativity).
Notation "' pat <- c ;; k" := (bind c (fun x => match x with pat => k end))
  (at level 61, pat pattern, c at next level, right associativity).

(** ** Bytes and arrays *)

Definition wrap8 (z : Z) : Z := z mod 256.

Definition len {A : Type} (l : list A) : Z := Z.of_nat (List.length l).

(** [buf[i]] *)
Definition rd (buf : list Z) (i : Z) : res Z :=
  if i <? 0 then Err UndefinedBehaviour
  else match nth_error buf (Z.to_nat i) with
       | Some b => Ok b
       | None => Err UndefinedBehaviour
       end.

(** The [n] bytes read by [memcpy(_, &buf[i], n)]. *)
Definition slice (buf : list Z) (i n : Z) : res (list Z) :=
  if (0 <=? i) && (0 <=? n) && (i + n <=? len buf)
  then Ok (firstn (Z.to_nat n) (skipn (Z.to_nat i) buf))
  else Err UndefinedBehaviour.

(** The array [dst] of [cap] cells after the bytes [src] are stored from
    cell [off] on.  [dst] lists the cells that hold a value, from cell 0 on
    (all [cap] of them for an array that was initialised); no store in the
    sources leaves a gap after the listed cells. *)
Definition blit (cap : Z) (dst : list Z) (off : Z) (src : list Z)
  : res (list Z) :=
  if (0 <=? off) && (off <=? len dst) && (off + len src <=? cap)
  then Ok (firstn (Z.to_nat off) dst ++ src
             ++ skipn (Z.to_nat off + List.length src) dst)
  else Err UndefinedBehaviour.

(** [dst[i] = v] *)
Definition wr (cap : Z) (dst : list Z) (i : Z) (v : Z) : res (list Z) :=
  blit cap dst i [v].

(** [memcpy(dst + off, &src[i], n)] *)
Definition memcpy (cap : Z) (dst : list Z) (off : Z) (src : list Z) (i n : Z)
  : res (list Z) :=
  bytes <- slice src i n ;;
  blit cap dst off bytes.

Definition zeros (n : Z) : list Z := repeat 0 (Z.to_nat n).

(** ** Loops

    [for (size_t i = i0; i < bound; ++i) body], where [body] may move [i]
    itself: [body i s] returns the counter and the state at the end of the
    body, and the loop adds the [++i]. *)

Fixpoint for_loop {S : Type} (fuel : nat) (bound : Z)
         (body : Z -> S -> res (Z * S)) (i : Z) (s : S) : res S :=
  if i <? bound then
    match fuel with
    | O => Err OutOfFuel
    | Datatypes.S fuel' =>
        match body i s with
        | Ok (i', s') => for_loop fuel' bound body (i' + 1) s'
        | Err e => Err e
        end
    end
  else Ok s.

(** ** Declarations of the headers

    [applicationhelper.hh], [ccinfo.hh] and [tools.hh] are not part of the
    sources: the sizes and the command templates they declare are
    parameters of the development. *)

Record Config : Type := {
  MAX_FRAME_LEN : Z;               (* cells of abtRx and of APDU::data *)
  AID_SIZE : Z;                    (* sizeof(Application::aid) *)
  NAME_SIZE : Z;                   (* sizeof(Application::name) *)
  CARDHOLDER_SIZE : Z;             (* sizeof(CCInfo::_cardholderName) *)
  LOG_ENTRIES : Z;                 (* cells of CCInfo::_logEntries *)
  FROM_SFI : Z;  TO_SFI : Z;       (* CCInfo::_FROM_SFI, _TO_SFI *)
  FROM_RECORD : Z;  TO_RECORD : Z; (* CCInfo::_FROM_RECORD, _TO_RECORD *)
  SELECT_PPSE : list Z;            (* Command::SELECT_PPSE *)
  SELECT_APP_HEADER : list Z;      (* Command::SELECT_APP_HEADER *)
  GET_DATA_LOG_FORMAT : list Z;    (* Command::GET_DATA_LOG_FORMAT *)
  READ_RECORD : list Z;            (* Command::READ_RECORD *)
  GPO_HEADER : list Z              (* Command::GPO_HEADER *)
}.

(** ** Data model *)

(** [struct APDU { size_t size; byte_t data[MAX_FRAME_LEN]; }].  [data]
    lists the cells of the array that hold a value, from cell 0 on: an
    [APDU] declared without initialiser starts with [data = []], and the
    cells after the listed ones are indeterminate. *)
Record APDU : Type := { size : Z; data : list Z }.

(** [struct Application]: priority, identifier, label.  [priority] is
    [None] while the member is indeterminate. *)
Record Application : Type := {
  priority : option Z;
  aid : list Z;
  name : list Z
}.

(** [Application app;] declared without initialiser. *)
Definition Application_uninit : Application :=
  {| priority := None; aid := []; name := [] |}.

Definition AppList : Type := list Application.

(** The static members of [ApplicationHelper], with the history of the
    commands handed to [pn53x_transceive] (oldest first), which stands for
    the state of the reader and the card. *)
Record Helper : Type := {
  abtRx : list Z;
  szRx : Z;
  sent : list (list Z)
}.

(** The members of [CCInfo] that the functions below use. *)
Record CCInfo : Type := {
  _cardholderName : list Z;
  _pdol : APDU;
  _track1DiscretionaryData : APDU;
  _track2EquivalentData : APDU;
  _logSFI : Z;
  _logCount : Z;
  _logFormat : APDU;
  _logEntries : list APDU
}.

Definition set_cardholderName (cc : CCInfo) (v : list Z) : CCInfo :=
  {| _cardholderName := v; _pdol := _pdol cc;
     _track1DiscretionaryData := _track1DiscretionaryData cc;
     _track2EquivalentData := _track2EquivalentData cc;
     _logSFI := _logSFI cc; _logCount := _logCount cc;
     _logFormat := _logFormat cc; _logEntries := _logEntries cc |}.

Definition set_track1 (cc : CCInfo) (v : APDU) : CCInfo :=
  {| _cardholderName := _cardholderName cc; _pdol := _pdol cc;
     _track1DiscretionaryData := v;
     _track2EquivalentData := _track2EquivalentData cc;
     _logSFI := _logSFI cc; _logCount := _logCount cc;
     _logFormat := _logFormat cc; _logEntries := _logEntries cc |}.

Definition set_track2 (cc : CCInfo) (v : APDU) : CCInfo :=
  {| _cardholderName := _cardholderName cc; _pdol := _pdol cc;
     _track1DiscretionaryData := _track1DiscretionaryData cc;
     _track2EquivalentData := v;
     _logSFI := _logSFI cc; _logCount := _logCount cc;
     _logFormat := _logFormat cc; _logEntries := _logEntries cc |}.

Definition set_logFormat (cc : CCInfo) (v : APDU) : CCInfo :=
  {| _cardholderName := _cardholderName cc; _pdol := _pdol cc;
     _track1DiscretionaryData := _track1DiscretionaryData cc;
     _track2EquivalentData := _track2EquivalentData cc;
     _logSFI := _logSFI cc; _logCount := _logCount cc;
     _logFormat := v; _logEntries := _logEntries cc |}.

Definition set_logEntries (cc : CCInfo) (v : list APDU) : CCInfo :=
  {| _cardholderName := _cardholderName cc; _pdol := _pdol cc;
     _track1DiscretionaryData := _track1DiscretionaryData cc;
     _track2EquivalentData := _track2EquivalentData cc;
     _logSFI := _logSFI cc; _logCount := _logCount cc;
     _logFormat := _logFormat cc; _logEntries := v |}.

(** [entries[i] = v] on the array of log entries. *)
Definition wr_entry (entries : list APDU) (i : Z) (v : APDU)
  : res (list APDU) :=
  if (0 <=? i) && (i <? len entries)
  then Ok (firstn (Z.to_nat i) entries ++ v :: skipn (Z.to_nat i + 1) entries)
  else Err UndefinedBehaviour.

(** The bytes of the receive buffer that the last exchange reported. *)
Definition reply (h : Helper) : list Z := firstn (Z.to_nat (szRx h)) (abtRx h).

(** The first [size] bytes of an [APDU]. *)
Definition payload (a : APDU) : list Z := firstn (Z.to_nat (size a)) (data a).

(** ** Static tables of [ccinfo.cc] *)

(** [std::map::at]: the value stored under [k], or [std::out_of_range]. *)
Fixpoint map_at {V : Type} (m : list (Z * V)) (k : Z) : res V :=
  match m with
  | [] => Err OutOfRange
  | (k', v) :: m' => if k' =? k then Ok v else map_at m' k
  end.

(** [std::map::find]: whether [k] is a key. *)
Definition map_mem {V : Type} (m : list (Z * V)) (k : Z) : bool :=
  match map_at m k with
  | Ok _ => true
  | Err _ => false
  end.

Definition PDOLValues : list (Z * list Z) :=
  [ (0x9F59, [0xC8; 0x80; 0x00]);          (* Terminal Transaction Information *)
    (0x9F5A, [0x00]);                      (* Terminal transaction Type *)
    (0x9F58, [0x01]);                      (* Merchant Type Indicator *)
    (0x9F66, [0xB6; 0x20; 0xC0; 0x00]);    (* Terminal Transaction Qualifiers *)
    (0x9F02, [0x00; 0x00; 0x10; 0x00; 0x00; 0x00]);  (* amount, authorised *)
    (0x9F03, [0x00; 0x00; 0x00; 0x00; 0x00; 0x00]);  (* Amount, Other *)
    (0x9F1A, [0x01; 0x24]);                (* Terminal country code *)
    (0x5F2A, [0x01; 0x24]);                (* Transaction currency code *)
    (0x95, [0x00; 0x00; 0x00; 0x00; 0x00]);(* Terminal Verification Results *)
    (0x9A, [0x15; 0x01; 0x01]);            (* Transaction Date *)
    (0x9C, [0x00]);                        (* Transaction Type *)
    (0x9F37, [0x82; 0x3D; 0xDE; 0x7A]) ].  (* Unpredictable number *)

Definition _logFormatTags : list (Z * string) :=
  [ (0x9A, "Date"); (0x9C, "Type"); (0x9F21, "Time"); (0x9F1A, "Country");
    (0x9F27, "Crypto info"); (0x5F2A, "Currency"); (0x9F02, "Amount");
    (0x9F4E, "Merchant"); (0x9F36, "Counter") ]%string.

Definition _countryCodes : list (Z * string) :=
  [ (0x756, "CHE"); (0x250, "FRA"); (0x826, "GBR"); (0x124, "CAN");
    (0x840, "USA") ]%string.

Definition _currencyCodes : list (Z * string) :=
  [ (0x756, "CHF"); (0x978, "EUR"); (0x826, "GBP"); (0x124, "CAD");
    (0x840, "USD") ]%string.

(** ** Text output *)

Definition hex_digit (d : Z) : ascii :=
  match d with
  | 0 => "0" | 1 => "1" | 2 => "2" | 3 => "3" | 4 => "4" | 5 => "5"
  | 6 => "6" | 7 => "7" | 8 => "8" | 9 => "9" | 10 => "a" | 11 => "b"
  | 12 => "c" | 13 => "d" | 14 => "e" | _ => "f"
  end%char.

(** Modelled from the spec: the macro [HEX] of [tools.hh] is not part of the
    sources.  The spec renders the byte 0x12 as [12] and the byte 0x06 as
    [06]: a byte is printed as its two hexadecimal digits.  The spec shows
    no digit above 9; they are written in lower case here, and no statement
    below depends on their case. *)
Definition HEX (b : Z) : string :=
  String (hex_digit (b / 16)) (String (hex_digit (b mod 16)) EmptyString).

(** [std::endl] *)
Definition endl : string := String (ascii_of_nat 10) EmptyString.

(** [(char) b] written to the stream. *)
Definition chr (b : Z) : string :=
  String (ascii_of_nat (Z.to_nat b)) EmptyString.

Notation "s +++ t" := (String.append s t)
  (at level 60, right associativity).

(** [for (j = 0; j < len; ++j) std::cout << sep(j) << HEX(entry.data[e++])]:
    the bytes of a log field in hexadecimal, [sep j] written before byte
    [j].  The state is the cursor [e] and the text written so far. *)
Definition hex_field (entry : list Z) (sep : Z -> string) (l : Z)
           (e : Z) (out : string) : res (Z * string) :=
  for_loop (Z.to_nat l) l
    (fun j '(e, out) =>
       b <- rd entry e ;;
       Ok (j, (e + 1, out +++ sep j +++ HEX b)))
    0 (e, out).

(** The loop of the "Merchant" field. *)
Definition char_field (entry : list Z) (l : Z) (e : Z) (out : string)
  : res (Z * string) :=
  for_loop (Z.to_nat l) l
    (fun j '(e, out) =>
       b <- rd entry e ;;
       Ok (j, (e + 1, out +++ chr b)))
    0 (e, out).

(** The loop of the "Amount" field; the state carries [flagZero]. *)
Definition amount_field (entry : list Z) (l : Z) (e : Z) (out : string)
  : res (Z * string) :=
  ' (_, e, out) <-
    for_loop (Z.to_nat l) l
      (fun j '(flagZero, e, out) =>
         skip <- (if (j <? 4) && (flagZero : bool) then
                    b <- rd entry e ;; Ok (b =? 0)
                  else Ok false) ;;
         if (skip : bool) then
           Ok (j, (flagZero, e + 1, out))   (* e++; continue; *)
         else
           b <- rd entry e ;;
           let out := out +++ HEX b in
           Ok (j, (false, e + 1, if j =? 4 then out +++ "." else out)))
      0 (true, e, out) ;;
  Ok (e, out).

(** The loop of a field looked up in a table of codes ("Currency",
    "Country"). *)
Definition code_field (codes : list (Z * string)) (entry : list Z) (l : Z)
           (e : Z) (out : string) : res (Z * string) :=
  b0 <- rd entry e ;;
  b1 <- rd entry (e + 1) ;;
  (* unsigned short value = entry.data[e] << 8 | entry.data[e+1]; *)
  let value := (Z.lor (Z.shiftl b0 8) b1) mod 65536 in
  if map_mem codes value then
    name <- map_at codes value ;;
    Ok (e + 2, out +++ name)
  else hex_field entry (fun _ => EmptyString) l e out.

(** [format[i] == a && format[i + 1] == b] *)
Definition tag2 (format : list Z) (i a b : Z) : res bool :=
  f <- rd format i ;;
  if f =? a then f1 <- rd format (i + 1) ;; Ok (f1 =? b) else Ok false.

(** Body of the loop of [printPaylog] over the log format, for one log
    entry: [i] is the cursor into the format, the state is the cursor [e]
    into the entry and the text written so far. *)
Definition paylog_body (format : list Z) (size_ : Z) (entry : list Z)
           (i : Z) (st : Z * string) : res (Z * (Z * string)) :=
  let '(e, out) := st in
  let field (i : Z) (tag : Z)
            (k : Z -> Z -> string -> res (Z * string)) :=
    l <- rd format i ;;
    label <- map_at _logFormatTags tag ;;
    ' (e, out) <- k l e (out +++ label +++ ": ") ;;
    Ok (i, (e, out +++ "; ")) in
  f <- rd format i ;;
  if f =? 0x9A then                                        (* Date *)
    field (i + 1) 0x9A
      (hex_field entry (fun j => if j =? 0 then "20"%string else "/"%string))
  else if f =? 0x9C then                                   (* Type *)
    field (i + 1) 0x9C
      (fun _ e out =>
         b <- rd entry e ;;
         Ok (e + 1, out +++ (if b =? 0 then "Payment" else "Withdrawal")))
  else if i + 1 <? size_ then
    t <- tag2 format i 0x9F 0x21 ;;
    if (t : bool) then                                     (* Time *)
      field (i + 2) 0x9F21
        (hex_field entry (fun j => if j =? 0 then EmptyString else ":"%string))
    else
    t <- tag2 format i 0x5F 0x2A ;;
    if (t : bool) then                                     (* Currency *)
      field (i + 2) 0x5F2A (code_field _currencyCodes entry)
    else
    t <- tag2 format i 0x9F 0x02 ;;
    if (t : bool) then                                     (* Amount *)
      field (i + 2) 0x9F02 (amount_field entry)
    else
    t <- tag2 format i 0x9F 0x4E ;;
    if (t : bool) then                                     (* Merchant *)
      field (i + 2) 0x9F4E (char_field entry)
    else
    t <- tag2 format i 0x9F 0x36 ;;
    if (t : bool) then                                     (* Counter *)
      field (i + 2) 0x9F36 (hex_field entry (fun _ => EmptyString))
    else
    t <- tag2 format i 0x9F 0x1A ;;
    if (t : bool) then                              (* Terminal country code *)
      field (i + 2) 0x9F1A (code_field _countryCodes entry)
    else
    t <- tag2 format i 0x9F 0x27 ;;
    if (t : bool) then                                     (* Crypto info *)
      field (i + 2) 0x9F27 (hex_field entry (fun _ => EmptyString))
    else Ok (i, (e, out))
  else Ok (i, (e, out)).

(** The text that [printPaylog] writes for one log entry, between the
    entry's number and the end of the line. *)
Definition paylog_entry (logFormat : APDU) (entry : APDU) : res string :=
  ' (_, out) <-
    for_loop (Z.to_nat (size logFormat)) (size logFormat)
             (paylog_body (data logFormat) (size logFormat) (data entry))
             0 (0, EmptyString) ;;
  Ok out.

(** [for (i = 0; i < 8; ++i) std::cout << HEX(buff[i]) << (i & 1 ? " " : "");] *)
Definition pan_loop (buff : list Z) (out : string) : res string :=
  for_loop 8 8
    (fun i out =>
       b <- rd buff i ;;
       Ok (i, out +++ HEX b
                  +++ (if Z.land i 1 =? 0 then EmptyString else " ")))
    0 out.

(** [CCInfo::printTracksInfo]: the text written to [std::cout]. *)
Definition printTracksInfo (cc : CCInfo) : res string :=
  let buff := data (_track2EquivalentData cc) in
  out <- pan_loop buff "PAN: " ;;
  let out := out +++ endl in
  let i := 8 in
  (* DY YM M*  : the separator is only 4 bits long *)
  b <- rd buff i ;;
  let year := wrap8 (Z.shiftl b 4) in
  let i := i + 1 in
  b <- rd buff i ;;
  let year := Z.lor year (Z.shiftr b 4) in
  b <- rd buff i ;;
  let month := wrap8 (Z.shiftl b 4) in
  let i := i + 1 in
  b <- rd buff i ;;
  let month := Z.lor month (Z.shiftr b 4) in
  Ok (out +++ "Expiry date: " +++ HEX month +++ "/20" +++ HEX year +++ endl).

Section Reader.

Variable cfg : Config.

(** [card history] is the outcome of the exchange whose command is the
    last element of [history]: the [int] that [pn53x_transceive] returns
    and the bytes it stores at the start of the receive buffer. *)
Variable card : list (list Z) -> Z * list Z.

(** [{0, {0}}] *)
Definition APDU_zero : APDU :=
  {| size := 0; data := zeros (MAX_FRAME_LEN cfg) |}.

(** [szRx = pn53x_transceive(pnd, command, size, abtRx, sizeof(abtRx), 0)]:
    the received bytes overwrite the start of [abtRx], the rest of the
    buffer keeps what it held. *)
Definition transceive (h : Helper) (command : list Z) : Helper :=
  let history := sent h ++ [command] in
  let (n, rx) := card history in
  {| abtRx := firstn (List.length (abtRx h))
                     (rx ++ skipn (List.length rx) (abtRx h));
     szRx := n;
     sent := history |}.

(** [ApplicationHelper::checkTrailer] *)
Definition checkTrailer (h : Helper) : res bool :=
  if szRx h <? 2 then Ok true
  else
    b1 <- rd (abtRx h) (szRx h - 2) ;;
    if b1 =? 0x90 then
      b2 <- rd (abtRx h) (szRx h - 1) ;;
      if b2 =? 0 then Ok false else Ok true
    else Ok true.

(** [ApplicationHelper::executeCommand] (the messages of [nfc_perror] and
    of the DEBUG build are not modelled). *)
Definition executeCommand (h : Helper) (command : list Z)
  : res (APDU * Helper) :=
  let h := transceive h command in
  if szRx h <? 0 then Ok (APDU_zero, h)
  else
    bad <- checkTrailer h ;;
    if (bad : bool) then Ok (APDU_zero, h)
    else
      bytes <- slice (abtRx h) 1 (szRx h - 1) ;;
      if len bytes <=? MAX_FRAME_LEN cfg
      then Ok ({| size := szRx h - 1; data := bytes |}, h)
      else Err UndefinedBehaviour.

(** *** Application discovery *)

(** One pass through the body of the [while] loop of [getAll]; [i] is the
    cursor into [abtRx]. *)
Definition template_body (buf : list Z) (i : Z) (app : Application)
  : res (Z * Application) :=
  b <- rd buf i ;;
  '(i, app) <-
    (if b =? 0x4F then                    (* Application ID *)
       l <- rd buf (i + 1) ;;              (* byte_t len = abtRx[++i]; *)
       let i := i + 2 in                   (* i++; *)
       aid' <- memcpy (AID_SIZE cfg) (aid app) 0 buf i l ;;
       Ok (i + (l - 1),
           {| priority := priority app; aid := aid'; name := name app |})
     else Ok (i, app)) ;;
  b <- rd buf i ;;
  '(i, app) <-
    (if b =? 0x87 then                    (* Application Priority indicator *)
       p <- rd buf (i + 2) ;;
       Ok (i + 2, {| priority := Some p; aid := aid app; name := name app |})
     else Ok (i, app)) ;;
  let i := i + 1 in
  b <- rd buf i ;;
  if b =? 0x50 then                       (* Application label *)
    l <- rd buf (i + 1) ;;
    let i := i + 2 in
    name' <- memcpy (NAME_SIZE cfg) (name app) 0 buf i l ;;
    name'' <- wr (NAME_SIZE cfg) name' l 0 ;;
    Ok (i + (l - 1),
        {| priority := priority app; aid := aid app; name := name'' |})
  else Ok (i, app).

(** [while (i < szRx && abtRx[i] != 0x61) body] *)
Fixpoint template_loop (fuel : nat) (buf : list Z) (bound : Z)
         (i : Z) (app : Application) : res (Z * Application) :=
  if i <? bound then
    b <- rd buf i ;;
    if b =? 0x61 then Ok (i, app)
    else
      match fuel with
      | O => Err OutOfFuel
      | S fuel' =>
          ' (i', app') <- template_body buf i app ;;
          template_loop fuel' buf bound i' app'
      end
  else Ok (i, app).

(** Body of the [for] loop of [getAll]. *)
Definition getAll_body (buf : list Z) (bound : Z) (i : Z) (list : AppList)
  : res (Z * AppList) :=
  b <- rd buf i ;;
  if b =? 0x61 then                       (* Application template *)
    ' (i', app) <-
      template_loop (Z.to_nat bound) buf bound (i + 1) Application_uninit ;;
    Ok (i' - 1, list ++ [app])            (* list.push_back(app); --i; *)
  else Ok (i, list).

(** [ApplicationHelper::getAll] *)
Definition getAll (h : Helper) : res (AppList * Helper) :=
  ' (r, h) <- executeCommand h (SELECT_PPSE cfg) ;;
  if size r =? 0 then Ok ([], h)
  else
    list <- for_loop (Z.to_nat (szRx h)) (szRx h)
                     (getAll_body (abtRx h) (szRx h)) 0 [] ;;
    Ok (list, h).

(** *** Application selection *)

(** [for (Application a : list) if (a.priority == priority) { app = a; break; }] *)
Fixpoint pick (list : AppList) (prio : Z) (app : Application)
  : res Application :=
  match list with
  | [] => Ok app
  | a :: rest =>
      match priority a with
      | None => Err UndefinedBehaviour
      | Some p => if p =? prio then Ok a else pick rest prio app
      end
  end.

(** The buffer [select_app] and the [byte_t size] that [selectByPriority]
    hands to [executeCommand]. *)
Definition select_command (app : Application) : res (list Z) :=
  let select_app := zeros 256 in                        (* bzero *)
  let header := SELECT_APP_HEADER cfg in
  select_app <- memcpy 256 select_app 0 header 0 (len header) ;;
  let size := wrap8 (len header) in
  select_app <- wr 256 select_app size (wrap8 (AID_SIZE cfg)) ;;
  let size := wrap8 (size + 1) in
  select_app <- memcpy 256 select_app size (aid app) 0 (AID_SIZE cfg) ;;
  let size := wrap8 (size + AID_SIZE cfg) in
  let size := wrap8 (size + 1) in
  slice select_app 0 size.

(** [ApplicationHelper::selectByPriority] *)
Definition selectByPriority (h : Helper) (list : AppList) (prio : Z)
  : res (APDU * Helper) :=
  app <- pick list prio Application_uninit ;;
  command <- select_command app ;;
  executeCommand h command.

(** *** Card record *)

(** [CCInfo::CCInfo] *)
Definition CCInfo_init : CCInfo :=
  {| _cardholderName := zeros (CARDHOLDER_SIZE cfg);
     _pdol := APDU_zero;
     _track1DiscretionaryData := APDU_zero;
     _track2EquivalentData := APDU_zero;
     _logSFI := 0;
     _logCount := 0;
     _logFormat := APDU_zero;
     _logEntries := repeat APDU_zero (Z.to_nat (LOG_ENTRIES cfg)) |}.

(** The [for] loop of [extractLogEntries]; the result is the value that
    the function returns, 1 from inside the loop and 0 after it. *)
Fixpoint log_loop (fuel : nat) (i : Z) (readRecord : list Z)
         (h : Helper) (cc : CCInfo) : res (Z * Helper * CCInfo) :=
  if i <? _logCount cc then
    match fuel with
    | O => Err OutOfFuel
    | S fuel' =>
        (* Param 1: record number, starts from 1 and not 0 *)
        readRecord <- wr (len readRecord) readRecord 4 (wrap8 (i + 1)) ;;
        ' (r, h) <- executeCommand h readRecord ;;
        entries <- wr_entry (_logEntries cc) i r ;;
        let cc := set_logEntries cc entries in
        if size r =? 0 then Ok (1, h, cc)
        else log_loop fuel' (i + 1) readRecord h cc
    end
  else Ok (0, h, cc).

(** [CCInfo::extractLogEntries] *)
Definition extractLogEntries (h : Helper) (cc : CCInfo)
  : res (Z * Helper * CCInfo) :=
  ' (r, h) <- executeCommand h (GET_DATA_LOG_FORMAT cfg) ;;
  let cc := set_logFormat cc r in
  if size r =? 0 then Ok (1, h, cc)
  else
    let readRecord := READ_RECORD cfg in    (* memcpy of the template *)
    (* Param 2: first 5 bits = SFI, then 1|0|0 *)
    readRecord <- wr (len readRecord) readRecord 5
                     (wrap8 (Z.lor (Z.shiftl (_logSFI cc) 3) (Z.shiftl 1 2))) ;;
    log_loop (Z.to_nat (_logCount cc)) 0 readRecord h cc.

(** Body of the scan of one record in [extractBaseRecords]; [buff] and
    [size] are [res.data] and [res.size]. *)
Definition record_body (buff : list Z) (size_ : Z) (i : Z) (cc : CCInfo)
  : res (Z * CCInfo) :=
  b <- rd buff i ;;
  if (b =? 0x57) && (size (_track2EquivalentData cc) =? 0) then
    (* Track 2 equivalent data *)
    n <- rd buff (i + 1) ;;
    let i := i + 2 in
    d <- memcpy (MAX_FRAME_LEN cfg) (data (_track2EquivalentData cc)) 0
                buff i n ;;
    Ok (i + (n - 1), set_track2 cc {| size := n; data := d |})
  else
    let track1 :=
      if (i + 1 <? size_) && (size (_track1DiscretionaryData cc) =? 0)
         && (b =? 0x9F)
      then
        b1 <- rd buff (i + 1) ;;
        if b1 =? 0x1F then               (* Track 1 discretionary data *)
          n <- rd buff (i + 2) ;;
          let i := i + 3 in
          d <- memcpy (MAX_FRAME_LEN cfg)
                      (data (_track1DiscretionaryData cc)) 0 buff i n ;;
          Ok (i + (n - 1), set_track1 cc {| size := n; data := d |})
        else Ok (i, cc)
      else Ok (i, cc) in
    if (i + 1 <? size_) && (b =? 0x5F) then
      b1 <- rd buff (i + 1) ;;
      if b1 =? 0x20 then                 (* Cardholder name *)
        l <- rd buff (i + 2) ;;
        let i := i + 3 in
        cc <- (if 2 <? l then            (* not saved when the name is "/" *)
                 nm <- memcpy (CARDHOLDER_SIZE cfg) (_cardholderName cc) 0
                              buff i l ;;
                 Ok (set_cardholderName cc nm)
               else Ok cc) ;;
        Ok (i + (l - 1), cc)
      else track1
    else track1.

(** The scan of one record read: [for (size_t i = 0; i < size; ++i)]. *)
Definition scan_record (r : APDU) (cc : CCInfo) : res CCInfo :=
  for_loop (Z.to_nat (size r)) (size r) (record_body (data r) (size r)) 0 cc.

(** Body of the loop over the record numbers. *)
Definition base_record_body (record : Z) (st : list Z * Helper * CCInfo)
  : res (Z * (list Z * Helper * CCInfo)) :=
  let '(readRecord, h, cc) := st in
  readRecord <- wr (MAX_FRAME_LEN cfg) readRecord 4 (wrap8 record) ;;
  command <- slice readRecord 0 (len (READ_RECORD cfg)) ;;
  ' (r, h) <- executeCommand h command ;;
  if size r =? 0 then Ok (record, (readRecord, h, cc))   (* continue *)
  else
    cc <- scan_record r cc ;;
    Ok (record, (readRecord, h, cc)).

(** Body of the loop over the short file identifiers. *)
Definition base_sfi_body (sfi : Z) (st : list Z * Helper * CCInfo)
  : res (Z * (list Z * Helper * CCInfo)) :=
  let '(readRecord, h, cc) := st in
  readRecord <- wr (MAX_FRAME_LEN cfg) readRecord 5
                   (wrap8 (Z.lor (Z.shiftl sfi 3) (Z.shiftl 1 2))) ;;
  st <- for_loop (Z.to_nat (TO_RECORD cfg + 1 - FROM_RECORD cfg))
                 (TO_RECORD cfg + 1) base_record_body
                 (FROM_RECORD cfg) (readRecord, h, cc) ;;
  Ok (sfi, st).

(** [CCInfo::extractBaseRecords]; it always returns 0. *)
Definition extractBaseRecords (h : Helper) (cc : CCInfo)
  : res (Z * Helper * CCInfo) :=
  readRecord <- memcpy (MAX_FRAME_LEN cfg) [] 0
                       (READ_RECORD cfg) 0 (len (READ_RECORD cfg)) ;;
  ' (_, h, cc) <- for_loop (Z.to_nat (TO_SFI cfg + 1 - FROM_SFI cfg))
                          (TO_SFI cfg + 1) base_sfi_body
                          (FROM_SFI cfg) (readRecord, h, cc) ;;
  Ok (0, h, cc).

(** *** Processing options *)

(** Body of the loop of [getProcessingOptions] over the PDOL; the state is
    [pdol_response_len] and [tagList]. *)
Definition pdol_body (buff : list Z) (i : Z) (st : Z * list (Z * Z))
  : res (Z * (Z * list (Z * Z))) :=
  let '(pdol_response_len, tagList) := st in
  b <- rd buff i ;;
  ' (i, first) <-
    (if (b =? 0x5F) || (b =? 0x9F) || (b =? 0xBF) then   (* 2-byte tag *)
       b1 <- rd buff (i + 1) ;;
       (* p.first = buff[i] << 8 | buff[i + 1];  (unsigned short) *)
       Ok (i + 1, (Z.lor (Z.shiftl b 8) b1) mod 65536)
     else Ok (i, b)) ;;                                  (* 1-byte tag *)
  let i := i + 1 in                      (* go to the associated length *)
  l <- rd buff i ;;
  Ok (i, (pdol_response_len + l, tagList ++ [(first, l)])).

(** The first loop of [getProcessingOptions]. *)
Definition pdol_tags (cc : CCInfo) : res (Z * list (Z * Z)) :=
  for_loop (Z.to_nat (size (_pdol cc))) (size (_pdol cc))
           (pdol_body (data (_pdol cc))) 0 (0, []).

(** [gpo.data[gpo.size++] = v] *)
Definition push_byte (gpo : APDU) (v : Z) : res APDU :=
  d <- wr (MAX_FRAME_LEN cfg) (data gpo) (size gpo) v ;;
  Ok {| size := size gpo + 1; data := d |}.

(** [for (auto i : tagList) { memcpy(&gpo.data[gpo.size],
    PDOLValues.at(i.first), i.second); gpo.size += i.second; }] *)
Fixpoint gpo_values (tagList : list (Z * Z)) (gpo : APDU) : res APDU :=
  match tagList with
  | [] => Ok gpo
  | (tag, l) :: rest =>
      v <- map_at PDOLValues tag ;;
      d <- memcpy (MAX_FRAME_LEN cfg) (data gpo) (size gpo) v 0 l ;;
      gpo_values rest {| size := size gpo + l; data := d |}
  end.

(** [pdol_response_len] and the [gpo] buffer that [getProcessingOptions]
    hands to [executeCommand]. *)
Definition gpo_command (cc : CCInfo) : res (Z * APDU) :=
  ' (pdol_response_len, tagList) <- pdol_tags cc ;;
  d <- memcpy (MAX_FRAME_LEN cfg) [] 0
              (GPO_HEADER cfg) 0 (len (GPO_HEADER cfg)) ;;
  let gpo := {| size := len (GPO_HEADER cfg); data := d |} in
  gpo <- push_byte gpo (wrap8 (pdol_response_len + 2)) ;;   (* Lc *)
  gpo <- push_byte gpo 0x83 ;;                              (* Tag length *)
  gpo <- push_byte gpo (wrap8 pdol_response_len) ;;
  gpo <- gpo_values tagList gpo ;;                          (* tag values *)
  gpo <- push_byte gpo 0 ;;                                 (* Le *)
  Ok (pdol_response_len, gpo).

(** [CCInfo::getProcessingOptions] *)
Definition getProcessingOptions (h : Helper) (cc : CCInfo)
  : res (Z * Helper) :=
  ' (_, gpo) <- gpo_command cc ;;
  command <- slice (data gpo) 0 (size gpo) ;;
  ' (r, h) <- executeCommand h command ;;
  Ok (if size r =? 0 then 1 else 0, h).

End Reader.

(** ** Sample inputs

    The theorems hold for every configuration and every card; the examples
    use the sizes and the EMV command templates of a PN53x reader, and a
    card that gives the same reply to every command. *)

Definition sample_cfg : Config :=
  {| MAX_FRAME_LEN := 300;
     AID_SIZE := 7;
     NAME_SIZE := 128;
     CARDHOLDER_SIZE := 64;
     LOG_ENTRIES := 20;
     FROM_SFI := 1;  TO_SFI := 31;
     FROM_RECORD := 1;  TO_RECORD := 16;
     SELECT_PPSE := [0x40; 0x01; 0x00; 0xA4; 0x04; 0x00; 0x0E;
                     0x32; 0x50; 0x41; 0x59; 0x2E; 0x53; 0x59; 0x53;
                     0x2E; 0x44; 0x44; 0x46; 0x30; 0x31; 0x00];
     SELECT_APP_HEADER := [0x40; 0x01; 0x00; 0xA4; 0x04; 0x00];
     GET_DATA_LOG_FORMAT := [0x40; 0x01; 0x80; 0xCA; 0x9F; 0x4F; 0x00];
     READ_RECORD := [0x40; 0x01; 0x00; 0xB2; 0x01; 0x0C; 0x00];
     GPO_HEADER := [0x40; 0x01; 0x80; 0xA8; 0x00; 0x00] |}.

(** The card that answers every command with the bytes [rx]. *)
Definition answering (rx : list Z) (history : list (list Z)) : Z * list Z :=
  (len rx, rx).

(** The helper before the first exchange: the static buffer is zeroed. *)
Definition Helper_init (cfg : Config) : Helper :=
  {| abtRx := zeros (MAX_FRAME_LEN cfg); szRx := 0; sent := [] |}.
(** ** Vocabulary of the statements *)

(** A reply ends in the status bytes of success. *)
Definition ends_9000 (l : list Z) : Prop := exists pre, l = pre ++ [0x90; 0x00].

(** The record numbers [i + 1], ..., [i + n]. *)
Definition indices_from (i : Z) (n : nat) : list Z :=
  map (fun j => i + Z.of_nat j) (seq 1 n).

(** The read-record template with P1 (cell 4) and P2 (cell 5) filled in. *)
Definition set_P1_P2 (template : list Z) (p1 p2 : Z) : list Z :=
  firstn 4 template ++ [p1; p2] ++ skipn 6 template.

(** P2 of a read-record command: the five bits of the SFI, then 1|0|0. *)
Definition P2_of_SFI (sfi : Z) : Z := wrap8 (Z.lor (Z.shiftl sfi 3) 4).

(** The command that reads record [k] of the log file. *)
Definition log_read_command (cfg : Config) (cc : CCInfo) (k : Z) : list Z :=
  set_P1_P2 (READ_RECORD cfg) (wrap8 k) (P2_of_SFI (_logSFI cc)).

(** [_logEntries[j]] *)
Definition entry (cc : CCInfo) (j : Z) : APDU :=
  nth (Z.to_nat j) (_logEntries cc) {| size := 0; data := [] |}.

(** The transport never reports more bytes than the receive buffer holds. *)
Definition card_fits (cfg : Config) (card : list (list Z) -> Z * list Z)
  : Prop :=
  forall history, fst (card history) <= MAX_FRAME_LEN cfg.

(** The log reads in the words of the specification: for each record
    number in order, read the record, store the payload, stop with a
    failure at the first empty result. *)
Fixpoint fetch_logs (cfg : Config) (card : list (list Z) -> Z * list Z)
         (numbers : list Z) (h : Helper) (cc : CCInfo)
  : res (Z * Helper * CCInfo) :=
  match numbers with
  | [] => Ok (0, h, cc)
  | k :: rest =>
      ' (r, h) <- executeCommand cfg card h (log_read_command cfg cc k) ;;
      entries <- wr_entry (_logEntries cc) (k - 1) r ;;
      let cc := set_logEntries cc entries in
      if size r =? 0 then Ok (1, h, cc)
      else fetch_logs cfg card rest h cc
  end.

(** The log fetch in the words of the specification: get the log format,
    fail if it is empty, otherwise read the records 1 to [_logCount]. *)
Definition log_fetch_spec (cfg : Config) (card : list (list Z) -> Z * list Z)
           (h : Helper) (cc : CCInfo) : res (Z * Helper * CCInfo) :=
  ' (r, h) <- executeCommand cfg card h (GET_DATA_LOG_FORMAT cfg) ;;
  let cc := set_logFormat cc r in
  if size r =? 0 then Ok (1, h, cc)
  else fetch_logs cfg card (indices_from 0 (Z.to_nat (_logCount cc))) h cc.

(** What the record extractor does with the responses to its reads, in
    the order they arrive: an empty result is skipped, any other is
    scanned. *)
Fixpoint scan_records (cfg : Config) (rs : list APDU) (cc : CCInfo)
  : res CCInfo :=
  match rs with
  | [] => Ok cc
  | r :: rest =>
      cc <- (if size r =? 0 then Ok cc else scan_record cfg r cc) ;;
      scan_records cfg rest cc
  end.

(** The records that the extractor has scanned so far, from [cc0]. *)
Definition scanned (cfg : Config) (cc0 : CCInfo)
           (st : list Z * Helper * CCInfo) : Prop :=
  exists rs, scan_records cfg rs cc0 = Ok (snd st).

(** The fields that are decoded once are the same in [cc2] as in [cc1],
    when [cc1] has them stored. *)
Definition kept (cc1 cc2 : CCInfo) : Prop :=
  (size (_track2EquivalentData cc1) <> 0 ->
   _track2EquivalentData cc2 = _track2EquivalentData cc1)
  /\ (size (_track1DiscretionaryData cc1) <> 0 ->
      _track1DiscretionaryData cc2 = _track1DiscretionaryData cc1).

(** The value that the GPO builder copies for a (tag, length) pair of the
    PDOL: the first [length] bytes of the canned value of the tag. *)
Definition substitution (p : Z * Z) : list Z :=
  match map_at PDOLValues (fst p) with
  | Ok v => firstn (Z.to_nat (snd p)) v
  | Err _ => []
  end.

(** The tag has a canned value, which is long enough. *)
Definition known (p : Z * Z) : Prop :=
  exists v, map_at PDOLValues (fst p) = Ok v /\ 0 <= snd p <= len v.

(** The lengths of the pairs, added up. *)
Definition total_length (tagList : list (Z * Z)) : Z :=
  fold_right (fun p acc => snd p + acc) 0 tagList.

(** A record whose track-2-equivalent data holds [bytes]. *)
Definition with_track2 (cc : CCInfo) (bytes : list Z) : CCInfo :=
  set_track2 cc {| size := len bytes; data := bytes |}.

(** The first eight bytes of the sample account number. *)
Definition sample_pan : list Z :=
  [0x12; 0x34; 0x56; 0x78; 0x90; 0x12; 0x34; 0x56].

(** A directory response with one application template, whose label
    "Visa" ends in the byte 0x61. *)
Definition visa_directory : list Z :=
  [0x00;
   0x61; 0x12;
     0x4F; 0x07; 0xA0; 0x00; 0x00; 0x00; 0x03; 0x10; 0x10;
     0x50; 0x04; 0x56; 0x69; 0x73; 0x61;
     0x87; 0x01; 0x01;
   0x90; 0x00].

(** A record with a log of two entries in the file of SFI 11. *)
Definition sample_log_cc : CCInfo :=
  {| _cardholderName := zeros 64;
     _pdol := {| size := 3; data := [0x9F; 0x02; 6] ++ zeros 297 |};
     _track1DiscretionaryData := APDU_zero sample_cfg;
     _track2EquivalentData := APDU_zero sample_cfg;
     _logSFI := 11;
     _logCount := 2;
     _logFormat := APDU_zero sample_cfg;
     _logEntries := repeat (APDU_zero sample_cfg) 20 |}.

(** A record read that holds a track 2 of two bytes. *)
Definition sample_record : APDU :=
  {| size := 4; data := [0x57; 0x02; 0xAA; 0xBB] |}.

(** A record read whose track 2 of four bytes holds, among its bytes, the
    tag 0x9F 0x1F of the track 1 discretionary data. *)
Definition nested_record : APDU :=
  {| size := 8;
     data := [0x57; 0x04; 0x9F; 0x1F; 0x01; 0xAA; 0x90; 0x00] |}.

(** The record after [sample_record] was scanned. *)
Definition sample_scanned (cfg : Config) : CCInfo :=
  set_track2 (CCInfo_init cfg)
             {| size := 2; data := [0xAA; 0xBB] ++ zeros 298 |}.

(** Two applications, of priority 2 and 1. *)
Definition sample_apps : AppList :=
  [ {| priority := Some 2;
       aid := [0xA0; 0x00; 0x00; 0x00; 0x04; 0x10; 0x10];
       name := [0x4D; 0x43; 0x00] |};
    {| priority := Some 1;
       aid := [0xA0; 0x00; 0x00; 0x00; 0x03; 0x10; 0x10];
       name := [0x56; 0x49; 0x53; 0x41; 0x00] |} ].

(** The computation fails only by undefined behaviour. *)
Definition only_ub {A : Type} (c : res A) : Prop :=
  forall e, c = Err e -> e = UndefinedBehaviour.

(** ** Vocabulary of the further properties *)

(** The integers [a], [a + 1], ..., [b]. *)
Definition zrange (a b : Z) : list Z :=
  map (fun k => a + Z.of_nat k) (seq 0 (Z.to_nat (b + 1 - a))).

(** The command that reads record [record] of the file [sfi] in
    [extractBaseRecords]. *)
Definition base_read_command (cfg : Config) (sfi record : Z) : list Z :=
  set_P1_P2 (READ_RECORD cfg) (wrap8 record) (P2_of_SFI sfi).

(** All the reads of [extractBaseRecords], file by file. *)
Definition base_read_commands (cfg : Config) : list (list Z) :=
  flat_map (fun sfi => map (base_read_command cfg sfi)
                           (zrange (FROM_RECORD cfg) (TO_RECORD cfg)))
           (zrange (FROM_SFI cfg) (TO_SFI cfg)).

(** The members that [extractBaseRecords] does not write. *)
Definition same_options_and_log (cc cc' : CCInfo) : Prop :=
  _pdol cc' = _pdol cc /\ _logSFI cc' = _logSFI cc
  /\ _logCount cc' = _logCount cc /\ _logFormat cc' = _logFormat cc
  /\ _logEntries cc' = _logEntries cc.

(** The bytes of a (tag, length) pair in a PDOL: the tag on one byte, or on
    two bytes with the high byte first, then the length. *)
Definition encode_entry (p : Z * Z) : list Z :=
  if fst p <? 256 then [fst p; snd p]
  else [fst p / 256; fst p mod 256; snd p].

(** The high byte of a two-byte tag announces it; a one-byte tag is none
    of the three announcing bytes. *)
Definition well_formed_entry (p : Z * Z) : Prop :=
  (0 <= fst p < 256 /\ fst p <> 0x5F /\ fst p <> 0x9F /\ fst p <> 0xBF)
  \/ (fst p / 256 = 0x5F \/ fst p / 256 = 0x9F \/ fst p / 256 = 0xBF).

(** A record whose PDOL holds [bytes]. *)
Definition with_pdol (cc : CCInfo) (bytes : list Z) : CCInfo :=
  {| _cardholderName := _cardholderName cc;
     _pdol := {| size := len bytes; data := bytes |};
     _track1DiscretionaryData := _track1DiscretionaryData cc;
     _track2EquivalentData := _track2EquivalentData cc;
     _logSFI := _logSFI cc; _logCount := _logCount cc;
     _logFormat := _logFormat cc; _logEntries := _logEntries cc |}.




(** The number of bytes 0x61 in [l]. *)
Definition count_0x61 (l : list Z) : nat := count_occ Z.eq_dec l 0x61.

(** ** Application data *)

Definition set_pdol (cc : CCInfo) (v : APDU) : CCInfo :=
  {| _cardholderName := _cardholderName cc; _pdol := v;
     _track1DiscretionaryData := _track1DiscretionaryData cc;
     _track2EquivalentData := _track2EquivalentData cc;
     _logSFI := _logSFI cc; _logCount := _logCount cc;
     _logFormat := _logFormat cc; _logEntries := _logEntries cc |}.

Definition set_logSFI (cc : CCInfo) (v : Z) : CCInfo :=
  {| _cardholderName := _cardholderName cc; _pdol := _pdol cc;
     _track1DiscretionaryData := _track1DiscretionaryData cc;
     _track2EquivalentData := _track2EquivalentData cc;
     _logSFI := v; _logCount := _logCount cc;
     _logFormat := _logFormat cc; _logEntries := _logEntries cc |}.

Definition set_logCount (cc : CCInfo) (v : Z) : CCInfo :=
  {| _cardholderName := _cardholderName cc; _pdol := _pdol cc;
     _track1DiscretionaryData := _track1DiscretionaryData cc;
     _track2EquivalentData := _track2EquivalentData cc;
     _logSFI := _logSFI cc; _logCount := v;
     _logFormat := _logFormat cc; _logEntries := _logEntries cc |}.

(** [CCInfo] with the two members that only [extractAppResponse] writes. *)
Record CCInfoApp : Type := {
  _application : Application;
  _languagePreference : list Z;
  members : CCInfo
}.

(** Body of the loop of [extractAppResponse] over the File Control
    Information; [i] is the cursor of the outer loop, at the first byte of
    the block, and [l] the length of the block. *)
Definition fci_body (buff : list Z) (i l : Z) (j : Z) (cc : CCInfo)
  : res (Z * CCInfo) :=
  if j + 1 <? l then
    t <- tag2 buff (i + j) 0x9F 0x4D ;;
    if (t : bool) then                                  (* Log Entry *)
      let j := j + 3 in              (* Size = 2 so we don't save it *)
      sfi <- rd buff (i + j) ;;
      let cc := set_logSFI cc sfi in
      let j := j + 1 in
      count <- rd buff (i + j) ;;
      Ok (j, set_logCount cc count)
    else Ok (j, cc)
  else Ok (j, cc).

(** Body of the loop of [extractAppResponse]; [lang_size] is
    [sizeof(_languagePreference)], which [ccinfo.hh] declares. *)
Definition app_body (cfg : Config) (lang_size : Z) (buff : list Z)
           (size_ : Z) (i : Z) (st : CCInfoApp) : res (Z * CCInfoApp) :=
  if i + 1 <? size_ then
    t <- tag2 buff i 0x5F 0x2D ;;
    if (t : bool) then                                  (* Language preference *)
      l <- rd buff (i + 2) ;;
      let i := i + 3 in
      lang <- memcpy lang_size (_languagePreference st) 0 buff i l ;;
      Ok (i + (l - 1),
          {| _application := _application st;
             _languagePreference := lang; members := members st |})
    else
    t <- tag2 buff i 0x9F 0x38 ;;
    if (t : bool) then                                  (* PDOL *)
      n <- rd buff (i + 2) ;;
      let i := i + 3 in
      (* We just store it to parse it later *)
      d <- memcpy (MAX_FRAME_LEN cfg) (data (_pdol (members st))) 0
                  buff i n ;;
      Ok (i + (n - 1),
          {| _application := _application st;
             _languagePreference := _languagePreference st;
             members := set_pdol (members st) {| size := n; data := d |} |})
    else
    t <- tag2 buff i 0xBF 0x0C ;;
    if (t : bool) then                         (* File Control Information *)
      l <- rd buff (i + 2) ;;
      let i := i + 3 in
      cc <- for_loop (Z.to_nat l) l (fci_body buff i l) 0 (members st) ;;
      Ok (i + (l - 1),
          {| _application := _application st;
             _languagePreference := _languagePreference st;
             members := cc |})
    else Ok (i, st)
  else Ok (i, st).

(** The statements of [CCInfo::extractAppResponse], from the assignment
    of [_application] to the end of the loop over the response. *)
Definition extractAppResponse_body (cfg : Config) (lang_size : Z)
           (app : Application) (appResponse : APDU) (st : CCInfoApp)
  : res CCInfoApp :=
  let st := {| _application := app;
               _languagePreference := _languagePreference st;
               members := members st |} in
  for_loop (Z.to_nat (size appResponse)) (size appResponse)
           (app_body cfg lang_size (data appResponse) (size appResponse))
           0 st.

(** [CCInfo::extractAppResponse]: the value returned and the members after
    the call.  The function is declared [int] and its body ends after the
    loop, without a [return] statement: a call that gets there flows off
    the end of a function that returns a value, which is undefined
    behaviour. *)
Definition extractAppResponse (cfg : Config) (lang_size : Z)
           (app : Application) (appResponse : APDU) (st : CCInfoApp)
  : res (Z * CCInfoApp) :=
  _ <- extractAppResponse_body cfg lang_size app appResponse st ;;
  Err UndefinedBehaviour.




(** ** Sample inputs of the further properties *)

(** A reply that holds a record with a track 2 of two bytes. *)
Definition sample_track2_reply : list Z :=
  [0x00; 0x70; 0x04; 0x57; 0x02; 0x12; 0x34; 0x90; 0x00].

(** A PDOL that asks for the amount, the currency and the date. *)
Definition sample_entries : list (Z * Z) :=
  [(0x9F02, 6); (0x5F2A, 2); (0x9A, 3)].




(** A directory reply with one application template: a leading byte, the
    template tag 0x61 and its length, the identifier (tag 0x4F), the label
    (tag 0x50), the priority (tag 0x87) and the status bytes. *)
Definition directory_reply (b0 L : Z) (aid label : list Z) (prio : Z)
  : list Z :=
  [b0; 0x61; L; 0x4F; len aid] ++ aid ++ [0x50; len label] ++ label
    ++ [0x87; 0x01; prio; 0x90; 0x00].

(** * Properties *)

(** ** Arrays *)

Lemma len_nonneg {A : Type} (l : list A) : 0 <= len l.
Proof. unfold len. lia. Qed.

Lemma len_app {A : Type} (l1 l2 : list A) : len (l1 ++ l2) = len l1 + len l2.
Proof. unfold len. rewrite length_app. lia. Qed.

Lemma rd_ok (buf : list Z) (i : Z) :
  0 <= i < len buf -> rd buf i = Ok (nth (Z.to_nat i) buf 0).
Proof.
  intros Hi. unfold rd, len in *.
  destruct (Z.ltb_spec i 0) as [Hneg | _]; [lia |].
  destruct (nth_error buf (Z.to_nat i)) as [b |] eqn:Hnth.
  - now rewrite (nth_error_nth _ _ 0 Hnth).
  - apply nth_error_None in Hnth. lia.
Qed.

Lemma rd_inv (buf : list Z) (i b : Z) :
  rd buf i = Ok b -> 0 <= i < len buf /\ nth (Z.to_nat i) buf 0 = b.
Proof.
  unfold rd, len. destruct (Z.ltb_spec i 0) as [Hneg | Hpos]; [discriminate |].
  destruct (nth_error buf (Z.to_nat i)) as [c |] eqn:Hnth; [| discriminate].
  intros [= <-]. split.
  - assert (Hlt : (Z.to_nat i < List.length buf)%nat)
      by (apply nth_error_Some; congruence).
    lia.
  - now apply nth_error_nth.
Qed.

Lemma firstn_snoc (l : list Z) (n : nat) :
  (n < List.length l)%nat -> firstn (S n) l = firstn n l ++ [nth n l 0].
Proof.
  revert n. induction l as [| a l IH]; intros n Hn; simpl in Hn; [lia |].
  destruct n as [| n]; [reflexivity |].
  cbn [firstn nth app]. f_equal. apply IH. lia.
Qed.

Lemma firstn_last2 (l : list Z) (n : nat) :
  (2 <= n <= List.length l)%nat ->
  firstn n l = firstn (n - 2) l ++ [nth (n - 2) l 0; nth (n - 1) l 0].
Proof.
  intros Hn.
  replace n with (S (S (n - 2))) at 1 by lia.
  rewrite firstn_snoc by lia. rewrite firstn_snoc by lia.
  rewrite <- app_assoc. replace (S (n - 2)) with (n - 1)%nat by lia.
  reflexivity.
Qed.

Lemma wrap8_small (z : Z) : 0 <= z < 256 -> wrap8 z = z.
Proof. intros Hz. unfold wrap8. now apply Z.mod_small. Qed.

Lemma lor_shiftl (a b n : Z) :
  0 <= n -> 0 <= b < 2 ^ n -> Z.lor (Z.shiftl a n) b = a * 2 ^ n + b.
Proof.
  intros Hn Hb.
  assert (Hland : Z.land (Z.shiftl a n) b = 0).
  { apply Z.bits_inj'. intros k Hk.
    rewrite Z.land_spec, Z.bits_0.
    destruct (Z.ltb_spec k n) as [Hlow | Hhigh].
    - rewrite Z.shiftl_spec_low by assumption. reflexivity.
    - destruct (Z.eq_dec b 0) as [-> | Hnz].
      + rewrite Z.bits_0. apply andb_false_r.
      + rewrite (Z.bits_above_log2 b k); [apply andb_false_r | lia |].
        apply Z.log2_lt_pow2; [lia |].
        apply Z.lt_le_trans with (2 ^ n); [lia |].
        apply Z.pow_le_mono_r; lia. }
  rewrite <- Z.lxor_lor by assumption.
  rewrite <- Z.add_nocarry_lxor by assumption.
  now rewrite Z.shiftl_mul_pow2 by lia.
Qed.

Lemma lor_shiftl8 (b b1 : Z) :
  0 <= b1 < 256 -> Z.lor (Z.shiftl b 8) b1 = 256 * b + b1.
Proof.
  intros Hb1. rewrite lor_shiftl by (change (2 ^ 8) with 256; lia).
  change (2 ^ 8) with 256. lia.
Qed.

(** For a five-bit SFI the byte P2 is (SFI << 3) | 0b100 itself. *)
Lemma P2_of_SFI_5bit (sfi : Z) :
  0 <= sfi < 32 -> P2_of_SFI sfi = Z.lor (Z.shiftl sfi 3) 4.
Proof.
  intros Hsfi. unfold P2_of_SFI, wrap8.
  rewrite lor_shiftl by (change (2 ^ 3) with 8; lia).
  change (2 ^ 3) with 8. apply Z.mod_small. lia.
Qed.

(** ** Command executor *)

Section ReaderFacts.

Variable cfg : Config.
Variable card : list (list Z) -> Z * list Z.

Lemma transceive_sent (h : Helper) (command : list Z) :
  sent (transceive card h command) = sent h ++ [command].
Proof. unfold transceive. now destruct (card _). Qed.

Lemma transceive_len (h : Helper) (command : list Z) :
  len (abtRx (transceive card h command)) = len (abtRx h).
Proof.
  unfold transceive, len. destruct (card _) as [n rx]. cbn [abtRx].
  rewrite length_firstn, length_app, length_skipn. lia.
Qed.

(** [checkTrailer] answers [false] exactly on the replies that end in
    0x90 0x00. *)
Lemma checkTrailer_spec (h : Helper) :
  szRx h <= len (abtRx h) ->
  (checkTrailer h = Ok false /\ 2 <= szRx h /\ ends_9000 (reply h))
  \/ (checkTrailer h = Ok true /\ ~ ends_9000 (reply h)).
Proof.
  intros Hfit. unfold checkTrailer.
  destruct (Z.ltb_spec (szRx h) 2) as [Hshort | Hlong].
  - right. split; [reflexivity |].
    intros [pre Hpre]. apply (f_equal (@List.length Z)) in Hpre.
    unfold reply in Hpre.
    rewrite length_firstn, length_app in Hpre. simpl in Hpre. lia.
  - assert (Hreply : reply h = firstn (Z.to_nat (szRx h) - 2) (abtRx h)
              ++ [nth (Z.to_nat (szRx h) - 2) (abtRx h) 0;
                  nth (Z.to_nat (szRx h) - 1) (abtRx h) 0]).
    { unfold reply. apply firstn_last2. unfold len in Hfit. lia. }
    rewrite (rd_ok (abtRx h) (szRx h - 2)) by lia.
    rewrite (rd_ok (abtRx h) (szRx h - 1)) by lia.
    replace (Z.to_nat (szRx h - 2)) with (Z.to_nat (szRx h) - 2)%nat by lia.
    replace (Z.to_nat (szRx h - 1)) with (Z.to_nat (szRx h) - 1)%nat by lia.
    cbn [bind].
    destruct (Z.eqb_spec (nth (Z.to_nat (szRx h) - 2) (abtRx h) 0) 0x90)
      as [E1 | N1]; cbn [bind].
    + destruct (Z.eqb_spec (nth (Z.to_nat (szRx h) - 1) (abtRx h) 0) 0)
        as [E2 | N2].
      * left. repeat split; [lia |].
        eexists. rewrite Hreply, E1, E2. reflexivity.
      * right. split; [reflexivity |]. intros [pre Hpre].
        rewrite Hreply in Hpre.
        change (pre ++ [0x90; 0]) with (pre ++ [0x90] ++ [0]) in Hpre.
        change [?a; ?b] with ([a] ++ [b]) in Hpre.
        rewrite !app_assoc in Hpre.
        apply app_inj_tail in Hpre. destruct Hpre as [_ Hb]. contradiction.
    + right. split; [reflexivity |]. intros [pre Hpre].
      rewrite Hreply in Hpre.
      match type of Hpre with
      | ?x ++ [?a; ?b] = _ =>
          change (x ++ [a; b]) with (x ++ [a] ++ [b]) in Hpre
      end.
      change (pre ++ [0x90; 0]) with (pre ++ [0x90] ++ [0]) in Hpre.
      rewrite !app_assoc in Hpre.
      apply app_inj_tail in Hpre. destruct Hpre as [Hpre _].
      apply app_inj_tail in Hpre. destruct Hpre as [_ Ha]. contradiction.
Qed.

Lemma slice_tail (buf : list Z) (n : Z) :
  1 <= n <= len buf ->
  slice buf 1 (n - 1) = Ok (tl (firstn (Z.to_nat n) buf)).
Proof.
  intros Hn. unfold slice.
  destruct (Z.leb_spec 0 1); [| lia].
  destruct (Z.leb_spec 0 (n - 1)); [| lia].
  destruct (Z.leb_spec (1 + (n - 1)) (len buf)); [| lia].
  cbn [andb]. f_equal.
  replace (Z.to_nat n) with (S (Z.to_nat (n - 1))) by lia.
  destruct buf as [| a buf]; [now rewrite !firstn_nil | reflexivity].
Qed.

(** The two outcomes of [executeCommand]: the zeroed [APDU] when the
    exchange failed or the trailer is wrong, and otherwise the reply
    without its first byte. *)
Lemma executeCommand_failure (h : Helper) (command : list Z) :
  szRx (transceive card h command) <= len (abtRx h) ->
  szRx (transceive card h command) < 0
  \/ ~ ends_9000 (reply (transceive card h command)) ->
  executeCommand cfg card h command
  = Ok (APDU_zero cfg, transceive card h command).
Proof.
  intros Hfit Hbad. unfold executeCommand.
  set (h' := transceive card h command) in *.
  destruct (Z.ltb_spec (szRx h') 0) as [Hneg | Hpos]; [reflexivity |].
  destruct Hbad as [Hneg | Hbad]; [lia |].
  destruct (checkTrailer_spec h') as [(_ & _ & Hgood) | (-> & _)].
  - unfold h'. now rewrite transceive_len.
  - contradiction.
  - reflexivity.
Qed.

Lemma executeCommand_success (h : Helper) (command : list Z) :
  szRx (transceive card h command) <= len (abtRx h) ->
  szRx (transceive card h command) - 1 <= MAX_FRAME_LEN cfg ->
  0 <= szRx (transceive card h command) ->
  ends_9000 (reply (transceive card h command)) ->
  executeCommand cfg card h command
  = Ok ({| size := szRx (transceive card h command) - 1;
           data := tl (reply (transceive card h command)) |},
        transceive card h command).
Proof.
  intros Hfit Hcap Hpos Hgood. unfold executeCommand.
  set (h' := transceive card h command) in *.
  assert (Hlen : len (abtRx h') = len (abtRx h))
    by (unfold h'; apply transceive_len).
  destruct (Z.ltb_spec (szRx h') 0) as [Hneg | _]; [lia |].
  destruct (checkTrailer_spec h') as [(-> & Hge & _) | (_ & Hbad)];
    [lia | | contradiction].
  cbn [bind]. rewrite slice_tail by lia. cbn [bind].
  fold (reply h').
  assert (Hl : len (tl (reply h')) <= MAX_FRAME_LEN cfg).
  { unfold reply, len. destruct (firstn _ _) eqn:E; simpl.
    - pose proof (len_nonneg (abtRx h')). lia.
    - apply (f_equal (@List.length Z)) in E.
      rewrite length_firstn in E. simpl in E. lia. }
  destruct (Z.leb_spec (len (tl (reply h'))) (MAX_FRAME_LEN cfg)); [| lia].
  reflexivity.
Qed.

(** C1 (as amended): when the exchange succeeds, that is the transport
    reports a non-negative length and the reply ends in 0x90 0x00,
    [executeCommand] returns the reply without its FIRST byte: the payload
    has one byte less than the reply.  The status bytes are not removed:
    when the reply holds a byte before them, the payload is the bytes
    between that first byte and the status bytes, followed by 0x90 0x00;
    when the reply is 0x90 0x00 alone, the payload is the single byte
    0x00. *)
Theorem executeCommand_success_drops_first_byte
        (h : Helper) (command : list Z) (pre : list Z) :
  szRx (transceive card h command) <= len (abtRx h) ->
  szRx (transceive card h command) - 1 <= MAX_FRAME_LEN cfg ->
  0 <= szRx (transceive card h command) ->
  reply (transceive card h command) = pre ++ [0x90; 0x00] ->
  exists r,
    executeCommand cfg card h command = Ok (r, transceive card h command)
    /\ size r = len (reply (transceive card h command)) - 1
    /\ payload r = tl (reply (transceive card h command))
    /\ (forall b middle, pre = b :: middle ->
                         payload r = middle ++ [0x90; 0x00])
    /\ (pre = [] -> payload r = [0x00]).
Proof.
  intros Hfit Hcap Hpos Hreply.
  assert (Hpayload :
            payload {| size := szRx (transceive card h command) - 1;
                       data := tl (reply (transceive card h command)) |}
            = tl (pre ++ [0x90; 0x00])).
  { unfold payload. cbn [size data]. rewrite Hreply.
    apply firstn_all2.
    apply (f_equal (@List.length Z)) in Hreply. unfold reply in Hreply.
    rewrite length_firstn in Hreply.
    destruct (pre ++ [0x90; 0]); simpl in *; lia. }
  eexists. split; [| split; [| split; [| split]]].
  - apply executeCommand_success; try assumption. now exists pre.
  - cbn [size]. unfold reply, len. rewrite length_firstn.
    rewrite <- transceive_len with (command := command) in Hfit.
    unfold len in Hfit. lia.
  - rewrite Hpayload. now rewrite Hreply.
  - intros b middle ->. rewrite Hpayload. reflexivity.
  - intros ->. rewrite Hpayload. reflexivity.
Qed.

(** C2: when the transport reports a negative result, or the reply does
    not end in the status bytes 0x90 0x00, [executeCommand] returns an
    empty payload (size 0), whatever bytes the reply holds. *)
Theorem executeCommand_failure_empty (h : Helper) (command : list Z) :
  szRx (transceive card h command) <= len (abtRx h) ->
  szRx (transceive card h command) < 0
  \/ ~ ends_9000 (reply (transceive card h command)) ->
  exists r,
    executeCommand cfg card h command = Ok (r, transceive card h command)
    /\ size r = 0 /\ payload r = [].
Proof.
  intros Hfit Hbad. exists (APDU_zero cfg).
  split; [now apply executeCommand_failure | split; reflexivity].
Qed.

(** C10: a reply of 0 or 1 byte, with a non-negative transport result,
    fails the trailer check: [executeCommand] returns an empty payload
    (size 0), as for a wrong status trailer. *)
Theorem executeCommand_short_reply_empty (h : Helper) (command : list Z) :
  0 <= szRx (transceive card h command) < 2 ->
  checkTrailer (transceive card h command) = Ok true
  /\ exists r,
    executeCommand cfg card h command = Ok (r, transceive card h command)
    /\ size r = 0 /\ payload r = [].
Proof.
  intros Hshort. unfold executeCommand, checkTrailer.
  destruct (Z.ltb_spec (szRx (transceive card h command)) 0); [lia |].
  destruct (Z.ltb_spec (szRx (transceive card h command)) 2); [| lia].
  split; [reflexivity |].
  exists (APDU_zero cfg). repeat split.
Qed.

End ReaderFacts.

(** ** Application selection *)

Lemma skipn_zeros (n k : nat) : skipn n (repeat 0 k) = repeat 0 (k - n).
Proof.
  revert k. induction n as [| n IH]; intros k.
  - now rewrite Nat.sub_0_r.
  - destruct k as [| k]; [reflexivity |]. simpl. apply IH.
Qed.

Lemma slice_all (src : list Z) : slice src 0 (len src) = Ok src.
Proof.
  unfold slice, len.
  destruct (Z.leb_spec 0 0); [| lia].
  destruct (Z.leb_spec 0 (Z.of_nat (List.length src))); [| lia].
  destruct (Z.leb_spec (0 + Z.of_nat (List.length src))
                       (Z.of_nat (List.length src))); [| lia].
  cbn [andb]. rewrite Nat2Z.id. simpl. now rewrite firstn_all.
Qed.

(** Storing bytes right after the written part of a zeroed array. *)
Lemma blit_zeros (cap : Z) (pre src : list Z) (k : Z) :
  cap = len pre + k -> len src <= k ->
  blit cap (pre ++ zeros k) (len pre) src
  = Ok ((pre ++ src) ++ zeros (k - len src)).
Proof.
  intros -> Hk. unfold blit.
  pose proof (len_nonneg pre). pose proof (len_nonneg src).
  assert (Hz : len (zeros k) = k)
    by (unfold zeros, len; rewrite repeat_length; lia).
  rewrite len_app, Hz.
  destruct (Z.leb_spec 0 (len pre)); [| lia].
  destruct (Z.leb_spec (len pre) (len pre + k)); [| lia].
  destruct (Z.leb_spec (len pre + len src) (len pre + k)); [| lia].
  cbn [andb]. f_equal. unfold len. rewrite Nat2Z.id.
  rewrite firstn_app, firstn_all, Nat.sub_diag. simpl firstn.
  rewrite app_nil_r, <- app_assoc. do 2 f_equal.
  rewrite skipn_app, skipn_all2 by lia.
  replace (List.length pre + List.length src - List.length pre)%nat
    with (List.length src) by lia.
  unfold zeros. rewrite skipn_zeros. simpl. f_equal. lia.
Qed.

Lemma slice_written (pre : list Z) (k : Z) :
  0 <= k -> slice (pre ++ zeros k) 0 (len pre) = Ok pre.
Proof.
  intros Hk. unfold slice. pose proof (len_nonneg pre).
  assert (Hz : len (zeros k) = k)
    by (unfold zeros, len; rewrite repeat_length; lia).
  rewrite len_app, Hz.
  destruct (Z.leb_spec 0 0); [| lia].
  destruct (Z.leb_spec 0 (len pre)); [| lia].
  destruct (Z.leb_spec (0 + len pre) (len pre + k)); [| lia].
  cbn [andb]. unfold len. rewrite Nat2Z.id. simpl skipn.
  rewrite firstn_app, firstn_all, Nat.sub_diag. simpl. now rewrite app_nil_r.
Qed.

Section SelectorFacts.

Variable cfg : Config.
Variable card : list (list Z) -> Z * list Z.

(** The loop of [selectByPriority] stops at the first entry with the
    wanted priority. *)
Lemma pick_first_match (before after : AppList) (a app : Application)
      (prio : Z) :
  Forall (fun b => exists p, priority b = Some p /\ p <> prio) before ->
  priority a = Some prio ->
  pick (before ++ a :: after) prio app = Ok a.
Proof.
  intros Hbefore Ha. induction Hbefore as [| b before (p & Hp & Hne) _ IH].
  - simpl. rewrite Ha, Z.eqb_refl. reflexivity.
  - simpl. rewrite Hp. destruct (Z.eqb_spec p prio); [contradiction | exact IH].
Qed.

(** Without a match the loop leaves [app] as it was declared. *)
Lemma pick_no_match (list : AppList) (app : Application) (prio : Z) :
  Forall (fun b => exists p, priority b = Some p /\ p <> prio) list ->
  pick list prio app = Ok app.
Proof.
  induction 1 as [| b list (p & Hp & Hne) _ IH]; [reflexivity |].
  simpl. rewrite Hp. destruct (Z.eqb_spec p prio); [contradiction | exact IH].
Qed.

(** The command built for an application: header, length byte,
    identifier, zero. *)
Lemma select_command_bytes (a : Application) :
  len (aid a) = AID_SIZE cfg ->
  len (SELECT_APP_HEADER cfg) + AID_SIZE cfg + 2 <= 255 ->
  select_command cfg a
  = Ok (SELECT_APP_HEADER cfg ++ [AID_SIZE cfg] ++ aid a ++ [0]).
Proof.
  intros Haid Hsize. unfold select_command.
  rewrite <- Haid in *.
  set (header := SELECT_APP_HEADER cfg) in *.
  pose proof (len_nonneg header) as Hh.
  pose proof (len_nonneg (aid a)) as Ha.
  assert (H1 : forall x : Z, len [x] = 1) by reflexivity.
  unfold memcpy at 1. rewrite slice_all. cbn [bind].
  change (zeros 256) with ([] ++ zeros 256).
  change 0 with (len (@nil Z)) at 1.
  rewrite blit_zeros by (cbn; lia). cbn [bind].
  rewrite app_nil_l.
  rewrite !wrap8_small by lia.
  unfold wr. rewrite blit_zeros by (rewrite ?H1; lia).
  cbn [bind]. rewrite H1.
  unfold memcpy. rewrite slice_all. cbn [bind].
  replace (len header + 1) with (len (header ++ [len (aid a)]))
    by (rewrite len_app, H1; reflexivity).
  rewrite blit_zeros by (rewrite ?len_app, ?H1; lia).
  cbn [bind].
  rewrite len_app, H1.
  rewrite (wrap8_small (len header + 1 + len (aid a))) by lia.
  rewrite wrap8_small by lia.
  set (k := 256 - len header - 1 - len (aid a)).
  assert (Hk : 1 <= k) by (unfold k; lia).
  replace (zeros k) with ([0] ++ zeros (k - 1)).
  2:{ unfold zeros. replace (Z.to_nat k) with (S (Z.to_nat (k - 1))) by lia.
      reflexivity. }
  rewrite app_assoc.
  replace (len header + 1 + len (aid a) + 1)
    with (len (((header ++ [len (aid a)]) ++ aid a) ++ [0]))
    by (rewrite !len_app, !H1; reflexivity).
  rewrite slice_written by lia.
  now rewrite <- !app_assoc.
Qed.

(** C8: the selector takes the first entry of the list, in list order,
    whose priority is the wanted one, and the command it executes is the
    fixed header, a length byte equal to the size of the identifier, the
    bytes of the identifier and a zero byte. *)
Theorem selectByPriority_first_match
        (h : Helper) (before after : AppList) (a : Application) (prio : Z) :
  Forall (fun b => exists p, priority b = Some p /\ p <> prio) before ->
  priority a = Some prio ->
  len (aid a) = AID_SIZE cfg ->
  len (SELECT_APP_HEADER cfg) + AID_SIZE cfg + 2 <= 255 ->
  pick (before ++ a :: after) prio Application_uninit = Ok a
  /\ select_command cfg a
     = Ok (SELECT_APP_HEADER cfg ++ [AID_SIZE cfg] ++ aid a ++ [0])
  /\ selectByPriority cfg card h (before ++ a :: after) prio
     = executeCommand cfg card h
         (SELECT_APP_HEADER cfg ++ [AID_SIZE cfg] ++ aid a ++ [0]).
Proof.
  intros Hbefore Hprio Haid Hsize.
  pose proof (pick_first_match before after a Application_uninit prio
                Hbefore Hprio) as Hpick.
  pose proof (select_command_bytes a Haid Hsize) as Hcmd.
  repeat split; try assumption.
  unfold selectByPriority. rewrite Hpick. cbn [bind].
  rewrite Hcmd. reflexivity.
Qed.

End SelectorFacts.

(** ** Log fetch *)

Lemma indices_from_S (i : Z) (n : nat) :
  indices_from i (S n) = (i + 1) :: indices_from (i + 1) n.
Proof.
  unfold indices_from. cbn [seq map]. f_equal.
  rewrite <- seq_shift, map_map. apply map_ext. intros j. lia.
Qed.

Lemma indices_from_snoc (i : Z) (n : nat) :
  indices_from i (S n) = indices_from i n ++ [i + Z.of_nat (S n)].
Proof.
  unfold indices_from. rewrite seq_S, map_app. reflexivity.
Qed.

Lemma len_set_P1_P2 (template : list Z) (p1 p2 : Z) :
  6 <= len template -> len (set_P1_P2 template p1 p2) = len template.
Proof.
  intros H. unfold set_P1_P2, len in *.
  rewrite !length_app, length_firstn, length_skipn.
  cbn [List.length]. lia.
Qed.

Lemma wr_P2 (template : list Z) (p2 : Z) :
  6 <= len template ->
  wr (len template) template 5 p2
  = Ok (set_P1_P2 template (nth 4 template 0) p2).
Proof.
  intros H. unfold wr, blit.
  change (len [p2]) with 1.
  destruct (Z.leb_spec 0 5); [| lia].
  destruct (Z.leb_spec 5 (len template)); [| lia].
  destruct (Z.leb_spec (5 + 1) (len template)); [| lia].
  cbn [andb]. f_equal. unfold set_P1_P2.
  change (Z.to_nat 5) with 5%nat.
  rewrite (firstn_snoc template 4) by (unfold len in H; lia).
  rewrite <- app_assoc. reflexivity.
Qed.

Lemma wr_P1 (template : list Z) (p1 p1' p2 : Z) :
  6 <= len template ->
  wr (len (set_P1_P2 template p1 p2)) (set_P1_P2 template p1 p2) 4 p1'
  = Ok (set_P1_P2 template p1' p2).
Proof.
  intros H. unfold wr, blit. rewrite len_set_P1_P2 by assumption.
  change (len [p1']) with 1.
  destruct (Z.leb_spec 0 4); [| lia].
  destruct (Z.leb_spec 4 (len template)); [| lia].
  destruct (Z.leb_spec (4 + 1) (len template)); [| lia].
  cbn [andb]. f_equal. unfold set_P1_P2.
  assert (H4 : List.length (firstn 4 template) = 4%nat)
    by (rewrite length_firstn; unfold len in H; lia).
  change (Z.to_nat 4) with 4%nat.
  rewrite firstn_app, H4. simpl (4 - 4)%nat. rewrite firstn_O, app_nil_r.
  rewrite firstn_firstn. simpl Nat.min. f_equal.
  rewrite skipn_app, H4. rewrite skipn_all2 by (rewrite H4; simpl; lia).
  reflexivity.
Qed.

Lemma wr_entry_ok (es : list APDU) (i : Z) (v : APDU) :
  0 <= i < len es ->
  exists es', wr_entry es i v = Ok es' /\ len es' = len es
    /\ forall d j, 0 <= j ->
         nth (Z.to_nat j) es' d
         = if j =? i then v else nth (Z.to_nat j) es d.
Proof.
  intros Hi. unfold wr_entry.
  destruct (Z.leb_spec 0 i); [| lia]. destruct (Z.ltb_spec i (len es)); [| lia].
  cbn [andb]. eexists. split; [reflexivity |].
  assert (Hf : List.length (firstn (Z.to_nat i) es) = Z.to_nat i)
    by (rewrite length_firstn; unfold len in *; lia).
  split.
  - unfold len in *. rewrite length_app, Hf. simpl. rewrite length_skipn. lia.
  - intros d j Hj. destruct (Z.eqb_spec j i) as [-> | Hne].
    + rewrite app_nth2 by lia. rewrite Hf, Nat.sub_diag. reflexivity.
    + destruct (Z.ltb_spec j i) as [Hlt | Hgt].
      * rewrite app_nth1 by lia. rewrite nth_firstn.
        destruct (Nat.ltb_spec (Z.to_nat j) (Z.to_nat i)); [reflexivity | lia].
      * rewrite app_nth2 by lia. rewrite Hf.
        replace (Z.to_nat j - Z.to_nat i)%nat
          with (S (Z.to_nat j - Z.to_nat i - 1)) by lia.
        cbn [nth]. rewrite nth_skipn. f_equal. lia.
Qed.

Section LogFacts.

Variable cfg : Config.
Variable card : list (list Z) -> Z * list Z.

Lemma transceive_szRx (h : Helper) (command : list Z) :
  szRx (transceive card h command) = fst (card (sent h ++ [command])).
Proof. unfold transceive. now destruct (card _). Qed.

(** With a transport that respects the capacity of the receive buffer,
    [executeCommand] always returns. *)
Lemma executeCommand_total (h : Helper) (command : list Z) :
  card_fits cfg card -> len (abtRx h) = MAX_FRAME_LEN cfg ->
  exists r,
    executeCommand cfg card h command = Ok (r, transceive card h command).
Proof.
  intros Hcard Hbuf.
  assert (Hfit : szRx (transceive card h command) <= len (abtRx h))
    by (rewrite transceive_szRx, Hbuf; apply Hcard).
  destruct (Z.ltb_spec (szRx (transceive card h command)) 0) as [Hneg | Hpos].
  - eexists. apply executeCommand_failure; auto.
  - destruct (checkTrailer_spec (transceive card h command))
      as [(_ & _ & Hgood) | (_ & Hbad)].
    + now rewrite transceive_len.
    + eexists. apply executeCommand_success; auto. lia.
    + eexists. apply executeCommand_failure; auto.
Qed.

(** The loop of [extractLogEntries] reads the records [i + 1], ...,
    [_logCount] as the specification says. *)
Lemma log_loop_refines (fuel : nat) :
  forall (i x : Z) (h : Helper) (cc : CCInfo),
    6 <= len (READ_RECORD cfg) ->
    (Z.to_nat (_logCount cc - i) <= fuel)%nat ->
    log_loop cfg card fuel i
             (set_P1_P2 (READ_RECORD cfg) x (P2_of_SFI (_logSFI cc))) h cc
    = fetch_logs cfg card
                 (indices_from i (Z.to_nat (_logCount cc - i))) h cc.
Proof.
  induction fuel as [| fuel IH]; intros i x h cc Hrr Hfuel.
  - cbn [log_loop].
    destruct (Z.ltb_spec i (_logCount cc)) as [Hlt | Hge]; [lia |].
    replace (Z.to_nat (_logCount cc - i)) with 0%nat by lia. reflexivity.
  - cbn [log_loop].
    destruct (Z.ltb_spec i (_logCount cc)) as [Hlt | Hge].
    + replace (Z.to_nat (_logCount cc - i))
        with (S (Z.to_nat (_logCount cc - (i + 1)))) by lia.
      rewrite indices_from_S. cbn [fetch_logs].
      rewrite wr_P1 by assumption. cbn [bind].
      unfold log_read_command.
      destruct (executeCommand cfg card h _) as [[r h1] | e];
        cbn [bind]; [| reflexivity].
      replace (i + 1 - 1) with i by lia.
      destruct (wr_entry (_logEntries cc) i r) as [es |];
        cbn [bind]; [| reflexivity].
      destruct (size r =? 0); [reflexivity |].
      apply (IH (i + 1) (wrap8 (i + 1)) h1 (set_logEntries cc es) Hrr).
      cbn [set_logEntries _logCount]. lia.
    + replace (Z.to_nat (_logCount cc - i)) with 0%nat by lia. reflexivity.
Qed.

Lemma extractLogEntries_refines (h : Helper) (cc : CCInfo) :
  6 <= len (READ_RECORD cfg) ->
  extractLogEntries cfg card h cc = log_fetch_spec cfg card h cc.
Proof.
  intros Hrr. unfold extractLogEntries, log_fetch_spec.
  destruct (executeCommand cfg card h _) as [[r h1] | e];
    cbn [bind]; [| reflexivity].
  destruct (size r =? 0); [reflexivity |].
  rewrite wr_P2 by assumption. cbn [bind].
  change (Z.shiftl 1 2) with 4.
  change (wrap8 (Z.lor (Z.shiftl (_logSFI (set_logFormat cc r)) 3) 4))
    with (P2_of_SFI (_logSFI (set_logFormat cc r))).
  rewrite log_loop_refines by (try assumption; lia).
  now rewrite Z.sub_0_r.
Qed.

(** What the reads of the records [i + 1], ..., [i + n] do: [m] of them
    are issued, in order; all but possibly the last return a non-empty
    payload, which is stored; the result is 1 exactly when the last read
    issued returned an empty payload. *)
Lemma fetch_logs_run (n : nat) :
  forall (i : Z) (h : Helper) (cc : CCInfo),
    card_fits cfg card -> len (abtRx h) = MAX_FRAME_LEN cfg ->
    0 <= i -> i + Z.of_nat n <= len (_logEntries cc) ->
    exists code h' cc' (m : nat),
      fetch_logs cfg card (indices_from i n) h cc = Ok (code, h', cc')
      /\ (m <= n)%nat
      /\ sent h' = sent h ++ map (log_read_command cfg cc) (indices_from i m)
      /\ ((code = 0 /\ m = n
           /\ forall j, i <= j < i + Z.of_nat m -> size (entry cc' j) <> 0)
          \/ (code = 1 /\ (1 <= m)%nat
              /\ (forall j, i <= j < i + Z.of_nat m - 1 ->
                            size (entry cc' j) <> 0)
              /\ size (entry cc' (i + Z.of_nat m - 1)) = 0))
      /\ (forall j, 0 <= j < i -> entry cc' j = entry cc j)
      /\ len (_logEntries cc') = len (_logEntries cc)
      /\ _logFormat cc' = _logFormat cc
      /\ len (abtRx h') = MAX_FRAME_LEN cfg.
Proof.
  induction n as [| n IH]; intros i h cc Hcard Hbuf Hi Hcap.
  - exists 0, h, cc, 0%nat. cbn. rewrite app_nil_r.
    repeat split; auto. left. repeat split. intros j Hj. lia.
  - rewrite indices_from_S. cbn [fetch_logs].
    destruct (executeCommand_total h (log_read_command cfg cc (i + 1))
                Hcard Hbuf) as [r Hr].
    rewrite Hr. cbn [bind]. replace (i + 1 - 1) with i by lia.
    destruct (wr_entry_ok (_logEntries cc) i r) as (es & Hes & Hlen & Hnth);
      [lia |].
    rewrite Hes. cbn [bind].
    set (h1 := transceive card h (log_read_command cfg cc (i + 1))) in *.
    set (cc1 := set_logEntries cc es).
    assert (Hbuf1 : len (abtRx h1) = MAX_FRAME_LEN cfg)
      by (unfold h1; now rewrite transceive_len).
    assert (Hi_r : entry cc1 i = r).
    { unfold entry, cc1. cbn [set_logEntries _logEntries].
      rewrite Hnth by lia. now rewrite Z.eqb_refl. }
    assert (Hframe1 : forall j, 0 <= j < i -> entry cc1 j = entry cc j).
    { intros j Hj. unfold entry, cc1. cbn [set_logEntries _logEntries].
      rewrite Hnth by lia.
      destruct (Z.eqb_spec j i); [lia | reflexivity]. }
    destruct (Z.eqb_spec (size r) 0) as [Hempty | Hfull].
    + exists 1, h1, cc1, 1%nat. repeat split; auto.
      * lia.
      * unfold h1. now rewrite transceive_sent.
      * right. repeat split; auto.
        -- intros j Hj. lia.
        -- replace (i + Z.of_nat 1 - 1) with i by lia. now rewrite Hi_r.
    + destruct (IH (i + 1) h1 cc1 Hcard Hbuf1) as
        (code & h' & cc' & m & Hrun & Hm & Hsent & Hcode & Hframe & Hlen'
         & Hfmt & Hbuf').
      { lia. }
      { unfold cc1. cbn [set_logEntries _logEntries]. lia. }
      assert (Hi' : entry cc' i = r)
        by (rewrite Hframe by lia; exact Hi_r).
      exists code, h', cc', (S m). repeat split; auto.
      * lia.
      * rewrite Hsent. unfold h1. rewrite transceive_sent.
        rewrite indices_from_S. cbn [map]. rewrite <- app_assoc.
        reflexivity.
      * destruct Hcode as [(-> & -> & Hall) | (-> & Hm1 & Hall & Hlast)].
        -- left. repeat split. intros j Hj.
           destruct (Z.eq_dec j i) as [-> | Hne].
           ++ now rewrite Hi'.
           ++ apply Hall. lia.
        -- right. repeat split; [lia | |].
           ++ intros j Hj. destruct (Z.eq_dec j i) as [-> | Hne].
              ** now rewrite Hi'.
              ** apply Hall. lia.
           ++ replace (i + Z.of_nat (S m) - 1)
                with (i + 1 + Z.of_nat m - 1) by lia.
              exact Hlast.
      * intros j Hj. rewrite Hframe by lia. now apply Hframe1.
      * rewrite Hlen'. unfold cc1. cbn [set_logEntries _logEntries].
        exact Hlen.
Qed.

End LogFacts.

Section LogProtocol.

Variable cfg : Config.
Variable card : list (list Z) -> Z * list Z.

Lemma log_read_command_P1_P2 (cc : CCInfo) (k : Z) :
  6 <= len (READ_RECORD cfg) -> 0 <= k < 256 ->
  rd (log_read_command cfg cc k) 4 = Ok k
  /\ rd (log_read_command cfg cc k) 5 = Ok (P2_of_SFI (_logSFI cc)).
Proof.
  intros Hrr Hk. unfold log_read_command, set_P1_P2.
  rewrite (wrap8_small k) by assumption.
  assert (H4 : List.length (firstn 4 (READ_RECORD cfg)) = 4%nat)
    by (rewrite length_firstn; unfold len in Hrr; lia).
  split; rewrite rd_ok.
  - change (Z.to_nat 4) with 4%nat. rewrite app_nth2 by lia.
    now rewrite H4.
  - rewrite len_app. unfold len. rewrite H4. cbn [List.length app]. lia.
  - change (Z.to_nat 5) with 5%nat. rewrite app_nth2 by lia.
    now rewrite H4.
  - rewrite len_app. unfold len. rewrite H4. cbn [List.length app]. lia.
Qed.

(** C9: the log fetch first issues the get-log-format command and returns
    failure (1) if its result is empty, without reading any record;
    otherwise it reads the records 1, 2, ... in order, with P1 the record
    number and P2 = (logSFI << 3) | 0b100 (narrowed to a byte, which
    changes nothing for a five-bit SFI), stores each payload, stops with
    failure at the first empty result, and returns success (0) only when
    all [_logCount] reads returned a non-empty payload.  [_logCount] is a
    [byte_t], so every record number is below 256. *)
Theorem extractLogEntries_protocol (h : Helper) (cc : CCInfo) :
  6 <= len (READ_RECORD cfg) ->
  card_fits cfg card -> len (abtRx h) = MAX_FRAME_LEN cfg ->
  0 <= _logCount cc <= len (_logEntries cc) ->
  extractLogEntries cfg card h cc = log_fetch_spec cfg card h cc
  /\ (forall k, 0 <= k < 256 ->
                rd (log_read_command cfg cc k) 4 = Ok k
                /\ rd (log_read_command cfg cc k) 5
                   = Ok (Z.lor (Z.shiftl (_logSFI cc) 3) 4 mod 256))
  /\ (0 <= _logSFI cc < 32 ->
      Z.lor (Z.shiftl (_logSFI cc) 3) 4 mod 256
      = Z.lor (Z.shiftl (_logSFI cc) 3) 4)
  /\ exists code h' cc' fmt (m : nat),
      extractLogEntries cfg card h cc = Ok (code, h', cc')
      /\ executeCommand cfg card h (GET_DATA_LOG_FORMAT cfg)
         = Ok (fmt, transceive card h (GET_DATA_LOG_FORMAT cfg))
      /\ _logFormat cc' = fmt
      /\ sent h' = sent h ++ GET_DATA_LOG_FORMAT cfg
                     :: map (log_read_command cfg cc) (indices_from 0 m)
      /\ Z.of_nat m <= _logCount cc
      /\ (size fmt = 0 -> code = 1 /\ m = 0%nat)
      /\ (size fmt <> 0 ->
          (code = 0 /\ Z.of_nat m = _logCount cc
           /\ forall j, 0 <= j < Z.of_nat m -> size (entry cc' j) <> 0)
          \/ (code = 1 /\ (1 <= m)%nat
              /\ (forall j, 0 <= j < Z.of_nat m - 1 ->
                            size (entry cc' j) <> 0)
              /\ size (entry cc' (Z.of_nat m - 1)) = 0)).
Proof.
  intros Hrr Hcard Hbuf Hcount.
  split; [now apply extractLogEntries_refines |].
  split; [intros k Hk; now apply log_read_command_P1_P2 |].
  split; [apply P2_of_SFI_5bit |].
  rewrite extractLogEntries_refines by assumption.
  unfold log_fetch_spec.
  destruct (executeCommand_total cfg card h (GET_DATA_LOG_FORMAT cfg)
              Hcard Hbuf) as [fmt Hfmt].
  rewrite Hfmt. cbn [bind].
  set (h1 := transceive card h (GET_DATA_LOG_FORMAT cfg)) in *.
  destruct (Z.eqb_spec (size fmt) 0) as [Hempty | Hfull].
  - exists 1, h1, (set_logFormat cc fmt), fmt, 0%nat.
    split; [reflexivity |]. split; [reflexivity |].
    split; [reflexivity |].
    split; [unfold h1; now rewrite transceive_sent |].
    split; [cbn; lia |]. split; [auto |].
    intros Hne. contradiction.
  - assert (Hbuf1 : len (abtRx h1) = MAX_FRAME_LEN cfg)
      by (unfold h1; now rewrite transceive_len).
    assert (Hcap : 0 + Z.of_nat (Z.to_nat (_logCount cc))
                   <= len (_logEntries (set_logFormat cc fmt)))
      by (cbn [set_logFormat _logEntries]; lia).
    destruct (fetch_logs_run cfg card (Z.to_nat (_logCount cc)) 0 h1
                (set_logFormat cc fmt) Hcard Hbuf1 (Z.le_refl 0) Hcap) as
      (code & h' & cc' & m & Hrun & Hm & Hsent & Hcode & _ & _ & Hf & _).
    exists code, h', cc', fmt, m.
    cbn [set_logFormat _logCount] in *.
    split; [exact Hrun |]. split; [reflexivity |]. split; [exact Hf |].
    split.
    { rewrite Hsent. unfold h1. rewrite transceive_sent.
      rewrite <- app_assoc. reflexivity. }
    split; [lia |]. split; [intros Hz; contradiction |].
    intros _.
    destruct Hcode as [(-> & -> & Hall) | (-> & Hm1 & Hall & Hl)].
    + left. repeat split; [lia |]. exact Hall.
    + right. repeat split; auto.
Qed.

End LogProtocol.

(** ** Record extractor *)

(** A loop keeps what each pass through its body keeps. *)
Lemma for_loop_invariant {S : Type} (P : S -> Prop) (bound : Z)
      (body : Z -> S -> res (Z * S)) :
  (forall i s i' s', body i s = Ok (i', s') -> P s -> P s') ->
  forall fuel i s s', for_loop fuel bound body i s = Ok s' -> P s -> P s'.
Proof.
  intros Hbody. induction fuel as [| fuel IH]; intros i s s'; cbn [for_loop].
  - destruct (i <? bound); [discriminate |]. now intros [= <-].
  - destruct (i <? bound); [| now intros [= <-]].
    destruct (body i s) as [[i1 s1] | e] eqn:Hb; [| discriminate].
    intros Hloop Hs. eapply IH; [exact Hloop |]. eapply Hbody; eauto.
Qed.

(** Splits an equation [x <- c ;; k = Ok v] in two. *)
Lemma bind_Ok {A B : Type} (c : res A) (k : A -> res B) (v : B) :
  bind c k = Ok v -> exists a, c = Ok a /\ k a = Ok v.
Proof. destruct c as [a | e]; [eauto | discriminate]. Qed.

Ltac bind_inv H :=
  let a := fresh "x" in
  let Ha := fresh "Hx" in
  apply bind_Ok in H; destruct H as (a & Ha & H).

(** Runs through the branches of a body that returned [Ok]. *)
Ltac run_body :=
  repeat match goal with
         | H : bind _ _ = Ok _ |- _ => bind_inv H
         | H : (if ?c then _ else _) = Ok _ |- _ => destruct c eqn:?
         | H : Ok _ = Ok _ |- _ => injection H as ?; subst
         | H : Err _ = Ok _ |- _ => discriminate H
         end.

Section ExtractorFacts.

Variable cfg : Config.
Variable card : list (list Z) -> Z * list Z.

(** One pass through the scan leaves track 2 alone once it is stored. *)
Lemma record_body_track2 (buff : list Z) (size_ i i' : Z) (cc cc' : CCInfo) :
  record_body cfg buff size_ i cc = Ok (i', cc') ->
  size (_track2EquivalentData cc) <> 0 ->
  _track2EquivalentData cc' = _track2EquivalentData cc.
Proof.
  unfold record_body. intros Hbody Hsize.
  apply Z.eqb_neq in Hsize. bind_inv Hbody.
  rewrite Hsize, andb_false_r in Hbody.
  run_body; reflexivity.
Qed.

(** One pass through the scan leaves track 1 alone once it is stored. *)
Lemma record_body_track1 (buff : list Z) (size_ i i' : Z) (cc cc' : CCInfo) :
  record_body cfg buff size_ i cc = Ok (i', cc') ->
  size (_track1DiscretionaryData cc) <> 0 ->
  _track1DiscretionaryData cc' = _track1DiscretionaryData cc.
Proof.
  unfold record_body. intros Hbody Hsize.
  apply Z.eqb_neq in Hsize. bind_inv Hbody. cbv zeta in Hbody.
  rewrite Hsize, !andb_false_r in Hbody.
  cbn [andb] in Hbody. run_body; reflexivity.
Qed.

Lemma kept_refl (cc : CCInfo) : kept cc cc.
Proof. split; reflexivity. Qed.

Lemma kept_trans (a b c : CCInfo) : kept a b -> kept b c -> kept a c.
Proof.
  intros [H2 H1] [H2' H1']. split; intros Hs.
  - rewrite <- (H2 Hs). apply H2'. now rewrite (H2 Hs).
  - rewrite <- (H1 Hs). apply H1'. now rewrite (H1 Hs).
Qed.

Lemma record_body_keeps (buff : list Z) (size_ i i' : Z) (cc cc' : CCInfo) :
  record_body cfg buff size_ i cc = Ok (i', cc') -> kept cc cc'.
Proof.
  intros Hbody. split; intros Hs.
  - eapply record_body_track2; eauto.
  - eapply record_body_track1; eauto.
Qed.

Lemma scan_record_keeps (r : APDU) (cc cc' : CCInfo) :
  scan_record cfg r cc = Ok cc' -> kept cc cc'.
Proof.
  unfold scan_record. intros Hscan.
  apply (for_loop_invariant (kept cc) _ _) in Hscan;
    [exact Hscan | | apply kept_refl].
  intros i s i' s' Hbody Hs. eapply kept_trans; [exact Hs |].
  eapply record_body_keeps; eauto.
Qed.

Lemma scan_records_keeps (rs : list APDU) :
  forall cc cc', scan_records cfg rs cc = Ok cc' -> kept cc cc'.
Proof.
  induction rs as [| r rs IH]; intros cc cc' Hrun; cbn [scan_records] in Hrun.
  - injection Hrun as <-. apply kept_refl.
  - bind_inv Hrun. eapply kept_trans; [| apply IH; exact Hrun].
    destruct (size r =? 0).
    + injection Hx as <-. apply kept_refl.
    + now apply (scan_record_keeps r).
Qed.

Lemma scan_records_app (rs1 rs2 : list APDU) (cc : CCInfo) :
  scan_records cfg (rs1 ++ rs2) cc
  = (c <- scan_records cfg rs1 cc ;; scan_records cfg rs2 c).
Proof.
  revert cc. induction rs1 as [| r rs1 IH]; intros cc; [reflexivity |].
  cbn [app scan_records].
  destruct (if size r =? 0 then Ok cc else scan_record cfg r cc);
    cbn [bind]; [apply IH | reflexivity].
Qed.

Lemma base_record_body_scanned (cc0 : CCInfo) (record record' : Z)
      (st st' : list Z * Helper * CCInfo) :
  base_record_body cfg card record st = Ok (record', st') ->
  scanned cfg cc0 st -> scanned cfg cc0 st'.
Proof.
  destruct st as [[rr h] cc]. unfold base_record_body, scanned.
  intros Hbody [rs Hrs]. cbn [snd] in *.
  bind_inv Hbody. bind_inv Hbody. bind_inv Hbody.
  destruct x1 as [r h1].
  exists (rs ++ [r]). rewrite scan_records_app, Hrs. cbn [bind scan_records].
  destruct (size r =? 0).
  - injection Hbody as _ <-. reflexivity.
  - bind_inv Hbody. injection Hbody as _ <-. cbn [snd]. now rewrite Hx2.
Qed.

Lemma base_sfi_body_scanned (cc0 : CCInfo) (sfi sfi' : Z)
      (st st' : list Z * Helper * CCInfo) :
  base_sfi_body cfg card sfi st = Ok (sfi', st') ->
  scanned cfg cc0 st -> scanned cfg cc0 st'.
Proof.
  destruct st as [[rr h] cc]. unfold base_sfi_body.
  intros Hbody Hst. bind_inv Hbody. bind_inv Hbody.
  injection Hbody as _ <-.
  eapply for_loop_invariant; [| exact Hx0 |].
  - intros i s i' s'. apply base_record_body_scanned.
  - destruct Hst as [rs Hrs]. now exists rs.
Qed.

(** [extractBaseRecords] scans a sequence of responses. *)
Lemma extractBaseRecords_scans (h h' : Helper) (cc cc' : CCInfo) (code : Z) :
  extractBaseRecords cfg card h cc = Ok (code, h', cc') ->
  exists rs, scan_records cfg rs cc = Ok cc'.
Proof.
  unfold extractBaseRecords. intros Hrun.
  bind_inv Hrun. bind_inv Hrun. destruct x0 as [[rr h1] cc1].
  injection Hrun as _ _ <-.
  change cc1 with (snd (rr, h1, cc1)).
  eapply (for_loop_invariant (scanned cfg cc)); [| exact Hx0 |].
  - intros i s i' s'. apply base_sfi_body_scanned.
  - now exists [].
Qed.

(** C4 (as amended): once the track-2-equivalent-data field (tag 0x57) or
    the track-1-discretionary-data field (tag 0x9F 0x1F) is stored with a
    non-zero size, no later occurrence of the tag overwrites it: not in
    the rest of the scan of a response, not in the responses that follow,
    not in a whole run of the extractor.  In particular, when the same
    response is scanned a second time, each of the two fields that was
    stored before the first scan, or that the first scan stored, is after
    the second scan what it was.  A field that the first scan left empty
    is not covered: the second scan can store it. *)
Theorem first_occurrence_wins (cc1 : CCInfo) :
  (forall buff size_ i i' cc2,
      record_body cfg buff size_ i cc1 = Ok (i', cc2) -> kept cc1 cc2)
  /\ (forall rs cc2, scan_records cfg rs cc1 = Ok cc2 -> kept cc1 cc2)
  /\ (forall h code h' cc2,
        extractBaseRecords cfg card h cc1 = Ok (code, h', cc2) ->
        kept cc1 cc2)
  /\ (forall r cc0 cc2,
        scan_record cfg r cc0 = Ok cc1 -> scan_record cfg r cc1 = Ok cc2 ->
        kept cc1 cc2 /\ kept cc0 cc2).
Proof.
  split; [| split; [| split]].
  - intros buff size_ i i' cc2 H. eapply record_body_keeps; eauto.
  - intros rs cc2 H. eapply scan_records_keeps; eauto.
  - intros h code h' cc2 H.
    destruct (extractBaseRecords_scans _ _ _ _ _ H) as [rs Hrs].
    eapply scan_records_keeps; eauto.
  - intros r cc0 cc2 Hfirst Hsecond.
    pose proof (scan_record_keeps _ _ _ Hfirst) as H01.
    pose proof (scan_record_keeps _ _ _ Hsecond) as H12.
    split; [exact H12 |]. eapply kept_trans; eauto.
Qed.

End ExtractorFacts.

(** ** Fuel of the scan *)

Lemma only_ub_Ok {A : Type} (a : A) : only_ub (Ok a).
Proof. intros e H. discriminate H. Qed.

Lemma only_ub_bind {A B : Type} (c : res A) (k : A -> res B) :
  only_ub c -> (forall a, only_ub (k a)) -> only_ub (bind c k).
Proof.
  intros Hc Hk e. destruct c as [a | e']; cbn [bind].
  - apply Hk.
  - intros [= <-]. now apply Hc.
Qed.

Lemma only_ub_rd (buf : list Z) (i : Z) : only_ub (rd buf i).
Proof.
  intros e. unfold rd. destruct (i <? 0); [now intros [= <-] |].
  destruct (nth_error buf (Z.to_nat i)); [discriminate | now intros [= <-]].
Qed.

Lemma only_ub_memcpy (cap : Z) (dst : list Z) (off : Z) (src : list Z)
      (i n : Z) : only_ub (memcpy cap dst off src i n).
Proof.
  unfold memcpy. apply only_ub_bind.
  - intros e. unfold slice. destruct (_ && _); [discriminate | now intros [= <-]].
  - intros bytes e. unfold blit.
    destruct (_ && _); [discriminate | now intros [= <-]].
Qed.

Lemma only_ub_if {A : Type} (b : bool) (c1 c2 : res A) :
  only_ub c1 -> only_ub c2 -> only_ub (if b then c1 else c2).
Proof. now destruct b. Qed.

Lemma rd_nonneg (buf : list Z) (i b : Z) :
  Forall (fun x => 0 <= x) buf -> rd buf i = Ok b -> 0 <= b.
Proof.
  intros Hbuf Hrd. apply rd_inv in Hrd. destruct Hrd as [Hi <-].
  rewrite Forall_forall in Hbuf. apply Hbuf. apply nth_In.
  unfold len in Hi. lia.
Qed.

(** A loop whose body never moves the counter back ends within
    [bound - i] passes. *)
Lemma for_loop_fuel {S : Type} (bound : Z) (body : Z -> S -> res (Z * S)) :
  (forall i s, only_ub (body i s)) ->
  (forall i s i' s', body i s = Ok (i', s') -> i <= i') ->
  forall fuel i s,
    (Z.to_nat (bound - i) <= fuel)%nat ->
    only_ub (for_loop fuel bound body i s).
Proof.
  intros Hub Hadv. induction fuel as [| fuel IH]; intros i s Hfuel;
    cbn [for_loop]; destruct (Z.ltb_spec i bound) as [Hlt | Hge];
    try apply only_ub_Ok; try lia.
  destruct (body i s) as [[i' s'] | e] eqn:Hb.
  - apply IH. apply Hadv in Hb. lia.
  - intros e' [= <-]. now apply (Hub i s).
Qed.

Section ScanFuel.

Variable cfg : Config.

Lemma record_body_only_ub (buff : list Z) (size_ i : Z) (cc : CCInfo) :
  only_ub (record_body cfg buff size_ i cc).
Proof.
  unfold record_body.
  repeat first
    [ apply only_ub_Ok
    | apply only_ub_rd
    | apply only_ub_memcpy
    | apply only_ub_if
    | apply only_ub_bind; [| intros ?] ].
Qed.

Lemma record_body_advances (buff : list Z) (size_ i i' : Z) (cc cc' : CCInfo) :
  Forall (fun x => 0 <= x) buff ->
  record_body cfg buff size_ i cc = Ok (i', cc') -> i <= i'.
Proof.
  intros Hbuf Hbody. unfold record_body in Hbody.
  bind_inv Hbody. cbv zeta in Hbody.
  repeat match goal with
         | H : bind _ _ = Ok _ |- _ => bind_inv H
         | H : (if ?c then _ else _) = Ok _ |- _ => destruct c eqn:?
         | H : Ok (_, _) = Ok (_, _) |- _ => injection H as ? ?; subst
         | H : rd buff _ = Ok _ |- _ => apply (rd_nonneg _ _ _ Hbuf) in H
         end; lia.
Qed.

(** The scan of a record never runs out of fuel: it returns, or it stops
    on an access outside an array. *)
Lemma scan_record_only_ub (r : APDU) (cc : CCInfo) :
  Forall (fun x => 0 <= x) (data r) -> only_ub (scan_record cfg r cc).
Proof.
  intros Hbuf. unfold scan_record. apply for_loop_fuel.
  - intros i s. apply record_body_only_ub.
  - intros i s i' s'. now apply record_body_advances.
  - lia.
Qed.

End ScanFuel.

(** ** Processing options *)

Lemma total_length_app (l1 l2 : list (Z * Z)) :
  total_length (l1 ++ l2) = total_length l1 + total_length l2.
Proof.
  induction l1 as [| p l1 IH]; cbn [app total_length fold_right];
    [reflexivity |].
  fold (total_length (l1 ++ l2)). fold (total_length l1). lia.
Qed.

Lemma blit_end (cap : Z) (dst src : list Z) :
  len dst + len src <= cap ->
  blit cap dst (len dst) src = Ok (dst ++ src).
Proof.
  intros Hcap. unfold blit. pose proof (len_nonneg dst).
  destruct (Z.leb_spec 0 (len dst)); [| lia].
  destruct (Z.leb_spec (len dst) (len dst)); [| lia].
  destruct (Z.leb_spec (len dst + len src) cap); [| lia].
  cbn [andb]. unfold len. rewrite Nat2Z.id, firstn_all.
  rewrite skipn_all2 by lia. now rewrite app_nil_r.
Qed.

Lemma slice_prefix (v : list Z) (l : Z) :
  0 <= l <= len v -> slice v 0 l = Ok (firstn (Z.to_nat l) v).
Proof.
  intros Hl. unfold slice.
  destruct (Z.leb_spec 0 0); [| lia]. destruct (Z.leb_spec 0 l); [| lia].
  destruct (Z.leb_spec (0 + l) (len v)); [| lia]. reflexivity.
Qed.

Section OptionsFacts.

Variable cfg : Config.
Variable card : list (list Z) -> Z * list Z.

(** A first tag byte 0x5F, 0x9F or 0xBF takes the next byte with it:
    the tag is the big-endian pair, and the length is the byte after. *)
Lemma pdol_body_two_byte (buff : list Z) (i total : Z)
      (tagList : list (Z * Z)) (b b1 l : Z) :
  rd buff i = Ok b -> b = 0x5F \/ b = 0x9F \/ b = 0xBF ->
  rd buff (i + 1) = Ok b1 -> 0 <= b1 < 256 ->
  rd buff (i + 2) = Ok l ->
  pdol_body buff i (total, tagList)
  = Ok (i + 2, (total + l, tagList ++ [(256 * b + b1, l)])).
Proof.
  intros Hb Htwo Hb1 Hrange Hl. unfold pdol_body.
  rewrite Hb. cbn [bind].
  assert (Htest : (b =? 0x5F) || (b =? 0x9F) || (b =? 0xBF) = true)
    by (destruct Htwo as [-> | [-> | ->]]; reflexivity).
  rewrite Htest, Hb1. cbn [bind].
  replace (i + 1 + 1) with (i + 2) by lia. rewrite Hl. cbn [bind].
  rewrite lor_shiftl8 by assumption.
  rewrite Z.mod_small by (destruct Htwo as [-> | [-> | ->]]; lia).
  reflexivity.
Qed.

(** Any other first byte is a tag on its own. *)
Lemma pdol_body_one_byte (buff : list Z) (i total : Z)
      (tagList : list (Z * Z)) (b l : Z) :
  rd buff i = Ok b -> b <> 0x5F -> b <> 0x9F -> b <> 0xBF ->
  rd buff (i + 1) = Ok l ->
  pdol_body buff i (total, tagList)
  = Ok (i + 1, (total + l, tagList ++ [(b, l)])).
Proof.
  intros Hb H1 H2 H3 Hl. unfold pdol_body. rewrite Hb. cbn [bind].
  apply Z.eqb_neq in H1, H2, H3. rewrite H1, H2, H3. cbn [orb bind].
  rewrite Hl. reflexivity.
Qed.

(** [pdol_response_len] is the sum of the lengths in [tagList]. *)
Lemma pdol_tags_total (cc : CCInfo) (total : Z) (tagList : list (Z * Z)) :
  pdol_tags cc = Ok (total, tagList) -> total = total_length tagList.
Proof.
  unfold pdol_tags. intros Hloop.
  apply (for_loop_invariant (fun st => fst st = total_length (snd st)))
    in Hloop; [exact Hloop | | reflexivity].
  intros i [t l] i' [t' l'] Hbody Hinv. cbn [fst snd] in *.
  unfold pdol_body in Hbody. bind_inv Hbody. bind_inv Hbody.
  destruct x0 as [i1 first]. bind_inv Hbody.
  injection Hbody as _ <- <-.
  rewrite total_length_app. cbn. lia.
Qed.

(** The values are copied one after the other, in the order of the list. *)
Lemma gpo_values_in_order (tagList : list (Z * Z)) :
  forall gpo,
    size gpo = len (data gpo) -> Forall known tagList ->
    size gpo + total_length tagList <= MAX_FRAME_LEN cfg ->
    gpo_values cfg tagList gpo
    = Ok {| size := size gpo + total_length tagList;
            data := data gpo ++ flat_map substitution tagList |}.
Proof.
  induction tagList as [| [tag l] rest IH]; intros gpo Hsize Hknown Hcap.
  - cbn. rewrite Z.add_0_r, app_nil_r. now destruct gpo.
  - inversion Hknown as [| p ps (v & Hv & Hl) Hrest]; subst.
    cbn [fst snd] in *. cbn [gpo_values total_length fold_right] in *.
    fold (total_length rest) in *. cbn [snd] in *.
    assert (Hpos : 0 <= total_length rest).
    { clear - Hrest. induction Hrest as [| p ps (w & _ & Hw) _ IHr];
        cbn; [lia |]. fold (total_length ps). lia. }
    rewrite Hv. cbn [bind]. unfold memcpy.
    rewrite slice_prefix by assumption. cbn [bind].
    assert (Hlen : len (firstn (Z.to_nat l) v) = l)
      by (unfold len in *; rewrite length_firstn; lia).
    rewrite Hsize, blit_end by lia. cbn [bind].
    rewrite IH; cbn [size data]; auto.
    + cbn [flat_map]. unfold substitution at 2. cbn [fst snd]. rewrite Hv.
      rewrite <- app_assoc. do 2 f_equal. lia.
    + rewrite len_app. lia.
    + lia.
Qed.

Lemma total_length_nonneg (tagList : list (Z * Z)) :
  Forall known tagList -> 0 <= total_length tagList.
Proof.
  induction 1 as [| p ps (w & _ & Hw) _ IH]; cbn; [lia |].
  fold (total_length ps). lia.
Qed.

Lemma len_substitutions (tagList : list (Z * Z)) :
  Forall known tagList ->
  len (flat_map substitution tagList) = total_length tagList.
Proof.
  induction 1 as [| p ps (w & Hw & Hl) _ IH]; [reflexivity |].
  cbn [flat_map total_length fold_right]. fold (total_length ps).
  rewrite len_app, IH. unfold substitution at 1. rewrite Hw.
  unfold len in *. rewrite length_firstn. lia.
Qed.

Lemma push_byte_end (gpo : APDU) (v : Z) :
  size gpo = len (data gpo) -> size gpo + 1 <= MAX_FRAME_LEN cfg ->
  push_byte cfg gpo v
  = Ok {| size := size gpo + 1; data := data gpo ++ [v] |}.
Proof.
  intros Hsize Hcap. unfold push_byte, wr.
  rewrite Hsize, blit_end by (change (len [v]) with 1; lia).
  reflexivity.
Qed.

(** The command that [getProcessingOptions] builds: header, Lc, 0x83,
    total length, the values in the order of the PDOL, Le. *)
Lemma gpo_command_bytes (cc : CCInfo) (total : Z) (tagList : list (Z * Z)) :
  pdol_tags cc = Ok (total, tagList) -> Forall known tagList ->
  len (GPO_HEADER cfg) + total + 4 <= MAX_FRAME_LEN cfg ->
  exists gpo,
    gpo_command cfg cc = Ok (total, gpo)
    /\ size gpo = len (data gpo)
    /\ data gpo = GPO_HEADER cfg ++ [wrap8 (total + 2); 0x83; wrap8 total]
                    ++ flat_map substitution tagList ++ [0].
Proof.
  intros Hpdol Hknown Hcap.
  pose proof (pdol_tags_total cc total tagList Hpdol) as Htotal.
  pose proof (total_length_nonneg tagList Hknown) as Hpos.
  pose proof (len_nonneg (GPO_HEADER cfg)) as Hh.
  assert (H1 : forall x : Z, len [x] = 1) by reflexivity.
  unfold gpo_command. rewrite Hpdol. cbn [bind].
  unfold memcpy. rewrite slice_all. cbn [bind].
  change 0 with (len (@nil Z)) at 1.
  rewrite blit_end by (cbn; lia). cbn [bind app].
  rewrite push_byte_end by (cbn [size data]; lia). cbn [bind size data].
  rewrite push_byte_end
    by (cbn [size data]; rewrite ?len_app, ?H1; lia).
  cbn [bind size data].
  rewrite push_byte_end
    by (cbn [size data]; rewrite ?len_app, ?H1; lia).
  cbn [bind size data].
  rewrite gpo_values_in_order;
    [| cbn [size data]; rewrite ?len_app, ?H1; lia | assumption
     | cbn [size data]; lia ].
  cbn [bind size data].
  pose proof (len_substitutions tagList Hknown) as Hsub.
  rewrite push_byte_end
    by (cbn [size data]; rewrite ?len_app, ?H1, ?Hsub; lia).
  eexists. split; [now rewrite Htotal |]. cbn [size data]. split.
  - rewrite !len_app, !H1, Hsub. lia.
  - rewrite <- !app_assoc, Htotal. reflexivity.
Qed.

Lemma payload_all (a : APDU) : size a = len (data a) -> payload a = data a.
Proof.
  intros Hsize. unfold payload. rewrite Hsize. unfold len.
  rewrite Nat2Z.id. apply firstn_all.
Qed.

(** C3: for the PDOL [0x9F, 0x02, 6] the builder finds one tag, 0x9F02,
    of length 6, so [pdol_response_len] is 6, and the command is the GPO
    header, Lc = 8, the tag 0x83, the length 6, the six bytes of the
    canned value of tag 0x9F02 and a final 0x00.  In general a first tag
    byte 0x5F, 0x9F or 0xBF is read with the next byte as a big-endian
    two-byte tag, and the canned values follow each other in the order of
    the PDOL. *)
Theorem gpo_for_amount_pdol (h : Helper) (cc : CCInfo) (rest : list Z) :
  _pdol cc = {| size := 3; data := [0x9F; 0x02; 6] ++ rest |} ->
  len (GPO_HEADER cfg) + 10 <= MAX_FRAME_LEN cfg ->
  (pdol_tags cc = Ok (6, [(0x9F02, 6)])
   /\ map_at PDOLValues 0x9F02 = Ok [0x00; 0x00; 0x10; 0x00; 0x00; 0x00]
   /\ exists gpo,
       gpo_command cfg cc = Ok (6, gpo)
       /\ payload gpo
          = GPO_HEADER cfg ++ [8; 0x83; 6]
              ++ [0x00; 0x00; 0x10; 0x00; 0x00; 0x00] ++ [0x00]
       /\ getProcessingOptions cfg card h cc
          = (' (r, h') <- executeCommand cfg card h (payload gpo) ;;
             Ok (if size r =? 0 then 1 else 0, h')))
  /\ (forall buff i total tagList b b1 l,
        rd buff i = Ok b -> b = 0x5F \/ b = 0x9F \/ b = 0xBF ->
        rd buff (i + 1) = Ok b1 -> 0 <= b1 < 256 ->
        rd buff (i + 2) = Ok l ->
        pdol_body buff i (total, tagList)
        = Ok (i + 2, (total + l, tagList ++ [(256 * b + b1, l)])))
  /\ (forall cc' total tagList,
        pdol_tags cc' = Ok (total, tagList) -> Forall known tagList ->
        len (GPO_HEADER cfg) + total + 4 <= MAX_FRAME_LEN cfg ->
        exists gpo,
          gpo_command cfg cc' = Ok (total, gpo)
          /\ payload gpo
             = GPO_HEADER cfg ++ [wrap8 (total + 2); 0x83; wrap8 total]
                 ++ flat_map substitution tagList ++ [0]).
Proof.
  intros Hpdol Hcap.
  assert (Htags : pdol_tags cc = Ok (6, [(0x9F02, 6)]))
    by (unfold pdol_tags; rewrite Hpdol; reflexivity).
  split; [| split].
  - split; [exact Htags |]. split; [reflexivity |].
    destruct (gpo_command_bytes cc 6 [(0x9F02, 6)] Htags) as
      (gpo & Hgpo & Hsize & Hdata).
    + constructor; [| constructor].
      exists [0x00; 0x00; 0x10; 0x00; 0x00; 0x00]. split; [reflexivity |].
      cbn. lia.
    + lia.
    + exists gpo. split; [exact Hgpo |].
      rewrite (payload_all gpo Hsize). split; [exact Hdata |].
      unfold getProcessingOptions. rewrite Hgpo. cbn [bind].
      rewrite Hsize, slice_all. reflexivity.
  - intros. now apply pdol_body_two_byte.
  - intros cc' total tagList Ht Hk Hc.
    destruct (gpo_command_bytes cc' total tagList Ht Hk Hc) as
      (gpo & Hgpo & Hsize & Hdata).
    exists gpo. split; [exact Hgpo |].
    now rewrite (payload_all gpo Hsize).
Qed.

End OptionsFacts.

(** ** Track 2 *)

Lemma pan_loop_sample (tail : list Z) :
  pan_loop (sample_pan ++ tail) "PAN: " = Ok "PAN: 1234 5678 9012 3456 "%string.
Proof. vm_compute. reflexivity. Qed.

Lemma rd_sample_tail (tail : list Z) (a b c : Z) :
  rd (sample_pan ++ [a; b; c] ++ tail) 8 = Ok a
  /\ rd (sample_pan ++ [a; b; c] ++ tail) (8 + 1) = Ok b
  /\ rd (sample_pan ++ [a; b; c] ++ tail) (8 + 1 + 1) = Ok c.
Proof. repeat split. Qed.

Lemma year_nibbles (sep : Z) :
  0 <= sep < 16 ->
  Z.lor (wrap8 (Z.shiftl (16 * sep + 1) 4)) (Z.shiftr 0x50 4) = 0x15.
Proof.
  intros Hsep. unfold wrap8.
  rewrite Z.shiftl_mul_pow2 by lia. change (2 ^ 4) with 16.
  replace ((16 * sep + 1) * 16) with (16 + sep * 256) by lia.
  rewrite Z.mod_add by lia. reflexivity.
Qed.

Lemma month_nibbles (pad : Z) :
  0 <= pad < 16 ->
  Z.lor (wrap8 (Z.shiftl 0x50 4)) (Z.shiftr (0x60 + pad) 4) = 0x06.
Proof.
  intros Hpad. rewrite Z.shiftr_div_pow2 by lia. change (2 ^ 4) with 16.
  replace ((0x60 + pad) / 16) with 6; [reflexivity |].
  apply Z.div_unique with (r := pad); lia.
Qed.

(** C6 (as amended): for track-2 data that starts with the bytes
    12 34 56 78 90 12 34 56, then a separator nibble, the year nibbles 1 and
    5 and the month nibbles 0 and 6, the decoder writes the account number
    as 1234 5678 9012 3456, a space after every second byte, and the expiry
    date as 06/2015. *)
Theorem printTracksInfo_sample (cc : CCInfo) (sep pad : Z) (tail : list Z) :
  0 <= sep < 16 -> 0 <= pad < 16 ->
  printTracksInfo
    (with_track2 cc (sample_pan ++ [16 * sep + 1; 0x50; 0x60 + pad] ++ tail))
  = Ok ("PAN: 1234 5678 9012 3456 " +++ endl
          +++ "Expiry date: 06/2015" +++ endl).
Proof.
  intros Hsep Hpad. unfold printTracksInfo, with_track2.
  cbn [set_track2 _track2EquivalentData data].
  rewrite pan_loop_sample. cbn [bind].
  destruct (rd_sample_tail tail (16 * sep + 1) 0x50 (0x60 + pad))
    as (-> & -> & ->).
  cbn [bind].
  rewrite year_nibbles, month_nibbles by assumption.
  reflexivity.
Qed.

(** ** Application discovery *)

(** A loop whose body changes nothing ends with the state it started
    with. *)
Lemma for_loop_idle {S : Type} (bound : Z) (body : Z -> S -> res (Z * S))
      (s : S) (fuel : nat) :
  forall i,
    (Z.to_nat (bound - i) <= fuel)%nat ->
    (forall j, i <= j < bound -> body j s = Ok (j, s)) ->
    for_loop fuel bound body i s = Ok s.
Proof.
  induction fuel as [| fuel IH]; intros i Hfuel Hbody; cbn [for_loop];
    destruct (Z.ltb_spec i bound) as [Hlt | Hge]; try reflexivity; try lia.
  rewrite Hbody by lia. apply IH; [lia |]. intros j Hj. apply Hbody. lia.
Qed.

Lemma nth_in_firstn (l : list Z) (j n : nat) :
  (j < n <= List.length l)%nat -> In (nth j l 0) (firstn n l).
Proof.
  intros Hj.
  replace (nth j l 0) with (nth j (firstn n l) 0).
  - apply nth_In. rewrite length_firstn. lia.
  - rewrite nth_firstn. destruct (Nat.ltb_spec j n); [reflexivity | lia].
Qed.

Section DiscoveryFacts.

Variable cfg : Config.
Variable card : list (list Z) -> Z * list Z.

(** An empty payload gives an empty list. *)
Lemma getAll_empty_payload (h h' : Helper) (r : APDU) :
  executeCommand cfg card h (SELECT_PPSE cfg) = Ok (r, h') ->
  size r = 0 -> getAll cfg card h = Ok ([], h').
Proof.
  intros Hexec Hsize. unfold getAll. rewrite Hexec. cbn [bind].
  now rewrite Hsize.
Qed.

(** A directory response without the byte 0x61 gives an empty list. *)
Lemma getAll_no_template (h : Helper) :
  szRx (transceive card h (SELECT_PPSE cfg)) <= len (abtRx h) ->
  szRx (transceive card h (SELECT_PPSE cfg)) - 1 <= MAX_FRAME_LEN cfg ->
  ~ In 0x61 (reply (transceive card h (SELECT_PPSE cfg))) ->
  getAll cfg card h = Ok ([], transceive card h (SELECT_PPSE cfg)).
Proof.
  intros Hfit Hcap Hno.
  set (h' := transceive card h (SELECT_PPSE cfg)) in *.
  assert (Hlen : len (abtRx h') = len (abtRx h))
    by (unfold h'; apply transceive_len).
  destruct (Z.ltb_spec (szRx h') 0) as [Hneg | Hpos].
  { eapply getAll_empty_payload;
      [apply executeCommand_failure; auto | reflexivity]. }
  destruct (checkTrailer_spec h') as [(_ & Hge & Hgood) | (_ & Hbad)];
    [lia | |].
  2:{ eapply getAll_empty_payload;
        [apply executeCommand_failure; auto | reflexivity]. }
  unfold getAll. rewrite executeCommand_success by assumption.
  fold h'. cbn [bind size].
  destruct (Z.eqb_spec (szRx h' - 1) 0); [lia |].
  rewrite for_loop_idle; [reflexivity | lia |].
  intros j Hj. unfold getAll_body. rewrite rd_ok by lia. cbn [bind].
  destruct (Z.eqb_spec (nth (Z.to_nat j) (abtRx h') 0) 0x61) as [E | _];
    [| reflexivity].
  exfalso. apply Hno. rewrite <- E. unfold reply.
  apply nth_in_firstn. unfold len in *. lia.
Qed.

End DiscoveryFacts.

(** C7: on [visa_directory], a response with a single 0x61 template (the
    identifier A0 00 00 00 03 10 10, the label "Visa", the priority 1),
    [getAll] returns two applications: the label is skipped up to its last
    byte only, that byte is 0x61 and is taken for the start of a second
    template, which receives the priority. *)
Theorem getAll_label_ending_in_0x61 :
  exists h',
    getAll sample_cfg (answering visa_directory) (Helper_init sample_cfg)
    = Ok ([ {| priority := None;
               aid := [0xA0; 0x00; 0x00; 0x00; 0x03; 0x10; 0x10];
               name := [0x56; 0x69; 0x73; 0x61; 0x00] |};
            {| priority := Some 1; aid := []; name := [] |} ], h').
Proof. eexists. vm_compute. reflexivity. Qed.

(** ** Pay log *)

(** C5: for the format [9F 02 06] and the entry 00 00 00 12 34 56 the
    decoder drops the three leading zero bytes and writes the decimal point
    after the fifth byte (0x34), not before it. *)
Theorem paylog_amount_point_after_fifth_byte :
  paylog_entry {| size := 3; data := [0x9F; 0x02; 0x06] |}
               {| size := 6; data := [0x00; 0x00; 0x00; 0x12; 0x34; 0x56] |}
  = Ok "Amount: 1234.56; "%string.
Proof. vm_compute. reflexivity. Qed.

(** The leading zero bytes among the first four are not written. *)
Lemma paylog_amount_leading_zeros :
  paylog_entry {| size := 3; data := [0x9F; 0x02; 0x06] |}
               {| size := 6; data := [0x00; 0x00; 0x01; 0x00; 0x00; 0x99] |}
  = Ok "Amount: 010000.99; "%string
  /\ paylog_entry {| size := 3; data := [0x9F; 0x02; 0x06] |}
                  {| size := 6; data := [0x00; 0x00; 0x00; 0x00; 0x00; 0x50] |}
     = Ok "Amount: 00.50; "%string.
Proof. split; vm_compute; reflexivity. Qed.

(** ** Instances on the sample inputs *)

(** C1 as stated fails: for the reply 00 AA 90 00 the payload is AA 90 00,
    the reply without its first byte, and not 00 AA, the reply without its
    status bytes. *)
Lemma executeCommand_keeps_status_bytes :
  exists r h',
    executeCommand sample_cfg (answering [0x00; 0xAA; 0x90; 0x00])
                   (Helper_init sample_cfg) (SELECT_PPSE sample_cfg)
    = Ok (r, h')
    /\ 0 <= szRx h'
    /\ reply h' = [0x00; 0xAA] ++ [0x90; 0x00]
    /\ payload r = [0xAA; 0x90; 0x00]
    /\ payload r <> [0x00; 0xAA].
Proof.
  eexists. eexists. split; [vm_compute; reflexivity |].
  split; [vm_compute; discriminate |].
  split; [vm_compute; reflexivity |].
  split; [vm_compute; reflexivity |].
  vm_compute. discriminate.
Qed.

(** C6 as stated fails: the text written for the sample track 2 does not
    contain the account number with a space after every byte. *)
Lemma printTracksInfo_pan_not_byte_separated :
  exists out,
    printTracksInfo
      (with_track2 (CCInfo_init sample_cfg)
                   (sample_pan ++ [0xD1; 0x50; 0x62; 0x01]))
    = Ok out
    /\ index 0 "12 34 56 78 90 12 34 56" out = None
    /\ index 0 "1234 5678 9012 3456" out = Some 5%nat.
Proof. eexists. repeat split; vm_compute; reflexivity. Qed.

(** C4 as stated fails: scanning [nested_record] once stores the track 2
    and leaves the track 1 discretionary data empty, since the tag
    0x9F 0x1F lies in the bytes copied as the track 2; scanning it a second
    time no longer takes the byte 0x57 for a tag, walks through these bytes
    and stores the byte AA as the track 1 discretionary data.  The value
    stored after two scans is not the one stored after one. *)
Lemma second_scan_stores_track1 :
  exists cc1 cc2,
    scan_record sample_cfg nested_record (CCInfo_init sample_cfg) = Ok cc1
    /\ scan_record sample_cfg nested_record cc1 = Ok cc2
    /\ payload (_track2EquivalentData cc1) = [0x9F; 0x1F; 0x01; 0xAA]
    /\ size (_track1DiscretionaryData cc1) = 0
    /\ size (_track1DiscretionaryData cc2) = 1
    /\ payload (_track1DiscretionaryData cc2) = [0xAA]
    /\ _track1DiscretionaryData cc2 <> _track1DiscretionaryData cc1.
Proof.
  eexists. eexists. split; [vm_compute; reflexivity |].
  split; [vm_compute; reflexivity |].
  split; [vm_compute; reflexivity |].
  split; [vm_compute; reflexivity |].
  split; [vm_compute; reflexivity |].
  split; [vm_compute; reflexivity |].
  vm_compute. discriminate.
Qed.

(** The reply 00 AA 90 00 succeeds: the payload is AA 90 00. *)
Lemma executeCommand_success_drops_first_byte_witness :
  exists r,
    executeCommand sample_cfg (answering [0x00; 0xAA; 0x90; 0x00])
                   (Helper_init sample_cfg) (SELECT_PPSE sample_cfg)
    = Ok (r, transceive (answering [0x00; 0xAA; 0x90; 0x00])
                        (Helper_init sample_cfg) (SELECT_PPSE sample_cfg))
    /\ size r = 3
    /\ payload r = [0xAA] ++ [0x90; 0x00].
Proof.
  destruct (executeCommand_success_drops_first_byte
              sample_cfg (answering [0x00; 0xAA; 0x90; 0x00])
              (Helper_init sample_cfg) (SELECT_PPSE sample_cfg) [0x00; 0xAA])
    as (r & Hrun & Hsize & _ & Hkept & _).
  - vm_compute. discriminate.
  - vm_compute. discriminate.
  - vm_compute. discriminate.
  - vm_compute. reflexivity.
  - exists r. split; [exact Hrun |]. split; [exact Hsize |].
    exact (Hkept 0x00 [0xAA] eq_refl).
Defined.

(** The reply 00 AA 6A 82 has a wrong trailer: the payload is empty. *)
Lemma executeCommand_failure_empty_witness :
  exists r,
    executeCommand sample_cfg (answering [0x00; 0xAA; 0x6A; 0x82])
                   (Helper_init sample_cfg) (SELECT_PPSE sample_cfg)
    = Ok (r, transceive (answering [0x00; 0xAA; 0x6A; 0x82])
                        (Helper_init sample_cfg) (SELECT_PPSE sample_cfg))
    /\ size r = 0 /\ payload r = [].
Proof.
  apply (executeCommand_failure_empty
           sample_cfg (answering [0x00; 0xAA; 0x6A; 0x82])
           (Helper_init sample_cfg) (SELECT_PPSE sample_cfg)).
  - vm_compute. discriminate.
  - right. intros [pre Hpre]. vm_compute in Hpre.
    destruct pre as [| a [| b [| c [| d [| e pre]]]]]; discriminate Hpre.
Defined.

(** A reply of one byte: the payload is empty. *)
Lemma executeCommand_short_reply_empty_witness :
  checkTrailer (transceive (answering [0x00]) (Helper_init sample_cfg)
                           (SELECT_PPSE sample_cfg)) = Ok true
  /\ exists r,
    executeCommand sample_cfg (answering [0x00])
                   (Helper_init sample_cfg) (SELECT_PPSE sample_cfg)
    = Ok (r, transceive (answering [0x00])
                        (Helper_init sample_cfg) (SELECT_PPSE sample_cfg))
    /\ size r = 0 /\ payload r = [].
Proof.
  apply (executeCommand_short_reply_empty
           sample_cfg (answering [0x00])
           (Helper_init sample_cfg) (SELECT_PPSE sample_cfg)).
  vm_compute. split; [discriminate | reflexivity].
Defined.

(** Priority 1 selects the second of [sample_apps]. *)
Lemma selectByPriority_first_match_witness :
  selectByPriority sample_cfg (answering [0x00; 0x90; 0x00])
                   (Helper_init sample_cfg) sample_apps 1
  = executeCommand sample_cfg (answering [0x00; 0x90; 0x00])
      (Helper_init sample_cfg)
      [0x40; 0x01; 0x00; 0xA4; 0x04; 0x00; 0x07;
       0xA0; 0x00; 0x00; 0x00; 0x03; 0x10; 0x10; 0x00].
Proof.
  apply (selectByPriority_first_match
           sample_cfg (answering [0x00; 0x90; 0x00]) (Helper_init sample_cfg)
           [ {| priority := Some 2;
                aid := [0xA0; 0x00; 0x00; 0x00; 0x04; 0x10; 0x10];
                name := [0x4D; 0x43; 0x00] |} ]
           []
           {| priority := Some 1;
              aid := [0xA0; 0x00; 0x00; 0x00; 0x03; 0x10; 0x10];
              name := [0x56; 0x49; 0x53; 0x41; 0x00] |}
           1).
  - constructor; [| constructor]. exists 2. split; [reflexivity | discriminate].
  - reflexivity.
  - reflexivity.
  - vm_compute. discriminate.
Defined.

(** A card that answers every command with 00 AA 90 00: the format and
    the two log records are read, and the result is 0. *)
Lemma extractLogEntries_protocol_witness :
  exists h' cc',
    extractLogEntries sample_cfg (answering [0x00; 0xAA; 0x90; 0x00])
                      (Helper_init sample_cfg) sample_log_cc
    = Ok (0, h', cc')
    /\ sent h' = [ [0x40; 0x01; 0x80; 0xCA; 0x9F; 0x4F; 0x00];
                   [0x40; 0x01; 0x00; 0xB2; 0x01; 0x5C; 0x00];
                   [0x40; 0x01; 0x00; 0xB2; 0x02; 0x5C; 0x00] ].
Proof.
  destruct (extractLogEntries_protocol
              sample_cfg (answering [0x00; 0xAA; 0x90; 0x00])
              (Helper_init sample_cfg) sample_log_cc)
    as (_ & _ & _ & code & h' & cc' & fmt & m & Hrun & _).
  - vm_compute. discriminate.
  - intros history. vm_compute. discriminate.
  - vm_compute. reflexivity.
  - vm_compute. split; discriminate.
  - vm_compute in Hrun. injection Hrun as <- <- <-.
    eexists. eexists. split; reflexivity.
Defined.

(** Scanning [sample_record] twice stores the track 2 once. *)
Lemma first_occurrence_wins_witness :
  scan_record sample_cfg sample_record (CCInfo_init sample_cfg)
  = Ok (sample_scanned sample_cfg)
  /\ scan_record sample_cfg sample_record (sample_scanned sample_cfg)
     = Ok (sample_scanned sample_cfg)
  /\ size (_track2EquivalentData (sample_scanned sample_cfg)) = 2
  /\ kept (sample_scanned sample_cfg) (sample_scanned sample_cfg).
Proof.
  split; [vm_compute; reflexivity |].
  split; [vm_compute; reflexivity |].
  split; [reflexivity |].
  refine (proj1 (proj2 (proj2 (proj2
            (first_occurrence_wins sample_cfg (answering [])
                                   (sample_scanned sample_cfg))))
            sample_record (CCInfo_init sample_cfg) (sample_scanned sample_cfg)
            _ _));
    vm_compute; reflexivity.
Defined.

(** The GPO command for the PDOL of [sample_log_cc]. *)
Lemma gpo_for_amount_pdol_witness :
  exists gpo,
    gpo_command sample_cfg sample_log_cc = Ok (6, gpo)
    /\ payload gpo
       = [0x40; 0x01; 0x80; 0xA8; 0x00; 0x00; 8; 0x83; 6;
          0x00; 0x00; 0x10; 0x00; 0x00; 0x00; 0x00].
Proof.
  destruct (gpo_for_amount_pdol
              sample_cfg (answering [0x00; 0x90; 0x00])
              (Helper_init sample_cfg) sample_log_cc (zeros 297))
    as [(_ & _ & gpo & Hgpo & Hpayload & _) _].
  - reflexivity.
  - vm_compute. discriminate.
  - exists gpo. split; [exact Hgpo | exact Hpayload].
Defined.

(** The sample track 2 with the separator D and the padding nibble 2. *)
Lemma printTracksInfo_sample_witness :
  printTracksInfo
    (with_track2 (CCInfo_init sample_cfg)
                 (sample_pan ++ [0xD1; 0x50; 0x62] ++ [0x01]))
  = Ok ("PAN: 1234 5678 9012 3456 " +++ endl
          +++ "Expiry date: 06/2015" +++ endl).
Proof.
  apply (printTracksInfo_sample (CCInfo_init sample_cfg) 13 2 [0x01]); lia.
Defined.

(** * Further properties *)

(** ** Tools *)

Lemma for_loop_unroll {T : Type} (fuel : nat) (bound : Z)
      (body : Z -> T -> res (Z * T)) (i i' : Z) (s s' : T) :
  (1 <= fuel)%nat -> i < bound -> body i s = Ok (i', s') ->
  for_loop fuel bound body i s = for_loop (fuel - 1) bound body (i' + 1) s'.
Proof.
  intros Hfuel Hi Hbody. destruct fuel as [| fuel]; [lia |].
  cbn [for_loop]. destruct (Z.ltb_spec i bound); [| lia].
  rewrite Hbody. now replace (S fuel - 1)%nat with fuel by lia.
Qed.

Lemma for_loop_exit {T : Type} (fuel : nat) (bound : Z)
      (body : Z -> T -> res (Z * T)) (i : Z) (s : T) :
  bound <= i -> for_loop fuel bound body i s = Ok s.
Proof.
  intros Hi. destruct fuel; cbn [for_loop];
    destruct (Z.ltb_spec i bound); try reflexivity; lia.
Qed.

Lemma zrange_nil (a b : Z) : b < a -> zrange a b = [].
Proof.
  intros H. unfold zrange. now replace (Z.to_nat (b + 1 - a)) with 0%nat by lia.
Qed.

Lemma zrange_cons (a b : Z) : a <= b -> zrange a b = a :: zrange (a + 1) b.
Proof.
  intros H. unfold zrange.
  replace (Z.to_nat (b + 1 - a)) with (S (Z.to_nat (b + 1 - (a + 1)))) by lia.
  cbn [seq map]. f_equal; [lia |].
  rewrite <- seq_shift, map_map. apply map_ext. intros k. lia.
Qed.

Lemma blit_Ok_inv (cap : Z) (dst : list Z) (off : Z) (src x : list Z) :
  blit cap dst off src = Ok x ->
  x = firstn (Z.to_nat off) dst ++ src
        ++ skipn (Z.to_nat off + List.length src) dst.
Proof.
  unfold blit. destruct (_ && _); [now intros [= <-] | discriminate].
Qed.

Lemma blit_Ok_any_cap (cap cap' : Z) (dst : list Z) (off : Z)
      (src x y : list Z) :
  blit cap dst off src = Ok x -> blit cap' dst off src = Ok y -> x = y.
Proof.
  intros Hx Hy. apply blit_Ok_inv in Hx, Hy. congruence.
Qed.

(** ** Command executor *)

Section ExecutorMore.

Variable cfg : Config.
Variable card : list (list Z) -> Z * list Z.

Lemma executeCommand_helper (h h' : Helper) (command : list Z) (r : APDU) :
  executeCommand cfg card h command = Ok (r, h') ->
  h' = transceive card h command.
Proof.
  unfold executeCommand. intros H.
  repeat match type of H with
         | (if ?c then _ else _) = _ => destruct c
         | bind _ _ = _ => bind_inv H
         end; congruence.
Qed.

(** X1: the test [res.size == 0] that every caller of [executeCommand]
    uses tells failure from success exactly: the payload is empty if and
    only if the transport reported a negative length or the reply does not
    end in 0x90 0x00 (which [checkTrailer] answers with [true]); a
    successful exchange has at least one byte of payload. *)
Theorem executeCommand_empty_iff_failed (h : Helper) (command : list Z) :
  szRx (transceive card h command) <= len (abtRx h) ->
  szRx (transceive card h command) - 1 <= MAX_FRAME_LEN cfg ->
  exists r,
    executeCommand cfg card h command = Ok (r, transceive card h command)
    /\ (size r = 0 <->
        szRx (transceive card h command) < 0
        \/ checkTrailer (transceive card h command) = Ok true)
    /\ (checkTrailer (transceive card h command) = Ok true <->
        ~ ends_9000 (reply (transceive card h command))).
Proof.
  intros Hfit Hcap.
  set (h' := transceive card h command) in *.
  assert (Hlen : szRx h' <= len (abtRx h'))
    by (unfold h'; now rewrite transceive_len).
  assert (Htrailer : checkTrailer h' = Ok true <-> ~ ends_9000 (reply h')).
  { destruct (checkTrailer_spec h' Hlen) as [(Hf & _ & Hgood) | (Ht & Hbad)].
    - rewrite Hf. split; [discriminate | contradiction].
    - rewrite Ht. split; auto. }
  destruct (Z.ltb_spec (szRx h') 0) as [Hneg | Hpos].
  - exists (APDU_zero cfg). split; [apply executeCommand_failure; auto |].
    split; [| exact Htrailer]. cbn [APDU_zero size]. split; auto.
  - destruct (checkTrailer_spec h' Hlen) as [(Hf & Hge & Hgood) | (Ht & Hbad)].
    + eexists. split; [apply executeCommand_success; auto |].
      split; [| exact Htrailer]. cbn [size]. rewrite Hf.
      unfold h' in *.
      split; [lia | intros [Hn | Hd]; [lia | discriminate]].
    + exists (APDU_zero cfg). split; [apply executeCommand_failure; auto |].
      split; [| exact Htrailer]. cbn [APDU_zero size]. split; auto.
Qed.

End ExecutorMore.

(** ** Record extractor: the reads and the frame *)

Section ExtractorMore.

Variable cfg : Config.
Variable card : list (list Z) -> Z * list Z.

Lemma wr_P1_any_cap (cap : Z) (template x : list Z) (p1 p1' p2 : Z) :
  6 <= len template ->
  wr cap (set_P1_P2 template p1 p2) 4 p1' = Ok x ->
  x = set_P1_P2 template p1' p2.
Proof.
  intros Hlen Hx. unfold wr in Hx.
  pose proof (wr_P1 template p1 p1' p2 Hlen) as Hy. unfold wr in Hy.
  exact (blit_Ok_any_cap _ _ _ _ _ _ _ Hx Hy).
Qed.

Lemma wr_P2_any_cap (cap : Z) (template x : list Z) (p1 p2 p2' : Z) :
  6 <= len template ->
  wr cap (set_P1_P2 template p1 p2) 5 p2' = Ok x ->
  x = set_P1_P2 template p1 p2'.
Proof.
  intros Hlen Hx. unfold wr in Hx. apply blit_Ok_inv in Hx. subst x.
  unfold set_P1_P2, len in *.
  destruct template as [| a [| b [| c [| d [| e [| f t]]]]]];
    simpl in Hlen; try lia. reflexivity.
Qed.

Lemma template_is_set (template : list Z) :
  6 <= len template ->
  template = set_P1_P2 template (nth 4 template 0) (nth 5 template 0).
Proof.
  intros Hlen. unfold set_P1_P2.
  rewrite <- (firstn_skipn 4 template) at 1. f_equal.
  assert (H : skipn 4 template
              = nth 4 template 0 :: nth 5 template 0 :: skipn 6 template).
  { unfold len in Hlen.
    destruct template as [| a [| b [| c [| d [| e [| f t]]]]]];
      simpl in Hlen; try lia. reflexivity. }
  exact H.
Qed.

(** The loop over the record numbers sends one read per number. *)
Lemma base_record_loop_sent (sfi : Z) (fuel : nat) :
  forall record p1 h cc rr' h' cc',
    6 <= len (READ_RECORD cfg) ->
    for_loop fuel (TO_RECORD cfg + 1) (base_record_body cfg card) record
             (set_P1_P2 (READ_RECORD cfg) p1 (P2_of_SFI sfi), h, cc)
    = Ok (rr', h', cc') ->
    (exists p1', rr' = set_P1_P2 (READ_RECORD cfg) p1' (P2_of_SFI sfi))
    /\ sent h' = sent h ++ map (base_read_command cfg sfi)
                              (zrange record (TO_RECORD cfg)).
Proof.
  induction fuel as [| fuel IH]; intros record p1 h cc rr' h' cc' Hrr Hloop;
    cbn [for_loop] in Hloop;
    destruct (Z.ltb_spec record (TO_RECORD cfg + 1)) as [Hlt | Hge].
  - discriminate.
  - injection Hloop as <- <- <-. rewrite zrange_nil by lia.
    rewrite app_nil_r. eauto.
  - destruct (base_record_body cfg card record _) as [[i1 [[rr1 h1] cc1]] | e]
      eqn:Hbody; [| discriminate].
    unfold base_record_body in Hbody.
    bind_inv Hbody. apply wr_P1_any_cap in Hx; [| assumption]. subst x.
    bind_inv Hbody.
    rewrite <- (len_set_P1_P2 (READ_RECORD cfg) (wrap8 record) (P2_of_SFI sfi))
      in Hx by assumption.
    rewrite slice_all in Hx. injection Hx as <-.
    bind_inv Hbody. destruct x as [r h2].
    pose proof (executeCommand_helper cfg card _ _ _ _ Hx) as Hh2.
    assert (Hst : i1 = record /\ rr1 = set_P1_P2 (READ_RECORD cfg)
                                     (wrap8 record) (P2_of_SFI sfi)
                  /\ h1 = h2).
    { destruct (size r =? 0).
      - injection Hbody as <- <- <- _. auto.
      - bind_inv Hbody. injection Hbody as <- <- <- _. auto. }
    destruct Hst as (-> & -> & ->).
    destruct (IH _ _ _ _ _ _ _ Hrr Hloop) as [Hform Hsent].
    split; [exact Hform |].
    rewrite Hsent, Hh2, transceive_sent, (zrange_cons record) by lia.
    cbn [map]. now rewrite <- app_assoc.
  - injection Hloop as <- <- <-. rewrite zrange_nil by lia.
    rewrite app_nil_r. eauto.
Qed.

(** The loop over the files sends the reads of each file in turn. *)
Lemma base_sfi_loop_sent (fuel : nat) :
  forall sfi p1 p2 h cc rr' h' cc',
    6 <= len (READ_RECORD cfg) ->
    for_loop fuel (TO_SFI cfg + 1) (base_sfi_body cfg card) sfi
             (set_P1_P2 (READ_RECORD cfg) p1 p2, h, cc)
    = Ok (rr', h', cc') ->
    sent h' = sent h
              ++ flat_map (fun sfi => map (base_read_command cfg sfi)
                                          (zrange (FROM_RECORD cfg)
                                                  (TO_RECORD cfg)))
                          (zrange sfi (TO_SFI cfg)).
Proof.
  induction fuel as [| fuel IH]; intros sfi p1 p2 h cc rr' h' cc' Hrr Hloop;
    cbn [for_loop] in Hloop;
    destruct (Z.ltb_spec sfi (TO_SFI cfg + 1)) as [Hlt | Hge].
  - discriminate.
  - injection Hloop as <- <- <-. rewrite (zrange_nil sfi) by lia.
    cbn. now rewrite app_nil_r.
  - destruct (base_sfi_body cfg card sfi _) as [[i1 [[rr1 h1] cc1]] | e]
      eqn:Hbody; [| discriminate].
    unfold base_sfi_body in Hbody.
    bind_inv Hbody. apply wr_P2_any_cap in Hx; [| assumption]. subst x.
    apply bind_Ok in Hbody. destruct Hbody as ([[rr2 h2] cc2] & Hinner & Hbody).
    injection Hbody as <- <- <- <-.
    change (wrap8 (Z.lor (Z.shiftl sfi 3) (Z.shiftl 1 2)))
      with (P2_of_SFI sfi) in Hinner.
    destruct (base_record_loop_sent sfi _ _ _ _ _ _ _ _ Hrr Hinner)
      as [[p1' ->] Hsent1].
    rewrite (IH _ _ _ _ _ _ _ _ Hrr Hloop), Hsent1.
    rewrite (zrange_cons sfi) by lia. cbn [flat_map].
    now rewrite <- app_assoc.
  - injection Hloop as <- <- <-. rewrite (zrange_nil sfi) by lia.
    cbn. now rewrite app_nil_r.
Qed.

(** X2: whatever the card answers, [extractBaseRecords] sends the same
    reads: for every file from [_FROM_SFI] to [_TO_SFI] in order, every
    record from [_FROM_RECORD] to [_TO_RECORD] in order, with P1 the record
    number and P2 = (sfi << 3) | 0b100, each narrowed to a byte.  An empty or
    failed read stops nothing, and the function returns 0. *)
Theorem extractBaseRecords_reads_every_record
        (h h' : Helper) (cc cc' : CCInfo) (code : Z) :
  6 <= len (READ_RECORD cfg) ->
  extractBaseRecords cfg card h cc = Ok (code, h', cc') ->
  code = 0 /\ sent h' = sent h ++ base_read_commands cfg.
Proof.
  intros Hrr Hrun. unfold extractBaseRecords in Hrun.
  bind_inv Hrun. unfold memcpy in Hx. rewrite slice_all in Hx.
  cbn [bind] in Hx. apply blit_Ok_inv in Hx.
  cbn [firstn skipn Z.to_nat app] in Hx. rewrite skipn_nil, app_nil_r in Hx.
  subst x.
  apply bind_Ok in Hrun. destruct Hrun as ([[rr1 h1] cc1] & Hloop & Hrun).
  injection Hrun as <- <- <-. split; [reflexivity |].
  pose proof (template_is_set (READ_RECORD cfg) Hrr) as E.
  eapply (base_sfi_loop_sent _ _ (nth 4 (READ_RECORD cfg) 0)
                             (nth 5 (READ_RECORD cfg) 0)); [exact Hrr |].
  rewrite <- E. exact Hloop.
Qed.

Lemma record_body_frame (buff : list Z) (size_ i i' : Z) (cc cc' : CCInfo) :
  record_body cfg buff size_ i cc = Ok (i', cc') ->
  same_options_and_log cc cc'.
Proof.
  unfold record_body. intros Hbody. bind_inv Hbody. cbv zeta in Hbody.
  run_body; repeat split.
Qed.

Lemma same_options_and_log_trans (a b c : CCInfo) :
  same_options_and_log a b -> same_options_and_log b c ->
  same_options_and_log a c.
Proof.
  unfold same_options_and_log. intuition congruence.
Qed.

Lemma scan_records_frame (rs : list APDU) :
  forall cc cc', scan_records cfg rs cc = Ok cc' -> same_options_and_log cc cc'.
Proof.
  induction rs as [| r rs IH]; intros cc cc' Hrun; cbn [scan_records] in Hrun.
  - injection Hrun as <-. repeat split.
  - bind_inv Hrun.
    eapply same_options_and_log_trans; [| apply IH; exact Hrun].
    destruct (size r =? 0).
    + injection Hx as <-. repeat split.
    + unfold scan_record in Hx.
      apply (for_loop_invariant (same_options_and_log cc) _ _) in Hx;
        [exact Hx | | repeat split].
      intros i s i' s' Hb Hs.
      eapply same_options_and_log_trans; [exact Hs |].
      eapply record_body_frame; eauto.
Qed.

(** X3: [extractBaseRecords] writes the cardholder name and the two track
    fields only: the PDOL, the location and the count of the log, the log
    format and the log entries are the same after it as before. *)
Theorem extractBaseRecords_keeps_options_and_log
        (h h' : Helper) (cc cc' : CCInfo) (code : Z) :
  extractBaseRecords cfg card h cc = Ok (code, h', cc') ->
  same_options_and_log cc cc'.
Proof.
  intros Hrun.
  destruct (extractBaseRecords_scans cfg card _ _ _ _ _ Hrun) as [rs Hrs].
  eapply scan_records_frame; eauto.
Qed.

(** A loop whose body always returns, leaves the counter where it was and
    keeps [P] ends, and [P] holds at the end. *)
Lemma for_loop_total {T : Type} (P : T -> Prop) (bound : Z)
      (body : Z -> T -> res (Z * T)) :
  (forall i s, P s -> exists s', body i s = Ok (i, s') /\ P s') ->
  forall fuel i s,
    (Z.to_nat (bound - i) <= fuel)%nat -> P s ->
    exists s', for_loop fuel bound body i s = Ok s' /\ P s'.
Proof.
  intros Hbody. induction fuel as [| fuel IH]; intros i s Hfuel Hs;
    cbn [for_loop]; destruct (Z.ltb_spec i bound) as [Hlt | Hge];
    try (exists s; now split); try lia.
  destruct (Hbody i s Hs) as (s1 & -> & Hs1). apply IH; [lia | exact Hs1].
Qed.

Lemma blit_cap_mono (cap cap' : Z) (dst : list Z) (off : Z) (src x : list Z) :
  blit cap dst off src = Ok x -> cap <= cap' -> blit cap' dst off src = Ok x.
Proof.
  unfold blit. intros H Hcap.
  destruct (Z.leb_spec 0 off); [| discriminate H].
  destruct (Z.leb_spec off (len dst)); [| discriminate H].
  destruct (Z.leb_spec (off + len src) cap); [| discriminate H].
  destruct (Z.leb_spec (off + len src) cap'); [exact H | lia].
Qed.

(** A reply of fewer than two bytes, or a failed exchange, gives the zeroed
    [APDU] without a look at the receive buffer. *)
Lemma executeCommand_refused (h : Helper) (command : list Z) :
  fst (card (sent h ++ [command])) < 2 ->
  executeCommand cfg card h command
  = Ok (APDU_zero cfg, transceive card h command).
Proof.
  intros Hshort. unfold executeCommand.
  rewrite <- transceive_szRx in Hshort.
  destruct (szRx (transceive card h command) <? 0); [reflexivity |].
  unfold checkTrailer.
  destruct (Z.ltb_spec (szRx (transceive card h command)) 2); [| lia].
  reflexivity.
Qed.

Lemma base_record_body_refused (record p1 p2 : Z) (h : Helper) (cc : CCInfo) :
  6 <= len (READ_RECORD cfg) <= MAX_FRAME_LEN cfg ->
  (forall history, fst (card history) < 2) ->
  exists h',
    base_record_body cfg card record
                     (set_P1_P2 (READ_RECORD cfg) p1 p2, h, cc)
    = Ok (record, (set_P1_P2 (READ_RECORD cfg) (wrap8 record) p2, h', cc)).
Proof.
  intros [Hlo Hhi] Hcard. unfold base_record_body.
  assert (Hwr : wr (MAX_FRAME_LEN cfg) (set_P1_P2 (READ_RECORD cfg) p1 p2) 4
                   (wrap8 record)
                = Ok (set_P1_P2 (READ_RECORD cfg) (wrap8 record) p2)).
  { apply (blit_cap_mono (len (set_P1_P2 (READ_RECORD cfg) p1 p2))).
    - now apply wr_P1.
    - now rewrite len_set_P1_P2. }
  rewrite Hwr. cbn [bind].
  rewrite <- (len_set_P1_P2 (READ_RECORD cfg) (wrap8 record) p2)
    by assumption.
  rewrite slice_all. cbn [bind].
  rewrite executeCommand_refused by apply Hcard. cbn [bind].
  change (size (APDU_zero cfg) =? 0) with true. cbv iota. eauto.
Qed.

(** X15: with a reader on which every exchange fails or brings fewer than
    two bytes, [extractBaseRecords] still goes through all its reads,
    returns 0 like a successful run, and leaves every member of [CCInfo] as
    it was: its result does not tell the caller that nothing was read. *)
Theorem extractBaseRecords_unreadable_card (h : Helper) (cc : CCInfo) :
  6 <= len (READ_RECORD cfg) <= MAX_FRAME_LEN cfg ->
  (forall history, fst (card history) < 2) ->
  exists h',
    extractBaseRecords cfg card h cc = Ok (0, h', cc)
    /\ sent h' = sent h ++ base_read_commands cfg.
Proof.
  intros Hrr Hcard.
  set (P := fun st : list Z * Helper * CCInfo =>
              (exists p1 p2, fst (fst st) = set_P1_P2 (READ_RECORD cfg) p1 p2)
              /\ snd st = cc).
  assert (Hinner : forall record st, P st ->
            exists st', base_record_body cfg card record st = Ok (record, st')
                        /\ P st').
  { intros record [[rr h0] cc0] [(p1 & p2 & Hform) Hcc].
    cbn [fst snd] in Hform, Hcc. subst rr cc0.
    destruct (base_record_body_refused record p1 p2 h0 cc Hrr Hcard)
      as [h1 Hbody].
    eexists. split; [exact Hbody |]. split; [| reflexivity].
    cbn [fst]. eauto. }
  assert (Houter : forall sfi st, P st ->
            exists st', base_sfi_body cfg card sfi st = Ok (sfi, st') /\ P st').
  { intros sfi [[rr h0] cc0] [(p1 & p2 & Hform) Hcc].
    cbn [fst snd] in Hform, Hcc. subst rr cc0.
    unfold base_sfi_body.
    assert (Hwr : wr (MAX_FRAME_LEN cfg)
                     (set_P1_P2 (READ_RECORD cfg) p1 p2) 5
                     (wrap8 (Z.lor (Z.shiftl sfi 3) (Z.shiftl 1 2)))
                  = Ok (set_P1_P2 (READ_RECORD cfg) p1
                          (wrap8 (Z.lor (Z.shiftl sfi 3) (Z.shiftl 1 2))))).
    { pose proof (wr_P2 (set_P1_P2 (READ_RECORD cfg) p1 p2)
                        (wrap8 (Z.lor (Z.shiftl sfi 3) (Z.shiftl 1 2)))) as Hw.
      rewrite len_set_P1_P2 in Hw by lia. specialize (Hw (proj1 Hrr)).
      apply (blit_cap_mono _ (MAX_FRAME_LEN cfg)) in Hw; [| lia].
      unfold wr. rewrite Hw. f_equal.
      exact (wr_P2_any_cap _ _ _ _ _ _ (proj1 Hrr) Hw). }
    rewrite Hwr. cbn [bind].
    destruct (for_loop_total P (TO_RECORD cfg + 1) (base_record_body cfg card)
                Hinner
                (Z.to_nat (TO_RECORD cfg + 1 - FROM_RECORD cfg))
                (FROM_RECORD cfg)
                (set_P1_P2 (READ_RECORD cfg) p1
                   (wrap8 (Z.lor (Z.shiftl sfi 3) (Z.shiftl 1 2))), h0, cc))
      as (st' & -> & Hst'); [lia | split; [cbn [fst]; eauto | reflexivity] |].
    cbn [bind]. eauto. }
  assert (Hcopy : memcpy (MAX_FRAME_LEN cfg) [] 0 (READ_RECORD cfg) 0
                         (len (READ_RECORD cfg)) = Ok (READ_RECORD cfg)).
  { unfold memcpy. rewrite slice_all. cbn [bind]. unfold blit.
    change (len []) with 0.
    destruct (Z.leb_spec (0 + len (READ_RECORD cfg)) (MAX_FRAME_LEN cfg));
      [| lia].
    cbn. now rewrite skipn_nil, app_nil_r. }
  destruct (for_loop_total P (TO_SFI cfg + 1) (base_sfi_body cfg card) Houter
              (Z.to_nat (TO_SFI cfg + 1 - FROM_SFI cfg)) (FROM_SFI cfg)
              (READ_RECORD cfg, h, cc))
    as ([[rr1 h1] cc1] & Hloop & _ & Hcc);
    [lia | split; [| reflexivity] |].
  { cbn [fst]. exists (nth 4 (READ_RECORD cfg) 0), (nth 5 (READ_RECORD cfg) 0).
    apply template_is_set. lia. }
  cbn [snd] in Hcc. subst cc1.
  assert (Hrun : extractBaseRecords cfg card h cc = Ok (0, h1, cc)).
  { unfold extractBaseRecords. rewrite Hcopy. cbn [bind].
    rewrite Hloop. reflexivity. }
  exists h1. split; [exact Hrun |].
  pose proof (template_is_set (READ_RECORD cfg) (proj1 Hrr)) as E.
  eapply (base_sfi_loop_sent _ _ (nth 4 (READ_RECORD cfg) 0)
                             (nth 5 (READ_RECORD cfg) 0)); [exact (proj1 Hrr) |].
  rewrite <- E. exact Hloop.
Qed.

End ExtractorMore.

(** ** Processing options: the PDOL *)

Lemma rd_app_r (pre l : list Z) (k : Z) :
  0 <= k -> rd (pre ++ l) (len pre + k) = rd l k.
Proof.
  intros Hk. unfold rd, len.
  destruct (Z.ltb_spec (Z.of_nat (List.length pre) + k) 0); [lia |].
  destruct (Z.ltb_spec k 0); [lia |].
  replace (Z.to_nat (Z.of_nat (List.length pre) + k))
    with (List.length pre + Z.to_nat k)%nat by lia.
  now rewrite nth_error_app2, Nat.add_comm, Nat.add_sub by lia.
Qed.

Lemma rd_app_r0 (pre l : list Z) : rd (pre ++ l) (len pre) = rd l 0.
Proof. rewrite <- (Z.add_0_r (len pre)) at 1. now apply rd_app_r. Qed.

Lemma encode_entry_length (p : Z * Z) : 2 <= len (encode_entry p) <= 3.
Proof. unfold encode_entry. destruct (fst p <? 256); cbn; lia. Qed.

Lemma pdol_body_encoded (pre rest : list Z) (p : Z * Z) (total : Z)
      (tagList : list (Z * Z)) :
  well_formed_entry p ->
  pdol_body (pre ++ encode_entry p ++ rest) (len pre) (total, tagList)
  = Ok (len pre + len (encode_entry p) - 1,
        (total + snd p, tagList ++ [p])).
Proof.
  destruct p as [tag l]. unfold well_formed_entry, encode_entry.
  cbn [fst snd]. intros [(Hrange & H1 & H2 & H3) | Htwo].
  - destruct (Z.ltb_spec tag 256); [| lia].
    rewrite (pdol_body_one_byte _ _ _ _ tag l); try assumption.
    + change (len [tag; l]) with 2. do 2 f_equal. lia.
    + now rewrite rd_app_r0.
    + now rewrite rd_app_r by lia.
  - assert (Hbig : 256 <= tag)
      by (pose proof (Z.div_mod tag 256);
          pose proof (Z.mod_pos_bound tag 256);
          destruct Htwo as [E | [E | E]]; rewrite E in *; lia).
    destruct (Z.ltb_spec tag 256); [lia |].
    rewrite (pdol_body_two_byte _ _ _ _ (tag / 256) (tag mod 256) l);
      try assumption.
    + rewrite <- Z.div_mod by lia.
      change (len [tag / 256; tag mod 256; l]) with 3.
      do 2 f_equal. lia.
    + now rewrite rd_app_r0.
    + now rewrite rd_app_r by lia.
    + apply Z.mod_pos_bound. lia.
    + now rewrite rd_app_r by lia.
Qed.

Lemma pdol_loop_encoded (entries : list (Z * Z)) :
  forall (pre rest : list Z) (total : Z) (tagList : list (Z * Z)) (fuel : nat),
    Forall well_formed_entry entries ->
    (List.length entries <= fuel)%nat ->
    for_loop fuel (len pre + len (flat_map encode_entry entries))
             (pdol_body (pre ++ flat_map encode_entry entries ++ rest))
             (len pre) (total, tagList)
    = Ok (total + total_length entries, tagList ++ entries).
Proof.
  induction entries as [| p entries IH];
    intros pre rest total tagList fuel Hwf Hfuel.
  - cbn [flat_map total_length fold_right]. rewrite for_loop_exit by (cbn; lia).
    now rewrite Z.add_0_r, app_nil_r.
  - inversion Hwf as [| q qs Hp Hrest]; subst.
    cbn [flat_map List.length] in *. rewrite len_app.
    pose proof (encode_entry_length p) as Hlen.
    pose proof (len_nonneg (flat_map encode_entry entries)) as Hpos.
    rewrite (for_loop_unroll fuel _ _ _
               (len pre + len (encode_entry p) - 1)
               _ (total + snd p, tagList ++ [p])); [| lia | lia |].
    2:{ rewrite <- app_assoc. now apply pdol_body_encoded. }
    replace (len pre + len (encode_entry p) - 1 + 1)
      with (len (pre ++ encode_entry p)) by (rewrite len_app; lia).
    replace (len pre + (len (encode_entry p)
                        + len (flat_map encode_entry entries)))
      with (len (pre ++ encode_entry p)
            + len (flat_map encode_entry entries))
      by (rewrite len_app; lia).
    replace (pre ++ (encode_entry p ++ flat_map encode_entry entries) ++ rest)
      with ((pre ++ encode_entry p) ++ flat_map encode_entry entries ++ rest)
      by (now rewrite <- !app_assoc).
    rewrite IH by (try assumption; lia).
    cbn [total_length fold_right]. fold (total_length entries).
    rewrite <- app_assoc. cbn [app]. f_equal. f_equal. lia.
Qed.

Lemma encoding_length (entries : list (Z * Z)) :
  (List.length entries
   <= Z.to_nat (len (flat_map encode_entry entries)))%nat.
Proof.
  induction entries as [| p ps IH]; [cbn; lia |].
  cbn [flat_map List.length]. rewrite len_app.
  pose proof (encode_entry_length p).
  pose proof (len_nonneg (flat_map encode_entry ps)). lia.
Qed.

Lemma pdol_tags_encoded (cc : CCInfo) (entries : list (Z * Z))
      (rest : list Z) :
  Forall well_formed_entry entries ->
  _pdol cc = {| size := len (flat_map encode_entry entries);
                data := flat_map encode_entry entries ++ rest |} ->
  pdol_tags cc = Ok (total_length entries, entries).
Proof.
  intros Hwf Hpdol. unfold pdol_tags. rewrite Hpdol. cbn [size data].
  pose proof (pdol_loop_encoded entries [] rest 0 [] (Z.to_nat
                (len (flat_map encode_entry entries))) Hwf) as H.
  cbn [app len List.length] in H. change (Z.of_nat 0) with 0 in H.
  rewrite !Z.add_0_l in H. apply H. apply encoding_length.
Qed.

(** X4: the parser of [getProcessingOptions] reads back any well-formed
    PDOL: for a list of (tag, length) pairs written tag first (two-byte tags
    with their high byte 0x5F, 0x9F or 0xBF first) and length after, it
    returns the pairs in their order, and [pdol_response_len] is the sum of
    their lengths. *)
Theorem pdol_tags_decodes_encoding (cc : CCInfo) (entries : list (Z * Z))
        (rest : list Z) :
  Forall well_formed_entry entries ->
  _pdol cc = {| size := len (flat_map encode_entry entries);
                data := flat_map encode_entry entries ++ rest |} ->
  pdol_tags cc = Ok (total_length entries, entries).
Proof. apply pdol_tags_encoded. Qed.

(** ** Processing options: the command and the result *)


Section OptionsMore.

Variable cfg : Config.
Variable card : list (list Z) -> Z * list Z.



(** X6: when every tag of the PDOL has a canned value, the transport
    respects the capacity of the receive buffer and the command fits a
    frame, [getProcessingOptions] sends exactly one command, the one it
    built, and returns 0 if the reply ends in 0x90 0x00 and 1 otherwise. *)
Theorem getProcessingOptions_result
        (h : Helper) (cc : CCInfo) (total : Z) (tagList : list (Z * Z)) :
  pdol_tags cc = Ok (total, tagList) -> Forall known tagList ->
  len (GPO_HEADER cfg) + total + 4 <= MAX_FRAME_LEN cfg ->
  card_fits cfg card -> len (abtRx h) = MAX_FRAME_LEN cfg ->
  exists code h',
    getProcessingOptions cfg card h cc = Ok (code, h')
    /\ sent h' = sent h
                 ++ [GPO_HEADER cfg ++ [wrap8 (total + 2); 0x83; wrap8 total]
                       ++ flat_map substitution tagList ++ [0]]
    /\ (code = 0 \/ code = 1)
    /\ (code = 0 <-> 0 <= szRx h' /\ ends_9000 (reply h')).
Proof.
  intros Hpdol Hknown Hcap Hcard Hbuf.
  destruct (gpo_command_bytes cfg cc total tagList Hpdol Hknown Hcap)
    as (gpo & Hgpo & Hsize & Hdata).
  unfold getProcessingOptions. rewrite Hgpo. cbn [bind].
  rewrite Hsize, slice_all. cbn [bind]. rewrite Hdata.
  set (command := GPO_HEADER cfg ++ _).
  set (h' := transceive card h command).
  assert (Hfit : szRx h' <= len (abtRx h))
    by (unfold h'; rewrite transceive_szRx, Hbuf; apply Hcard).
  assert (Hlen : szRx h' <= len (abtRx h'))
    by (unfold h'; now rewrite transceive_len).
  assert (Hsent : sent h' = sent h ++ [command])
    by (unfold h'; apply transceive_sent).
  destruct (Z.ltb_spec (szRx h') 0) as [Hneg | Hpos].
  - rewrite executeCommand_failure by (fold h'; auto). cbn [bind].
    exists 1, h'. cbn. repeat split; auto; try lia; try discriminate.
  - destruct (checkTrailer_spec h' Hlen) as [(_ & Hge & Hgood) | (_ & Hbad)].
    + rewrite executeCommand_success by (fold h'; auto; lia).
      cbn [bind size]. fold h'.
      destruct (Z.eqb_spec (szRx h' - 1) 0); [lia |].
      exists 0, h'. repeat split; auto.
    + rewrite executeCommand_failure by (fold h'; auto). cbn [bind].
      exists 1, h'. cbn. repeat split; auto; try discriminate.
      intros [_ Hgood]. contradiction.
Qed.

End OptionsMore.

(** ** Text output *)

Lemma append_assoc' (a b c : string) : (a +++ b) +++ c = a +++ b +++ c.
Proof. induction a as [| x a IH]; cbn; [reflexivity | now rewrite IH]. Qed.

Lemma nibble_join (x y : Z) :
  0 <= x < 256 -> 0 <= y < 256 ->
  Z.lor (wrap8 (Z.shiftl x 4)) (Z.shiftr y 4) = 16 * (x mod 16) + y / 16.
Proof.
  intros Hx Hy. unfold wrap8.
  rewrite Z.shiftl_mul_pow2, Z.shiftr_div_pow2 by lia.
  change (2 ^ 4) with 16. change 256 with (16 * 16).
  rewrite Zmult_mod_distr_r.
  replace (x mod 16 * 16) with (Z.shiftl (x mod 16) 4)
    by (rewrite Z.shiftl_mul_pow2 by lia; reflexivity).
  rewrite lor_shiftl.
  - change (2 ^ 4) with 16. lia.
  - lia.
  - change (2 ^ 4) with 16. split.
    + apply Z.div_pos; lia.
    + apply Z.div_lt_upper_bound; lia.
Qed.

(** X7: [printTracksInfo] writes the first eight bytes of the track 2 in
    hexadecimal, a space after every second one, and takes the expiry date
    from the four nibbles that follow the separator nibble: the year is the
    low nibble of byte 8 and the high nibble of byte 9, the month the low
    nibble of byte 9 and the high nibble of byte 10. *)
Theorem printTracksInfo_nibbles
        (cc : CCInfo) (b0 b1 b2 b3 b4 b5 b6 b7 b8 b9 b10 : Z) (tail : list Z) :
  0 <= b8 < 256 -> 0 <= b9 < 256 -> 0 <= b10 < 256 ->
  printTracksInfo
    (with_track2 cc ([b0; b1; b2; b3; b4; b5; b6; b7; b8; b9; b10] ++ tail))
  = Ok ("PAN: " +++ HEX b0 +++ HEX b1 +++ " " +++ HEX b2 +++ HEX b3 +++ " "
          +++ HEX b4 +++ HEX b5 +++ " " +++ HEX b6 +++ HEX b7 +++ " " +++ endl
          +++ "Expiry date: " +++ HEX (16 * (b9 mod 16) + b10 / 16)
          +++ "/20" +++ HEX (16 * (b8 mod 16) + b9 / 16) +++ endl).
Proof.
  intros H8 H9 H10. unfold printTracksInfo, with_track2.
  cbn [set_track2 _track2EquivalentData data].
  set (buff := [b0; b1; b2; b3; b4; b5; b6; b7; b8; b9; b10] ++ tail).
  assert (Hpan : pan_loop buff "PAN: "
                 = Ok ("PAN: " +++ HEX b0 +++ HEX b1 +++ " " +++ HEX b2
                         +++ HEX b3 +++ " " +++ HEX b4 +++ HEX b5 +++ " "
                         +++ HEX b6 +++ HEX b7 +++ " ")).
  { unfold pan_loop, buff. cbv -[hex_digit Z.div Z.modulo]. reflexivity. }
  rewrite Hpan. cbn [bind].
  change (rd buff 8) with (Ok (A := Z) b8). cbn [bind].
  change (rd buff (8 + 1)) with (Ok (A := Z) b9). cbn [bind].
  change (rd buff (8 + 1 + 1)) with (Ok (A := Z) b10). cbn [bind].
  rewrite !nibble_join by assumption.
  rewrite !append_assoc'. reflexivity.
Qed.





(** ** Record extractor: the fields of a record *)

Section RecordFields.

Variable cfg : Config.

Lemma record_body_other_byte (buff : list Z) (size_ i b b1 : Z) (cc : CCInfo) :
  rd buff i = Ok b -> rd buff (i + 1) = Ok b1 ->
  b <> 0x57 -> (b = 0x5F -> b1 <> 0x20) -> (b = 0x9F -> b1 <> 0x1F) ->
  record_body cfg buff size_ i cc = Ok (i, cc).
Proof.
  intros Hb Hb1 H57 H5F H9F. unfold record_body. rewrite Hb. cbn [bind].
  apply Z.eqb_neq in H57. rewrite H57. cbn [andb].
  destruct (Z.eqb_spec b 0x5F) as [E5 | N5].
  - assert (N9 : (b =? 0x9F) = false) by (subst b; reflexivity).
    rewrite N9, !andb_false_r. rewrite andb_true_r.
    destruct (i + 1 <? size_); [| reflexivity].
    rewrite Hb1. cbn [bind].
    destruct (Z.eqb_spec b1 0x20); [now destruct (H5F E5) | reflexivity].
  - rewrite andb_false_r.
    destruct ((i + 1 <? size_) && (size (_track1DiscretionaryData cc) =? 0)
              && (b =? 0x9F)) eqn:Ht; [| reflexivity].
    apply andb_prop in Ht. destruct Ht as [_ E9]. apply Z.eqb_eq in E9.
    rewrite Hb1. cbn [bind].
    destruct (Z.eqb_spec b1 0x1F); [now destruct (H9F E9) | reflexivity].
Qed.

Lemma slice_middle (pre mid post : list Z) :
  slice (pre ++ mid ++ post) (len pre) (len mid) = Ok mid.
Proof.
  unfold slice. pose proof (len_nonneg pre). pose proof (len_nonneg mid).
  pose proof (len_nonneg post). rewrite !len_app.
  destruct (Z.leb_spec 0 (len pre)); [| lia].
  destruct (Z.leb_spec 0 (len mid)); [| lia].
  destruct (Z.leb_spec (len pre + len mid) (len pre + (len mid + len post)));
    [| lia].
  cbn [andb]. f_equal. unfold len. rewrite !Nat2Z.id.
  rewrite skipn_app, skipn_all, Nat.sub_diag. cbn [skipn app].
  rewrite firstn_app, firstn_all, Nat.sub_diag. cbn [firstn].
  apply app_nil_r.
Qed.

(** X10: a record that opens with the template byte 0x70 and a length
    byte [L] other than 0x57, and then holds the track 2 (tag 0x57, length
    [n > 0], [n] bytes that fit a frame), scanned while no track 2 is
    stored: every scan that completes leaves exactly these [n] bytes as the
    track 2, whatever follows them in the record.  The length byte is
    itself compared with the tag 0x57, hence the condition on [L]. *)
Theorem scan_record_stores_track2
        (cc cc' : CCInfo) (L : Z) (t2 post : list Z) :
  size (_track2EquivalentData cc) = 0 ->
  L <> 0x57 -> 0 < len t2 <= MAX_FRAME_LEN cfg ->
  scan_record cfg
    {| size := len ([0x70; L; 0x57; len t2] ++ t2 ++ post);
       data := [0x70; L; 0x57; len t2] ++ t2 ++ post |} cc = Ok cc' ->
  size (_track2EquivalentData cc') = len t2
  /\ payload (_track2EquivalentData cc') = t2.
Proof.
  intros Hempty HL Hn Hscan. unfold scan_record in Hscan. cbn [size data] in Hscan.
  set (buf := [0x70; L; 0x57; len t2] ++ t2 ++ post) in *.
  assert (Hsize : len buf = 4 + len t2 + len post)
    by (unfold buf; rewrite !len_app; change (len [0x70; L; 0x57; len t2]) with 4;
        lia).
  pose proof (len_nonneg post) as Hpost.
  set (stored := {| size := len t2;
                    data := t2 ++ skipn (Z.to_nat 0 + List.length t2)
                                        (data (_track2EquivalentData cc)) |}).
  rewrite (for_loop_unroll _ _ _ 0 0 cc cc) in Hscan; [| lia | lia |].
  2:{ apply (record_body_other_byte _ _ _ 0x70 L); try reflexivity;
        intros; discriminate. }
  rewrite (for_loop_unroll _ _ _ (0 + 1) (0 + 1) cc cc) in Hscan;
    [| lia | lia |].
  2:{ apply (record_body_other_byte _ _ _ L 0x57); try reflexivity;
        try assumption; intros; discriminate. }
  rewrite (for_loop_unroll _ _ _ (0 + 1 + 1) (2 + 2 + (len t2 - 1)) cc
             (set_track2 cc stored)) in Hscan; [| lia | lia |].
  2:{ unfold record_body.
      change (rd buf (0 + 1 + 1)) with (Ok (A := Z) 0x57). cbn [bind].
      rewrite Hempty. cbn [andb Z.eqb].
      change (rd buf (0 + 1 + 1 + 1)) with (Ok (A := Z) (len t2)).
      cbn [bind]. unfold memcpy.
      change (0 + 1 + 1 + 2) with (len [0x70; L; 0x57; len t2]).
      unfold buf. rewrite slice_middle. cbn [bind]. unfold blit.
      pose proof (len_nonneg (data (_track2EquivalentData cc))).
      destruct (Z.leb_spec 0 0); [| lia].
      destruct (Z.leb_spec 0 (len (data (_track2EquivalentData cc)))); [| lia].
      destruct (Z.leb_spec (0 + len t2) (MAX_FRAME_LEN cfg)); [| lia].
      cbn [andb firstn Z.to_nat app]. reflexivity. }
  apply (for_loop_invariant
           (fun c => _track2EquivalentData c = stored) _ _) in Hscan.
  - rewrite Hscan. split; [reflexivity |].
    unfold payload, stored. cbn [size data]. unfold len. rewrite Nat2Z.id.
    rewrite firstn_app, firstn_all, Nat.sub_diag. cbn [firstn].
    apply app_nil_r.
  - intros i s i' s' Hbody Hs. rewrite <- Hs.
    eapply record_body_track2; [exact Hbody |]. rewrite Hs. cbn [stored size].
    lia.
  - reflexivity.
Qed.

(** X11: a record that is a cardholder name (tag 0x5F 0x20) of at most two
    bytes, the placeholder "/", changes nothing; a longer name is copied
    over the start of [_cardholderName], whose cells after the name keep
    what they held. *)
Theorem scan_record_cardholder_name (cc : CCInfo) (nm : list Z) :
  len nm <= CARDHOLDER_SIZE cfg ->
  scan_record cfg {| size := len ([0x5F; 0x20; len nm] ++ nm);
                     data := [0x5F; 0x20; len nm] ++ nm |} cc
  = Ok (if 2 <? len nm
        then set_cardholderName cc
               (nm ++ skipn (List.length nm) (_cardholderName cc))
        else cc).
Proof.
  intros Hcap. unfold scan_record. cbn [size data].
  set (buf := [0x5F; 0x20; len nm] ++ nm).
  pose proof (len_nonneg nm) as Hnm.
  assert (Hsize : len buf = 3 + len nm)
    by (unfold buf; rewrite len_app; change (len [0x5F; 0x20; len nm]) with 3;
        lia).
  rewrite (for_loop_unroll _ _ _ 0 (0 + 3 + (len nm - 1)) cc
             (if 2 <? len nm
              then set_cardholderName cc
                     (nm ++ skipn (List.length nm) (_cardholderName cc))
              else cc)); [| lia | lia |].
  - apply for_loop_exit. lia.
  - unfold record_body.
    change (rd buf 0) with (Ok (A := Z) 0x5F). cbn [bind Z.eqb andb].
    destruct (Z.ltb_spec (0 + 1) (len buf)) as [_ | Hshort]; [| lia].
    cbn [andb]. change (rd buf (0 + 1)) with (Ok (A := Z) 0x20).
    cbn [bind Z.eqb]. change (rd buf (0 + 2)) with (Ok (A := Z) (len nm)).
    cbn [bind].
    destruct (Z.ltb_spec 2 (len nm)) as [Hlong | Hplaceholder];
      [| reflexivity].
    assert (Hslice : slice buf (0 + 3) (len nm) = Ok nm).
    { pose proof (slice_middle [0x5F; 0x20; len nm] nm []) as H.
      rewrite app_nil_r in H. exact H. }
    unfold memcpy. rewrite Hslice.
    cbn [bind]. unfold blit.
    pose proof (len_nonneg (_cardholderName cc)).
    destruct (Z.leb_spec 0 0); [| lia].
    destruct (Z.leb_spec 0 (len (_cardholderName cc))); [| lia].
    destruct (Z.leb_spec (0 + len nm) (CARDHOLDER_SIZE cfg)); [| lia].
    cbn [andb firstn Z.to_nat app bind]. reflexivity.
Qed.

End RecordFields.

(** ** Application discovery: how many applications *)

Lemma for_loop_indexed {T : Type} (Q : Z -> T -> Prop) (bound : Z)
      (body : Z -> T -> res (Z * T)) :
  (forall i s i' s',
      i < bound -> body i s = Ok (i', s') -> Q i s -> Q (i' + 1) s') ->
  forall fuel i s s',
    for_loop fuel bound body i s = Ok s' -> Q i s ->
    exists k, Q k s'.
Proof.
  intros Hbody. induction fuel as [| fuel IH]; intros i s s'; cbn [for_loop];
    destruct (Z.ltb_spec i bound) as [Hlt | Hge];
    try discriminate; try (intros [= <-]; eauto).
  destruct (body i s) as [[i1 s1] | e] eqn:Hb; [| discriminate].
  intros Hloop Hq. eapply IH; [exact Hloop |]. eapply Hbody; eauto.
Qed.

Lemma count_skipn_le (l : list Z) (a b : nat) :
  (a <= b)%nat ->
  (count_0x61 (skipn b l)
   <= count_0x61 (skipn a l))%nat.
Proof.
  unfold count_0x61.
  revert a b. induction l as [| x l IH]; intros a b Hab.
  - now rewrite !skipn_nil.
  - destruct a as [| a].
    + destruct b as [| b]; [lia |]. cbn [skipn].
      specialize (IH 0%nat b). cbn [skipn] in IH.
      cbn [count_occ]. destruct (Z.eq_dec x 0x61); [| apply IH; lia].
      etransitivity; [apply IH; lia | lia].
    + destruct b as [| b]; [lia |]. cbn [skipn]. apply IH. lia.
Qed.

Lemma count_skipn_hit (l : list Z) (i : nat) :
  (i < List.length l)%nat -> nth i l 0 = 0x61 ->
  count_0x61 (skipn i l)
  = S (count_0x61 (skipn (S i) l)).
Proof.
  unfold count_0x61.
  revert i. induction l as [| x l IH]; intros i Hi Hnth; cbn in Hi; [lia |].
  destruct i as [| i].
  - cbn in Hnth. subst x. cbn [skipn count_occ].
    destruct (Z.eq_dec 0x61 0x61); [reflexivity | contradiction].
  - cbn [skipn nth] in *. apply IH; [lia | exact Hnth].
Qed.

Section DiscoveryCount.

Variable cfg : Config.
Variable card : list (list Z) -> Z * list Z.

Lemma template_body_advances (buf : list Z) (i i' : Z) (a a' : Application) :
  Forall (fun x => 0 <= x) buf ->
  template_body cfg buf i a = Ok (i', a') -> i + 1 <= i'.
Proof.
  intros Hbuf Hbody. unfold template_body in Hbody.
  apply bind_Ok in Hbody. destruct Hbody as (b & Hb & Hbody).
  apply bind_Ok in Hbody. destruct Hbody as ([i1 a1] & Hfirst & Hbody).
  assert (H1 : i <= i1).
  { destruct (b =? 0x4F).
    - apply bind_Ok in Hfirst. destruct Hfirst as (l & Hl & Hfirst).
      apply bind_Ok in Hfirst. destruct Hfirst as (d & _ & Hfirst).
      injection Hfirst as <- _. apply (rd_nonneg _ _ _ Hbuf) in Hl. lia.
    - injection Hfirst as <- _. lia. }
  apply bind_Ok in Hbody. destruct Hbody as (b' & Hb' & Hbody).
  apply bind_Ok in Hbody. destruct Hbody as ([i2 a2] & Hsecond & Hbody).
  assert (H2 : i1 <= i2).
  { destruct (b' =? 0x87).
    - apply bind_Ok in Hsecond. destruct Hsecond as (p & _ & Hsecond).
      injection Hsecond as <- _. lia.
    - injection Hsecond as <- _. lia. }
  cbv zeta in Hbody.
  apply bind_Ok in Hbody. destruct Hbody as (b'' & Hb'' & Hbody).
  destruct (b'' =? 0x50).
  - apply bind_Ok in Hbody. destruct Hbody as (l & Hl & Hbody).
    apply bind_Ok in Hbody. destruct Hbody as (d & _ & Hbody).
    apply bind_Ok in Hbody. destruct Hbody as (d' & _ & Hbody).
    injection Hbody as <- _. apply (rd_nonneg _ _ _ Hbuf) in Hl. lia.
  - injection Hbody as <- _. lia.
Qed.

Lemma template_loop_advances (buf : list Z) (bound : Z) (fuel : nat) :
  forall i i' a a',
    Forall (fun x => 0 <= x) buf ->
    template_loop cfg fuel buf bound i a = Ok (i', a') -> i <= i'.
Proof.
  induction fuel as [| fuel IH]; intros i i' a a' Hbuf Hloop;
    cbn [template_loop] in Hloop;
    destruct (i <? bound); try (injection Hloop as <- _; lia);
    apply bind_Ok in Hloop; destruct Hloop as (b & Hb & Hloop);
    destruct (b =? 0x61); try (injection Hloop as <- _; lia);
    try discriminate.
  apply bind_Ok in Hloop. destruct Hloop as ([i1 a1] & Hbody & Hloop).
  apply template_body_advances in Hbody; [| assumption].
  apply IH in Hloop; [| assumption]. lia.
Qed.

(** X12: [getAll] sends the directory selection and nothing else, and it
    never returns more applications than the reply holds bytes 0x61: every
    application comes from a byte 0x61 of its own. *)
Theorem getAll_at_most_one_per_0x61 (h h' : Helper) (list : AppList) :
  getAll cfg card h = Ok (list, h') ->
  Forall (fun x => 0 <= x) (abtRx h') ->
  sent h' = sent h ++ [SELECT_PPSE cfg]
  /\ (List.length list <= count_0x61 (reply h'))%nat.
Proof.
  unfold getAll. intros Hrun Hbuf.
  apply bind_Ok in Hrun. destruct Hrun as ([r h1] & Hexec & Hrun).
  pose proof (executeCommand_helper cfg card _ _ _ _ Hexec) as Hh1.
  assert (Hsent : sent h1 = sent h ++ [SELECT_PPSE cfg])
    by (rewrite Hh1; apply transceive_sent).
  destruct (size r =? 0).
  { injection Hrun as <- <-. split; [exact Hsent | cbn; lia]. }
  apply bind_Ok in Hrun. destruct Hrun as (l & Hloop & Hrun).
  injection Hrun as <- <-. split; [exact Hsent |].
  set (Q := fun (i : Z) (l : AppList) =>
              0 <= i /\
              (List.length l
               + count_0x61 (skipn (Z.to_nat i) (reply h1))
               <= count_0x61 (reply h1))%nat).
  assert (Hstep : forall i s i' s',
             i < szRx h1 ->
             getAll_body cfg (abtRx h1) (szRx h1) i s = Ok (i', s') ->
             Q i s -> Q (i' + 1) s').
  { intros i s i' s' Hi Hbody [Hpos Hq]. unfold getAll_body in Hbody.
    apply bind_Ok in Hbody. destruct Hbody as (b & Hb & Hbody).
    destruct (Z.eqb_spec b 0x61) as [E | N].
    + apply bind_Ok in Hbody. destruct Hbody as ([i1 a1] & Htpl & Hbody).
      injection Hbody as <- <-.
      apply template_loop_advances in Htpl; [| assumption].
      apply rd_inv in Hb. destruct Hb as [Hrange Hnth].
      assert (Hlt : (Z.to_nat i < List.length (reply h1))%nat).
      { unfold reply. rewrite length_firstn. unfold len in Hrange. lia. }
      assert (Hhit : nth (Z.to_nat i) (reply h1) 0 = 0x61).
      { unfold reply. rewrite nth_firstn.
        destruct (Nat.ltb_spec (Z.to_nat i) (Z.to_nat (szRx h1))); [| lia].
        congruence. }
      pose proof (count_skipn_hit _ _ Hlt Hhit) as Hcount.
      pose proof (count_skipn_le (reply h1) (S (Z.to_nat i))
                    (Z.to_nat (i1 - 1 + 1))) as Hmono.
      split; [lia |]. rewrite length_app. cbn [List.length].
      assert ((S (Z.to_nat i) <= Z.to_nat (i1 - 1 + 1))%nat) by lia. lia.
    + injection Hbody as <- <-.
      pose proof (count_skipn_le (reply h1) (Z.to_nat i)
                    (Z.to_nat (i + 1))) as Hmono.
      split; [lia |]. assert ((Z.to_nat i <= Z.to_nat (i + 1))%nat) by lia.
      lia. }
  destruct (for_loop_indexed Q _ _ Hstep _ _ _ _ Hloop) as [k [_ Hk]].
  - split; [lia |]. change (Z.to_nat 0) with 0%nat.
    cbn [List.length skipn]. lia.
  - lia.
Qed.

End DiscoveryCount.

(** ** Application data *)

Lemma rd_split (buf pre post : list Z) (x k : Z) :
  buf = pre ++ x :: post -> k = len pre -> rd buf k = Ok x.
Proof. intros -> ->. now rewrite rd_app_r0. Qed.

Lemma slice_split (buf pre mid post : list Z) (k n : Z) :
  buf = pre ++ mid ++ post -> k = len pre -> n = len mid ->
  slice buf k n = Ok mid.
Proof. intros -> -> ->. apply slice_middle. Qed.

Lemma blit_start (cap : Z) (dst src : list Z) :
  len src <= cap ->
  blit cap dst 0 src = Ok (src ++ skipn (List.length src) dst).
Proof.
  intros Hcap. unfold blit.
  pose proof (len_nonneg dst). pose proof (len_nonneg src).
  destruct (Z.leb_spec 0 0); [| lia].
  destruct (Z.leb_spec 0 (len dst)); [| lia].
  destruct (Z.leb_spec (0 + len src) cap); [| lia].
  reflexivity.
Qed.




Section AppResponse.

Variable cfg : Config.
Variable lang_size : Z.






(** No call of [extractAppResponse] returns a value. *)
Lemma extractAppResponse_never_returns
      (app : Application) (appResponse : APDU) (st : CCInfoApp)
      (v : Z * CCInfoApp) :
  extractAppResponse cfg lang_size app appResponse st <> Ok v.
Proof.
  unfold extractAppResponse.
  destruct (extractAppResponse_body cfg lang_size app appResponse st);
    discriminate.
Qed.




End AppResponse.

(** ** One application template *)

Ltac len_calc := unfold len in *; rewrite ?length_app; cbn [List.length]; lia.

Ltac reshape :=
  repeat first [rewrite <- app_assoc | progress cbn [app]]; reflexivity.

Lemma skipn_cons_nth (l : list Z) (k : nat) :
  (k < List.length l)%nat -> skipn k l = nth k l 0 :: skipn (S k) l.
Proof.
  revert k. induction l as [| x l IH]; intros k Hk; cbn [List.length] in Hk.
  - lia.
  - destruct k as [| k]; [reflexivity |]. cbn [skipn nth].
    apply IH. lia.
Qed.

Section OneTemplate.

Variable cfg : Config.
Variable card : list (list Z) -> Z * list Z.

Lemma transceive_buffer (h : Helper) (command rx : list Z) (n : Z) :
  card (sent h ++ [command]) = (n, rx) -> len rx <= len (abtRx h) ->
  abtRx (transceive card h command)
  = rx ++ skipn (List.length rx) (abtRx h).
Proof.
  intros Hcard Hlen. unfold transceive. rewrite Hcard. cbn [abtRx].
  apply firstn_all2. rewrite length_app, length_skipn. unfold len in Hlen. lia.
Qed.

Lemma template_loop_step (fuel : nat) (buf : list Z) (bound i b i' : Z)
      (app app' : Application) :
  i < bound -> rd buf i = Ok b -> b <> 0x61 ->
  template_body cfg buf i app = Ok (i', app') ->
  template_loop cfg (S fuel) buf bound i app
  = template_loop cfg fuel buf bound i' app'.
Proof.
  intros Hi Hb Hne Hbody. cbn [template_loop].
  destruct (Z.ltb_spec i bound); [| lia].
  rewrite Hb. cbn [bind]. destruct (Z.eqb_spec b 0x61); [contradiction |].
  rewrite Hbody. reflexivity.
Qed.

Lemma template_loop_end (fuel : nat) (buf : list Z) (bound i : Z)
      (app : Application) :
  bound <= i -> template_loop cfg fuel buf bound i app = Ok (i, app).
Proof.
  intros Hi. destruct fuel; cbn [template_loop];
    destruct (Z.ltb_spec i bound); try reflexivity; lia.
Qed.

(** A pass of the loop over a byte that is no tag, when the byte after it
    is not the tag of the label. *)
Lemma template_body_plain (buf : list Z) (i b c : Z) (app : Application) :
  rd buf i = Ok b -> b <> 0x4F -> b <> 0x87 ->
  rd buf (i + 1) = Ok c -> c <> 0x50 ->
  template_body cfg buf i app = Ok (i + 1, app).
Proof.
  intros Hb H4F H87 Hc H50. unfold template_body.
  rewrite Hb. cbn [bind]. destruct (Z.eqb_spec b 0x4F); [contradiction |].
  cbn [bind]. rewrite Hb. cbn [bind].
  destruct (Z.eqb_spec b 0x87); [contradiction |].
  cbn [bind]. rewrite Hc. cbn [bind].
  destruct (Z.eqb_spec c 0x50); [contradiction |]. reflexivity.
Qed.

(** A pass of the loop over the priority indicator. *)
Lemma template_body_priority (buf : list Z) (i p c : Z) (app : Application) :
  rd buf i = Ok 0x87 -> rd buf (i + 2) = Ok p ->
  rd buf (i + 2 + 1) = Ok c -> c <> 0x50 ->
  template_body cfg buf i app
  = Ok (i + 2 + 1,
        {| priority := Some p; aid := aid app; name := name app |}).
Proof.
  intros Hb Hp Hc H50. unfold template_body.
  rewrite Hb. cbn [bind]. change (0x87 =? 0x4F) with false. cbv iota.
  cbn [bind]. rewrite Hb. cbn [bind]. change (0x87 =? 0x87) with true.
  cbv iota. rewrite Hp. cbn [bind]. rewrite Hc. cbn [bind].
  destruct (Z.eqb_spec c 0x50); [contradiction |]. reflexivity.
Qed.

(** A pass of the loop over the identifier, with the label right after
    it. *)
Lemma template_body_aid_label (buf : list Z) (i az : Z) (id label : list Z)
      (app : Application) :
  aid app = [] -> name app = [] ->
  rd buf i = Ok 0x4F -> rd buf (i + 1) = Ok (len id) ->
  slice buf (i + 2) (len id) = Ok id ->
  len id <= AID_SIZE cfg ->
  rd buf (i + 2 + (len id - 1)) = Ok az -> az <> 0x87 ->
  rd buf (i + 2 + (len id - 1) + 1) = Ok 0x50 ->
  rd buf (i + 2 + (len id - 1) + 1 + 1) = Ok (len label) ->
  slice buf (i + 2 + (len id - 1) + 1 + 2) (len label) = Ok label ->
  len label < NAME_SIZE cfg ->
  template_body cfg buf i app
  = Ok (i + 2 + (len id - 1) + 1 + 2 + (len label - 1),
        {| priority := priority app; aid := id; name := label ++ [0] |}).
Proof.
  intros Haid Hname H4F Hl Hid Hcap Haz H87 H50 Hn Hlabel Hcapn.
  unfold template_body.
  rewrite H4F. cbn [bind]. change (0x4F =? 0x4F) with true. cbv iota.
  rewrite Hl. cbn [bind]. unfold memcpy at 1. rewrite Hid. cbn [bind].
  rewrite Haid, blit_start by assumption.
  rewrite skipn_nil, app_nil_r. cbn [bind].
  rewrite Haz. cbn [bind]. destruct (Z.eqb_spec az 0x87); [contradiction |].
  cbn [bind]. rewrite H50. cbn [bind]. change (0x50 =? 0x50) with true.
  cbv iota. rewrite Hn. cbn [bind]. unfold memcpy. rewrite Hlabel.
  cbn [bind name]. rewrite Hname, blit_start by lia.
  rewrite skipn_nil, app_nil_r. cbn [bind].
  unfold wr. rewrite blit_end by (change (len [0]) with 1; lia).
  reflexivity.
Qed.

(** X16: a directory reply with one application template in the order
    identifier, label, priority gives one application, with these three
    values and the label closed by a zero byte, when the bytes that the
    cursor of [getAll] stops on are no tags: the length of the template,
    the last byte of the identifier (against 0x87), the last byte of the
    label, and the cell of the receive buffer after the reply, which the
    loop compares with 0x50. *)
Theorem getAll_one_template
        (h : Helper) (b0 L az nz prio : Z) (a n : list Z) :
  card (sent h ++ [SELECT_PPSE cfg])
  = (len (directory_reply b0 L (a ++ [az]) (n ++ [nz]) prio),
     directory_reply b0 L (a ++ [az]) (n ++ [nz]) prio) ->
  len (directory_reply b0 L (a ++ [az]) (n ++ [nz]) prio) < len (abtRx h) ->
  len (directory_reply b0 L (a ++ [az]) (n ++ [nz]) prio) - 1
  <= MAX_FRAME_LEN cfg ->
  nth (List.length (directory_reply b0 L (a ++ [az]) (n ++ [nz]) prio))
      (abtRx h) 0 <> 0x50 ->
  b0 <> 0x61 -> L <> 0x61 -> L <> 0x4F -> L <> 0x87 ->
  len (a ++ [az]) <= AID_SIZE cfg -> az <> 0x87 ->
  len (n ++ [nz]) < NAME_SIZE cfg ->
  nz <> 0x61 -> nz <> 0x4F -> nz <> 0x87 ->
  getAll cfg card h
  = Ok ([ {| priority := Some prio; aid := a ++ [az];
             name := (n ++ [nz]) ++ [0] |} ],
        transceive card h (SELECT_PPSE cfg)).
Proof.
  intros Hcard Hroom Hframe Hstale Hb0 HL61 HL4F HL87 Haid Haz Hname
         Hnz61 Hnz4F Hnz87.
  set (rx := directory_reply b0 L (a ++ [az]) (n ++ [nz]) prio) in *.
  pose proof (len_nonneg a) as Ha0. pose proof (len_nonneg n) as Hn0.
  set (h' := transceive card h (SELECT_PPSE cfg)).
  set (s0 := nth (List.length rx) (abtRx h) 0) in *.
  set (stale := skipn (S (List.length rx)) (abtRx h)).
  assert (Hrx : len rx = 12 + len a + 1 + len n + 1).
  { unfold rx, directory_reply. len_calc. }
  assert (Hsz : szRx h' = len rx).
  { unfold h'. rewrite transceive_szRx, Hcard. reflexivity. }
  assert (Hbuf : abtRx h' = rx ++ s0 :: stale).
  { unfold h'. rewrite (transceive_buffer h _ rx (len rx) Hcard) by lia.
    f_equal. apply skipn_cons_nth. unfold len in Hroom. lia. }
  assert (Hreply : reply h' = rx).
  { unfold reply. rewrite Hsz, Hbuf. unfold len. rewrite Nat2Z.id.
    rewrite firstn_app, firstn_all, Nat.sub_diag. cbn [firstn].
    apply app_nil_r. }
  assert (Hexec : executeCommand cfg card h (SELECT_PPSE cfg)
                  = Ok ({| size := szRx h' - 1; data := tl (reply h') |}, h')).
  { apply executeCommand_success.
    - fold h'. lia.
    - fold h'. lia.
    - fold h'. pose proof (len_nonneg rx). lia.
    - fold h'. rewrite Hreply.
      exists ([b0; 0x61; L; 0x4F; len (a ++ [az])] ++ (a ++ [az])
                ++ [0x50; len (n ++ [nz])] ++ (n ++ [nz])
                ++ [0x87; 0x01; prio]).
      unfold rx, directory_reply. reshape. }
  unfold getAll. rewrite Hexec. cbn [bind size].
  destruct (Z.eqb_spec (szRx h' - 1) 0) as [He | _]; [lia |].
  rewrite Hsz, Hbuf.
  set (buf := rx ++ s0 :: stale).
  set (bound := len rx).
  set (id := a ++ [az]). set (label := n ++ [nz]).
  assert (Hid : len id = len a + 1) by (unfold id; len_calc).
  assert (Hlabel : len label = len n + 1) by (unfold label; len_calc).
  assert (S0 : buf = [b0; 0x61; L; 0x4F; len id] ++ id ++ [0x50; len label]
                       ++ label ++ [0x87; 0x01; prio; 0x90; 0x00]
                       ++ s0 :: stale).
  { unfold buf, rx, directory_reply. fold id. fold label. reshape. }
  assert (R0 : rd buf 0 = Ok b0) by (rewrite S0; reflexivity).
  assert (R1 : rd buf 1 = Ok 0x61) by (rewrite S0; reflexivity).
  assert (R2 : rd buf 2 = Ok L) by (rewrite S0; reflexivity).
  assert (R3 : rd buf 3 = Ok 0x4F) by (rewrite S0; reflexivity).
  assert (R4 : rd buf 4 = Ok (len id)) by (rewrite S0; reflexivity).
  assert (Rid : slice buf 5 (len id) = Ok id).
  { apply (slice_split _ [b0; 0x61; L; 0x4F; len id] id
                       ([0x50; len label] ++ label
                          ++ [0x87; 0x01; prio; 0x90; 0x00] ++ s0 :: stale));
      [exact S0 | reflexivity | reflexivity]. }
  assert (Raz : rd buf (4 + len id) = Ok az).
  { apply (rd_split _ ([b0; 0x61; L; 0x4F; len id] ++ a)
                    ([0x50; len label] ++ label
                       ++ [0x87; 0x01; prio; 0x90; 0x00] ++ s0 :: stale)).
    - rewrite S0. unfold id. reshape.
    - len_calc. }
  assert (R50 : rd buf (5 + len id) = Ok 0x50).
  { apply (rd_split _ ([b0; 0x61; L; 0x4F; len id] ++ id)
                    ([len label] ++ label
                       ++ [0x87; 0x01; prio; 0x90; 0x00] ++ s0 :: stale)).
    - rewrite S0. reshape.
    - len_calc. }
  assert (Rn : rd buf (6 + len id) = Ok (len label)).
  { apply (rd_split _ ([b0; 0x61; L; 0x4F; len id] ++ id ++ [0x50])
                    (label ++ [0x87; 0x01; prio; 0x90; 0x00] ++ s0 :: stale)).
    - rewrite S0. reshape.
    - len_calc. }
  assert (Rlabel : slice buf (7 + len id) (len label) = Ok label).
  { apply (slice_split _ ([b0; 0x61; L; 0x4F; len id] ++ id
                            ++ [0x50; len label]) label
                       ([0x87; 0x01; prio; 0x90; 0x00] ++ s0 :: stale)).
    - rewrite S0. reshape.
    - len_calc.
    - reflexivity. }
  assert (Rnz : rd buf (6 + len id + len label) = Ok nz).
  { apply (rd_split _ ([b0; 0x61; L; 0x4F; len id] ++ id
                         ++ [0x50; len label] ++ n)
                    ([0x87; 0x01; prio; 0x90; 0x00] ++ s0 :: stale)).
    - rewrite S0. unfold label. reshape.
    - len_calc. }
  assert (Rtail : forall (k : nat) (x : Z) (front back : list Z),
             [0x87; 0x01; prio; 0x90; 0x00; s0] = front ++ x :: back ->
             List.length front = k ->
             rd buf (7 + len id + len label + Z.of_nat k) = Ok x).
  { intros k x front back Hsplit Hk.
    apply (rd_split _ ([b0; 0x61; L; 0x4F; len id] ++ id
                         ++ [0x50; len label] ++ label ++ front)
                    (back ++ stale)).
    - rewrite S0.
      change ([0x87; 0x01; prio; 0x90; 0x00] ++ s0 :: stale)
        with ([0x87; 0x01; prio; 0x90; 0x00; s0] ++ stale).
      rewrite Hsplit. reshape.
    - subst k. len_calc. }
  assert (R87 : rd buf (7 + len id + len label) = Ok 0x87).
  { rewrite <- (Z.add_0_r (7 + len id + len label)).
    now apply (Rtail 0%nat _ [] [0x01; prio; 0x90; 0x00; s0]). }
  assert (Rp : rd buf (7 + len id + len label + 2) = Ok prio)
    by now apply (Rtail 2%nat _ [0x87; 0x01] [0x90; 0x00; s0]).
  assert (R90 : rd buf (7 + len id + len label + 3) = Ok 0x90)
    by now apply (Rtail 3%nat _ [0x87; 0x01; prio] [0x00; s0]).
  assert (R00 : rd buf (7 + len id + len label + 4) = Ok 0x00)
    by now apply (Rtail 4%nat _ [0x87; 0x01; prio; 0x90] [s0]).
  assert (Rs0 : rd buf (7 + len id + len label + 5) = Ok s0)
    by now apply (Rtail 5%nat _ [0x87; 0x01; prio; 0x90; 0x00] []).
  assert (Hbound : bound = 7 + len id + len label + 5) by (unfold bound; lia).
  (* the passes of the inner loop *)
  set (app1 := {| priority := None; aid := id; name := label ++ [0] |}).
  set (app2 := {| priority := Some prio; aid := id; name := label ++ [0] |}).
  assert (B1 : template_body cfg buf 2 Application_uninit
               = Ok (3, Application_uninit)).
  { apply (template_body_plain buf 2 L 0x4F); auto. discriminate. }
  assert (B2 : template_body cfg buf 3 Application_uninit
               = Ok (6 + len id + len label, app1)).
  { rewrite (template_body_aid_label buf 3 az id label Application_uninit);
      try reflexivity; try assumption.
    - unfold app1. do 2 f_equal. lia.
    - replace (3 + 2 + (len id - 1)) with (4 + len id) by lia. exact Raz.
    - replace (3 + 2 + (len id - 1) + 1) with (5 + len id) by lia. exact R50.
    - replace (3 + 2 + (len id - 1) + 1 + 1) with (6 + len id) by lia.
      exact Rn.
    - replace (3 + 2 + (len id - 1) + 1 + 2) with (7 + len id) by lia.
      exact Rlabel. }
  assert (B3 : template_body cfg buf (6 + len id + len label) app1
               = Ok (6 + len id + len label + 1, app1)).
  { apply (template_body_plain buf _ nz 0x87); auto.
    - replace (6 + len id + len label + 1) with (7 + len id + len label)
        by lia.
      exact R87.
    - discriminate. }
  assert (B4 : template_body cfg buf (7 + len id + len label) app1
               = Ok (7 + len id + len label + 2 + 1, app2)).
  { apply (template_body_priority buf _ prio 0x90 app1); auto.
    - replace (7 + len id + len label + 2 + 1)
        with (7 + len id + len label + 3) by lia.
      exact R90.
    - discriminate. }
  assert (B5 : template_body cfg buf (7 + len id + len label + 3) app2
               = Ok (7 + len id + len label + 3 + 1, app2)).
  { apply (template_body_plain buf _ 0x90 0x00); auto; try discriminate.
    replace (7 + len id + len label + 3 + 1)
      with (7 + len id + len label + 4) by lia.
    exact R00. }
  assert (B6 : template_body cfg buf (7 + len id + len label + 4) app2
               = Ok (7 + len id + len label + 4 + 1, app2)).
  { apply (template_body_plain buf _ 0x00 s0); auto; try discriminate.
    replace (7 + len id + len label + 4 + 1)
      with (7 + len id + len label + 5) by lia.
    exact Rs0. }
  assert (Hinner : template_loop cfg (Z.to_nat bound) buf bound (1 + 1)
                                 Application_uninit
                   = Ok (bound, app2)).
  { replace (Z.to_nat bound) with (6 + (Z.to_nat bound - 6))%nat by lia.
    cbn [Nat.add]. change (1 + 1) with 2.
    rewrite (template_loop_step _ buf bound 2 L 3 Application_uninit
               Application_uninit);
      [| lia | exact R2 | exact HL61 | exact B1].
    rewrite (template_loop_step _ buf bound 3 0x4F (6 + len id + len label)
               Application_uninit app1);
      [| lia | exact R3 | discriminate | exact B2].
    rewrite (template_loop_step _ buf bound _ nz (6 + len id + len label + 1)
               app1 app1);
      [| lia | exact Rnz | exact Hnz61 | exact B3].
    replace (6 + len id + len label + 1) with (7 + len id + len label) by lia.
    rewrite (template_loop_step _ buf bound _ 0x87
               (7 + len id + len label + 2 + 1) app1 app2);
      [| lia | exact R87 | discriminate | exact B4].
    replace (7 + len id + len label + 2 + 1)
      with (7 + len id + len label + 3) by lia.
    rewrite (template_loop_step _ buf bound _ 0x90
               (7 + len id + len label + 3 + 1) app2 app2);
      [| lia | exact R90 | discriminate | exact B5].
    replace (7 + len id + len label + 3 + 1)
      with (7 + len id + len label + 4) by lia.
    rewrite (template_loop_step _ buf bound _ 0x00
               (7 + len id + len label + 4 + 1) app2 app2);
      [| lia | exact R00 | discriminate | exact B6].
    replace (7 + len id + len label + 4 + 1) with bound by lia.
    apply template_loop_end. lia. }
  (* the outer loop *)
  rewrite (@for_loop_unroll AppList _ _ _ 0 0 [] []); [| lia | lia |].
  2:{ unfold getAll_body. rewrite R0. cbn [bind].
      destruct (Z.eqb_spec b0 0x61); [contradiction | reflexivity]. }
  rewrite (@for_loop_unroll AppList _ _ _ (0 + 1) (bound - 1) []
             ([] ++ [app2]));
    [| lia | lia |].
  2:{ unfold getAll_body. change (0 + 1) with 1. rewrite R1. cbn [bind].
      change (0x61 =? 0x61) with true. cbv iota.
      rewrite Hinner. reflexivity. }
  rewrite for_loop_exit by lia. reflexivity.
Qed.

End OneTemplate.

(** ** Instances of the further properties *)

Lemma nonneg_bytes (l : list Z) :
  forallb (fun x => 0 <=? x) l = true -> Forall (fun x => 0 <= x) l.
Proof.
  intros H. apply Forall_forall. intros x Hx.
  rewrite forallb_forall in H. apply Z.leb_le. now apply H.
Qed.

(** The reply 00 AA 90 00 after the directory selection. *)
Lemma executeCommand_empty_iff_failed_witness :
  exists r,
    executeCommand sample_cfg (answering [0x00; 0xAA; 0x90; 0x00])
                   (Helper_init sample_cfg) (SELECT_PPSE sample_cfg)
    = Ok (r, transceive (answering [0x00; 0xAA; 0x90; 0x00])
                        (Helper_init sample_cfg) (SELECT_PPSE sample_cfg))
    /\ (size r = 0 <->
        szRx (transceive (answering [0x00; 0xAA; 0x90; 0x00])
                         (Helper_init sample_cfg) (SELECT_PPSE sample_cfg)) < 0
        \/ checkTrailer
             (transceive (answering [0x00; 0xAA; 0x90; 0x00])
                         (Helper_init sample_cfg) (SELECT_PPSE sample_cfg))
           = Ok true)
    /\ (checkTrailer
          (transceive (answering [0x00; 0xAA; 0x90; 0x00])
                      (Helper_init sample_cfg) (SELECT_PPSE sample_cfg))
        = Ok true <->
        ~ ends_9000
            (reply (transceive (answering [0x00; 0xAA; 0x90; 0x00])
                               (Helper_init sample_cfg)
                               (SELECT_PPSE sample_cfg)))).
Proof.
  apply (executeCommand_empty_iff_failed
           sample_cfg (answering [0x00; 0xAA; 0x90; 0x00])
           (Helper_init sample_cfg) (SELECT_PPSE sample_cfg)).
  - vm_compute. discriminate.
  - vm_compute. discriminate.
Defined.

(** A card that refuses every read with 6A 83: the 31 x 16 reads are sent
    all the same. *)
Lemma extractBaseRecords_reads_every_record_witness :
  exists h' cc',
    extractBaseRecords sample_cfg (answering [0x00; 0x6A; 0x83])
                       (Helper_init sample_cfg) (CCInfo_init sample_cfg)
    = Ok (0, h', cc')
    /\ sent h' = base_read_commands sample_cfg.
Proof.
  destruct (extractBaseRecords sample_cfg (answering [0x00; 0x6A; 0x83])
              (Helper_init sample_cfg) (CCInfo_init sample_cfg))
    as [[[code h'] cc'] | e] eqn:Hrun.
  - destruct (extractBaseRecords_reads_every_record
                sample_cfg (answering [0x00; 0x6A; 0x83])
                (Helper_init sample_cfg) h'
                (CCInfo_init sample_cfg) cc' code) as [-> Hsent].
    + vm_compute. discriminate.
    + exact Hrun.
    + exists h', cc'. split; [reflexivity | exact Hsent].
  - vm_compute in Hrun. discriminate Hrun.
Defined.

(** A card that answers every read with a track 2: the PDOL and the log
    members are those of the start. *)
Lemma extractBaseRecords_keeps_options_and_log_witness :
  exists code h' cc',
    extractBaseRecords sample_cfg (answering sample_track2_reply)
                       (Helper_init sample_cfg) sample_log_cc
    = Ok (code, h', cc')
    /\ same_options_and_log sample_log_cc cc'.
Proof.
  destruct (extractBaseRecords sample_cfg (answering sample_track2_reply)
              (Helper_init sample_cfg) sample_log_cc)
    as [[[code h'] cc'] | e] eqn:Hrun.
  - exists code, h', cc'. split; [reflexivity |].
    exact (extractBaseRecords_keeps_options_and_log
             sample_cfg (answering sample_track2_reply)
             (Helper_init sample_cfg) h' sample_log_cc cc' code Hrun).
  - vm_compute in Hrun. discriminate Hrun.
Defined.

(** A reader without a card: every exchange fails. *)
Lemma extractBaseRecords_unreadable_card_witness :
  exists h',
    extractBaseRecords sample_cfg (fun _ => (-1, []))
                       (Helper_init sample_cfg) sample_log_cc
    = Ok (0, h', sample_log_cc)
    /\ sent h' = sent (Helper_init sample_cfg) ++ base_read_commands sample_cfg.
Proof.
  apply (extractBaseRecords_unreadable_card
           sample_cfg (fun _ => (-1, [])) (Helper_init sample_cfg)
           sample_log_cc).
  - vm_compute. split; discriminate.
  - intros history. reflexivity.
Defined.

(** The PDOL 9F 02 06 5F 2A 02 9A 03. *)
Lemma pdol_tags_decodes_encoding_witness :
  pdol_tags (with_pdol (CCInfo_init sample_cfg)
                       [0x9F; 0x02; 0x06; 0x5F; 0x2A; 0x02; 0x9A; 0x03])
  = Ok (11, sample_entries).
Proof.
  apply (pdol_tags_decodes_encoding
           (with_pdol (CCInfo_init sample_cfg)
                      [0x9F; 0x02; 0x06; 0x5F; 0x2A; 0x02; 0x9A; 0x03])
           sample_entries []).
  - constructor; [| constructor; [| constructor; [| constructor]]].
    + right. right. left. reflexivity.
    + right. left. reflexivity.
    + left. cbn [fst]. lia.
  - reflexivity.
Defined.


(** The PDOL of [sample_log_cc] and a card that accepts the command. *)
Lemma getProcessingOptions_result_witness :
  exists code h',
    getProcessingOptions sample_cfg (answering [0x00; 0x90; 0x00])
                         (Helper_init sample_cfg) sample_log_cc
    = Ok (code, h')
    /\ sent h' = sent (Helper_init sample_cfg)
                 ++ [GPO_HEADER sample_cfg ++ [wrap8 (6 + 2); 0x83; wrap8 6]
                       ++ flat_map substitution [(0x9F02, 6)] ++ [0]]
    /\ (code = 0 \/ code = 1)
    /\ (code = 0 <-> 0 <= szRx h' /\ ends_9000 (reply h')).
Proof.
  apply (getProcessingOptions_result
           sample_cfg (answering [0x00; 0x90; 0x00]) (Helper_init sample_cfg)
           sample_log_cc 6 [(0x9F02, 6)]).
  - vm_compute. reflexivity.
  - constructor; [| constructor].
    exists [0x00; 0x00; 0x10; 0x00; 0x00; 0x00].
    split; [reflexivity | vm_compute; split; discriminate].
  - vm_compute. discriminate.
  - intros history. vm_compute. discriminate.
  - vm_compute. reflexivity.
Defined.

(** The sample account number, then D1 50 62: year 15, month 06. *)
Lemma printTracksInfo_nibbles_witness :
  printTracksInfo
    (with_track2 (CCInfo_init sample_cfg)
                 ([0x12; 0x34; 0x56; 0x78; 0x90; 0x12; 0x34; 0x56;
                   0xD1; 0x50; 0x62] ++ [0x01]))
  = Ok ("PAN: " +++ HEX 0x12 +++ HEX 0x34 +++ " " +++ HEX 0x56 +++ HEX 0x78
          +++ " " +++ HEX 0x90 +++ HEX 0x12 +++ " " +++ HEX 0x34 +++ HEX 0x56
          +++ " " +++ endl
          +++ "Expiry date: " +++ HEX (16 * (0x50 mod 16) + 0x62 / 16)
          +++ "/20" +++ HEX (16 * (0xD1 mod 16) + 0x50 / 16) +++ endl).
Proof.
  apply (printTracksInfo_nibbles
           (CCInfo_init sample_cfg)
           0x12 0x34 0x56 0x78 0x90 0x12 0x34 0x56 0xD1 0x50 0x62 [0x01]); lia.
Defined.


(** The record 70 04 57 02 12 34. *)
Lemma scan_record_stores_track2_witness :
  size (_track2EquivalentData
          (set_track2 (CCInfo_init sample_cfg)
                      {| size := 2; data := [0x12; 0x34] ++ zeros 298 |}))
  = len [0x12; 0x34]
  /\ payload (_track2EquivalentData
                (set_track2 (CCInfo_init sample_cfg)
                            {| size := 2;
                               data := [0x12; 0x34] ++ zeros 298 |}))
     = [0x12; 0x34].
Proof.
  apply (scan_record_stores_track2
           sample_cfg (CCInfo_init sample_cfg)
           (set_track2 (CCInfo_init sample_cfg)
                       {| size := 2; data := [0x12; 0x34] ++ zeros 298 |})
           0x04 [0x12; 0x34] []).
  - reflexivity.
  - discriminate.
  - vm_compute. split; [reflexivity | discriminate].
  - vm_compute. reflexivity.
Defined.

(** The cardholder name "DOE". *)
Lemma scan_record_cardholder_name_witness :
  scan_record sample_cfg
              {| size := len ([0x5F; 0x20; len [0x44; 0x4F; 0x45]]
                                ++ [0x44; 0x4F; 0x45]);
                 data := [0x5F; 0x20; len [0x44; 0x4F; 0x45]]
                           ++ [0x44; 0x4F; 0x45] |}
              (CCInfo_init sample_cfg)
  = Ok (if 2 <? len [0x44; 0x4F; 0x45]
        then set_cardholderName (CCInfo_init sample_cfg)
               ([0x44; 0x4F; 0x45]
                  ++ skipn (List.length [0x44; 0x4F; 0x45])
                           (_cardholderName (CCInfo_init sample_cfg)))
        else CCInfo_init sample_cfg).
Proof.
  apply (scan_record_cardholder_name
           sample_cfg (CCInfo_init sample_cfg) [0x44; 0x4F; 0x45]).
  vm_compute. discriminate.
Defined.

(** The directory of [visa_directory] holds two bytes 0x61. *)
Lemma getAll_at_most_one_per_0x61_witness :
  exists list h',
    getAll sample_cfg (answering visa_directory) (Helper_init sample_cfg)
    = Ok (list, h')
    /\ sent h' = sent (Helper_init sample_cfg) ++ [SELECT_PPSE sample_cfg]
    /\ (List.length list <= count_0x61 (reply h'))%nat.
Proof.
  destruct (getAll sample_cfg (answering visa_directory)
                   (Helper_init sample_cfg)) as [[list h'] | e] eqn:Hrun.
  - exists list, h'. split; [reflexivity |].
    apply (getAll_at_most_one_per_0x61
             sample_cfg (answering visa_directory) (Helper_init sample_cfg)
             h' list Hrun).
    vm_compute in Hrun. injection Hrun as _ <-.
    apply nonneg_bytes. vm_compute. reflexivity.
  - vm_compute in Hrun. discriminate Hrun.
Defined.





(** The directory with the application A0 00 00 00 03 10 10, the label
    "VISA" and the priority 1, received into the zeroed buffer. *)
Lemma getAll_one_template_witness :
  getAll sample_cfg
         (answering
            (directory_reply 0x00 0x12
               ([0xA0; 0x00; 0x00; 0x00; 0x03; 0x10] ++ [0x10])
               ([0x56; 0x49; 0x53] ++ [0x41]) 1))
         (Helper_init sample_cfg)
  = Ok ([ {| priority := Some 1;
             aid := [0xA0; 0x00; 0x00; 0x00; 0x03; 0x10] ++ [0x10];
             name := ([0x56; 0x49; 0x53] ++ [0x41]) ++ [0] |} ],
        transceive
          (answering
             (directory_reply 0x00 0x12
                ([0xA0; 0x00; 0x00; 0x00; 0x03; 0x10] ++ [0x10])
                ([0x56; 0x49; 0x53] ++ [0x41]) 1))
          (Helper_init sample_cfg) (SELECT_PPSE sample_cfg)).
Proof.
  apply (getAll_one_template
           sample_cfg
           (answering
              (directory_reply 0x00 0x12
                 ([0xA0; 0x00; 0x00; 0x00; 0x03; 0x10] ++ [0x10])
                 ([0x56; 0x49; 0x53] ++ [0x41]) 1))
           (Helper_init sample_cfg) 0x00 0x12 0x10 0x41 1
           [0xA0; 0x00; 0x00; 0x00; 0x03; 0x10] [0x56; 0x49; 0x53]).
  - reflexivity.
  - vm_compute. reflexivity.
  - vm_compute. discriminate.
  - vm_compute. discriminate.
  - discriminate.
  - discriminate.
  - discriminate.
  - discriminate.
  - vm_compute. discriminate.
  - discriminate.
  - vm_compute. reflexivity.
  - discriminate.
  - discriminate.
  - discriminate.
Defined.
